(** * AgreeTime schedule backend: event creation, approval and deletion

    A shallow embedding of [schedule/models.py], [schedule/serializers.py]
    and [schedule/views.py].  The relational tables are lists of rows in
    insertion order; every ORM call is a computation in a state-and-exception
    monad over the database.  The source opens no [transaction.atomic]
    block, so each ORM call commits on its own and an exception raised
    later leaves the earlier writes in place. *)

From Stdlib Require Import ZArith List String Bool Lia Permutation.
Import ListNotations.
Local Open Scope Z_scope.

(* ================================================================== *)
(** ** models.py *)

Module Event.
Inductive Status := PENDING | CONFIRMED | CANCELLED | DELETED.

Definition status_eqb (a b : Status) : bool :=
  match a, b with
  | PENDING, PENDING | CONFIRMED, CONFIRMED
  | CANCELLED, CANCELLED | DELETED, DELETED => true
  | _, _ => false
  end.

Record t := mk {
  id : Z;
  family : Z;
  creator : option Z;
  title : string;
  description : string;
  location : string;
  start_time : Z;
  end_time : Z;
  status : Status;
  created_at : Z;
  updated_at : Z
}.

Definition with_status (e : t) (s : Status) : t :=
  mk (id e) (family e) (creator e) (title e) (description e) (location e)
     (start_time e) (end_time e) s (created_at e) (updated_at e).
End Event.

Module EventParticipant.
Record t := mk { id : Z; event : Z; user : Z }.
End EventParticipant.

Module EventApprover.
Inductive Status := PENDING | APPROVED | REJECTED | EXPIRED.

Definition status_eqb (a b : Status) : bool :=
  match a, b with
  | PENDING, PENDING | APPROVED, APPROVED
  | REJECTED, REJECTED | EXPIRED, EXPIRED => true
  | _, _ => false
  end.

Record t := mk {
  id : Z;
  event : Z;
  approver : Z;
  status : Status;
  decision_time : option Z;
  rejection_reason : string
}.

Definition with_decision_time (a : t) (d : option Z) : t :=
  mk (id a) (event a) (approver a) (status a) d (rejection_reason a).
Definition with_status (a : t) (s : Status) : t :=
  mk (id a) (event a) (approver a) s (decision_time a) (rejection_reason a).
Definition with_rejection_reason (a : t) (r : string) : t :=
  mk (id a) (event a) (approver a) (status a) (decision_time a) r.
End EventApprover.

Module Notification.
Inductive Type_ :=
  EVENT_CREATED | APPROVAL_REQUEST | APPROVAL_RESULT | EVENT_CANCELLED.

Record t := mk {
  id : Z;
  recipient : Z;
  event : option Z;
  type : Type_;
  message : string;
  is_read : bool;
  created_at : Z
}.

Definition with_is_read (n : t) (b : bool) : t :=
  mk (id n) (recipient n) (event n) (type n) (message n) b (created_at n).
End Notification.

Module Comment.
Record t := mk {
  id : Z;
  event : Z;
  author : Z;
  content : string;
  created_at : Z
}.
End Comment.

(* ================================================================== *)
(** ** The database and the ORM calls the views and serializers make *)

(** [users] holds the primary keys of the User table (the targets of the
    foreign keys of participants and approvers).  The [*_seq] fields are
    the last primary key handed out by each table's auto-increment. *)
Record DB := mkDB {
  users : list Z;
  events : list Event.t;
  event_participants : list EventParticipant.t;
  event_approvers : list EventApprover.t;
  notifications : list Notification.t;
  event_seq : Z;
  participant_seq : Z;
  approver_seq : Z
}.

Definition empty_db (us : list Z) : DB := mkDB us [] [] [] [] 0 0 0.

Inductive exn :=
| ValidationError (detail : string)
| IntegrityError
| DoesNotExist
| MultipleObjectsReturned
| Http404.

(** State threaded through, exceptions keep the state reached so far. *)
Definition M (A : Type) : Type := DB -> DB * (exn + A).

Definition ret {A} (a : A) : M A := fun db => (db, inr a).
Definition raise {A} (e : exn) : M A := fun db => (db, inl e).
Definition bind {A B} (m : M A) (k : A -> M B) : M B :=
  fun db =>
    match m db with
    | (db', inl e) => (db', inl e)
    | (db', inr a) => k a db'
    end.

Notation "x <- m ;; k" := (bind m (fun x => k))
  (at level 61, m at next level, right associativity).
Notation "m ;;; k" := (bind m (fun _ => k))
  (at level 61, right associativity).

(** [for x in xs: body(x)] *)
Fixpoint for_each {A} (xs : list A) (body : A -> M unit) : M unit :=
  match xs with
  | [] => ret tt
  | x :: xs' => body x ;;; for_each xs' body
  end.

Definition mem (x : Z) (l : list Z) : bool := existsb (Z.eqb x) l.

(** [Model.objects.get(...)] on the rows a filter selects. *)
Definition get_unique {A} (rows : list A) : M A :=
  match rows with
  | [] => raise DoesNotExist
  | [r] => ret r
  | _ => raise MultipleObjectsReturned
  end.

Module ORM.

(** [Event.objects.create(creator=user, **validated_data)] *)
Definition Event_create (family : Z) (creator : Z) (title description location : string)
           (start_time end_time : Z) (status : Event.Status) (now : Z) : M Event.t :=
  fun db =>
    let pk := event_seq db + 1 in
    let e := Event.mk pk family (Some creator) title description location
                      start_time end_time status now now in
    (mkDB (users db) (events db ++ [e]) (event_participants db)
          (event_approvers db) (notifications db)
          pk (participant_seq db) (approver_seq db),
     inr e).

(** [EventParticipant.objects.create(event=event, user_id=uid)]:
    the user foreign key and [unique_together = ("event", "user")]. *)
Definition EventParticipant_create (event : Z) (user_id : Z) : M unit :=
  fun db =>
    if negb (mem user_id (users db)) then (db, inl IntegrityError)
    else if existsb (fun p => (EventParticipant.event p =? event)
                              && (EventParticipant.user p =? user_id))
                    (event_participants db)
    then (db, inl IntegrityError)
    else
      let pk := participant_seq db + 1 in
      (mkDB (users db) (events db)
            (event_participants db ++ [EventParticipant.mk pk event user_id])
            (event_approvers db) (notifications db)
            (event_seq db) pk (approver_seq db),
       inr tt).

(** [EventApprover.objects.create(event=event, approver_id=aid)]:
    the approver foreign key, [unique_together = ("event", "approver")],
    and the column defaults. *)
Definition EventApprover_create (event : Z) (approver_id : Z) : M unit :=
  fun db =>
    if negb (mem approver_id (users db)) then (db, inl IntegrityError)
    else if existsb (fun a => (EventApprover.event a =? event)
                              && (EventApprover.approver a =? approver_id))
                    (event_approvers db)
    then (db, inl IntegrityError)
    else
      let pk := approver_seq db + 1 in
      (mkDB (users db) (events db) (event_participants db)
            (event_approvers db ++
               [EventApprover.mk pk event approver_id EventApprover.PENDING
                                 None EmptyString])
            (notifications db)
            (event_seq db) (participant_seq db) pk,
       inr tt).

(** [EventApprover.objects.get(event_id=event_id, approver=user)] *)
Definition EventApprover_get (event_id : Z) (user : Z) : M EventApprover.t :=
  fun db =>
    get_unique
      (filter (fun a => (EventApprover.event a =? event_id)
                        && (EventApprover.approver a =? user))
              (event_approvers db)) db.

(** [approver.save()]: every column of the row with this primary key. *)
Definition EventApprover_save (a : EventApprover.t) : M unit :=
  fun db =>
    (mkDB (users db) (events db) (event_participants db)
          (map (fun r => if EventApprover.id r =? EventApprover.id a then a else r)
               (event_approvers db))
          (notifications db)
          (event_seq db) (participant_seq db) (approver_seq db),
     inr tt).

(** [Event.objects.get(pk=pk)], also what [approver.event] runs. *)
Definition Event_get (pk : Z) : M Event.t :=
  fun db => get_unique (filter (fun e => Event.id e =? pk) (events db)) db.

(** [event.approvers.values_list("status", flat=True)] *)
Definition approver_statuses (event : Z) : M (list EventApprover.Status) :=
  fun db =>
    (db, inr (map EventApprover.status
                  (filter (fun a => EventApprover.event a =? event)
                          (event_approvers db)))).

(** [event.save(update_fields=["status"])]: only the status column of
    the row with this primary key ([updated_at] is not among the
    fields written). *)
Definition Event_save_status (e : Event.t) : M unit :=
  fun db =>
    (mkDB (users db)
          (map (fun r => if Event.id r =? Event.id e
                         then Event.with_status r (Event.status e) else r)
               (events db))
          (event_participants db) (event_approvers db) (notifications db)
          (event_seq db) (participant_seq db) (approver_seq db),
     inr tt).

(** [event.delete()]: the row and, through [on_delete=CASCADE], the
    participant, approver and notification rows that point to it. *)
Definition Event_delete (e : Event.t) : M unit :=
  fun db =>
    let pk := Event.id e in
    (mkDB (users db)
          (filter (fun r => negb (Event.id r =? pk)) (events db))
          (filter (fun p => negb (EventParticipant.event p =? pk))
                  (event_participants db))
          (filter (fun a => negb (EventApprover.event a =? pk))
                  (event_approvers db))
          (filter (fun n => match Notification.event n with
                            | Some ev => negb (ev =? pk)
                            | None => true
                            end)
                  (notifications db))
          (event_seq db) (participant_seq db) (approver_seq db),
     inr tt).

(** [notification.save(update_fields=["is_read"])]: only the read flag of
    the row with this primary key. *)
Definition Notification_save_is_read (n : Notification.t) : M unit :=
  fun db =>
    (mkDB (users db) (events db) (event_participants db) (event_approvers db)
          (map (fun r => if Notification.id r =? Notification.id n
                         then Notification.with_is_read r (Notification.is_read n)
                         else r)
               (notifications db))
          (event_seq db) (participant_seq db) (approver_seq db),
     inr tt).

End ORM.

(* ================================================================== *)
(** ** serializers.py *)

Module EventSerializer.

(** The validated request body.  [status] is a writable model field of
    [Meta.fields] with a model default, so it is present only when the
    client sent it; [approver_ids] is declared [required=False]. *)
Record validated_data := mk_data {
  family : Z;
  title : string;
  description : string;
  location : string;
  start_time : Z;
  end_time : Z;
  status : option Event.Status;
  participant_ids : list Z;
  approver_ids : option (list Z)
}.

Definition is_empty {A} (l : list A) : bool :=
  match l with [] => true | _ => false end.

(** [EventSerializer.create]; [user] is [self.context["request"].user.id]
    and [now] the clock read by the [auto_now] columns. *)
Definition create (user : Z) (now : Z) (vd : validated_data) : M Event.t :=
  let participant_ids := participant_ids vd in
  let approver_ids := match approver_ids vd with Some l => l | None => [] end in
  event <- ORM.Event_create (family vd) user (title vd) (description vd)
             (location vd) (start_time vd) (end_time vd)
             (match status vd with Some s => s | None => Event.PENDING end)
             now ;;
  let participant_ids :=
    if negb (mem user participant_ids)
    then participant_ids ++ [user] else participant_ids in
  for_each participant_ids
    (fun uid => ORM.EventParticipant_create (Event.id event) uid) ;;;
  (if (1 <? Z.of_nat (List.length participant_ids))
   then
     if is_empty approver_ids
     then raise (ValidationError "At least one approver must be specified.")
     else for_each approver_ids
            (fun aid => ORM.EventApprover_create (Event.id event) aid)
   else ret tt) ;;;
  ret event.

End EventSerializer.

(* ================================================================== *)
(** ** views.py *)

Inductive payload :=
| Detail (msg : string)
| ApproverStatus (s : EventApprover.Status)
| Serialized (e : Event.t)
| NoContent.

Record Response := mkResponse { status_code : Z; data : payload }.

Module EventDetailView.

(** [self.get_object()]: the queryset is [Event.objects.all()], a
    missing row becomes a 404. *)
Definition get_object (pk : Z) : M Event.t :=
  fun db =>
    match ORM.Event_get pk db with
    | (db', inl DoesNotExist) => (db', inl Http404)
    | r => r
    end.

(** [DestroyAPIView.delete]: fetch the object again, delete it, 204. *)
Definition super_delete (pk : Z) : M Response :=
  instance <- get_object pk ;;
  ORM.Event_delete instance ;;;
  ret (mkResponse 204 NoContent).

Definition delete (pk : Z) : M Response :=
  event <- get_object pk ;;
  if Event.status_eqb (Event.status event) Event.CONFIRMED
  then
    let event := Event.with_status event Event.CANCELLED in
    ORM.Event_save_status event ;;;
    ret (mkResponse 204 NoContent)
  else super_delete pk.

End EventDetailView.

Module ApproveEventView.

(** A value of the JSON body where the code expects a text: [null], or
    a string.  Any other value that is not [null] counts through the text
    the column stores for it. *)
Inductive json_text :=
| JNull
| JText (s : string).

(** [request.data]: both keys may be missing.  [decision] is [None] when
    the key is missing or its value is no string: either way it differs
    from the string approve.  [reason] is [None] when the key is missing. *)
Record request_data := mk_request {
  decision : option string;
  reason : option json_text
}.

Definition is_approve (d : option string) : bool :=
  match d with
  | Some s => String.eqb s "approve"
  | None => false
  end.

Definition recompute (statuses : list EventApprover.Status) (event : Event.t)
  : M unit :=
  if forallb (fun s => EventApprover.status_eqb s EventApprover.APPROVED) statuses
  then ORM.Event_save_status (Event.with_status event Event.CONFIRMED)
  else if existsb (fun s => EventApprover.status_eqb s EventApprover.REJECTED) statuses
  then ORM.Event_save_status (Event.with_status event Event.CANCELLED)
  else ret tt.

(** From [approver.save()] to the response, lines 89 to 99. *)
Definition save_and_answer (approver : EventApprover.t) : M Response :=
  ORM.EventApprover_save approver ;;;
  event <- ORM.Event_get (EventApprover.event approver) ;;
  statuses <- ORM.approver_statuses (Event.id event) ;;
  recompute statuses event ;;;
  ret (mkResponse 200 (ApproverStatus (EventApprover.status approver))).

(** [ApproveEventView.post]; [user] is [request.user.id], [now] is
    [timezone.now()].  [request.data.get("reason", "")] gives the empty
    string for a missing key only: a [null] stays Python's [None], and
    [approver.save()] with [None] in [rejection_reason], a column that is
    not nullable, raises IntegrityError and writes nothing. *)
Definition post (user : Z) (now : Z) (rd : request_data) (event_id : Z)
  : M Response :=
  fun db =>
    let decision := decision rd in
    let reason : option string :=
      match reason rd with
      | None => Some EmptyString
      | Some JNull => None
      | Some (JText s) => Some s
      end in
    match ORM.EventApprover_get event_id user db with
    | (db1, inl DoesNotExist) =>
        (db1, inr (mkResponse 403 (Detail "Not an approver for this event.")))
    | (db1, inl e) => (db1, inl e)
    | (db1, inr approver) =>
        if negb (EventApprover.status_eqb (EventApprover.status approver)
                                          EventApprover.PENDING)
        then (db1, inr (mkResponse 400 (Detail "Already responded.")))
        else
          let approver := EventApprover.with_decision_time approver (Some now) in
          if is_approve decision
          then
            save_and_answer
              (EventApprover.with_status approver EventApprover.APPROVED) db1
          else
            match reason with
            | Some r =>
                save_and_answer
                  (EventApprover.with_rejection_reason
                     (EventApprover.with_status approver EventApprover.REJECTED)
                     r)
                  db1
            | None => (db1, inl IntegrityError)
            end
    end.

End ApproveEventView.

(** [UpdateModelMixin] with [ModelSerializer.update], as
    [EventDetailView(generics.RetrieveUpdateDestroyAPIView)] inherits them
    for [EventSerializer]: every model field of [Meta.fields] that is not
    read-only and that the request carries is assigned to the instance,
    which is then saved ([auto_now] refreshes [updated_at]).  The list
    fields [participant_ids] and [approver_ids] are no model fields and
    reach no table. *)
Module EventUpdate.

Record validated_data := mk_data {
  family : option Z;
  title : option string;
  description : option string;
  location : option string;
  start_time : option Z;
  end_time : option Z;
  status : option Event.Status
}.

Definition or_else {A} (o : option A) (d : A) : A :=
  match o with Some a => a | None => d end.

Definition assign (e : Event.t) (now : Z) (vd : validated_data) : Event.t :=
  Event.mk (Event.id e)
           (or_else (family vd) (Event.family e))
           (Event.creator e)
           (or_else (title vd) (Event.title e))
           (or_else (description vd) (Event.description e))
           (or_else (location vd) (Event.location e))
           (or_else (start_time vd) (Event.start_time e))
           (or_else (end_time vd) (Event.end_time e))
           (or_else (status vd) (Event.status e))
           (Event.created_at e)
           now.

Definition update (pk : Z) (now : Z) (vd : validated_data) : M Response :=
  instance <- EventDetailView.get_object pk ;;
  let instance := assign instance now vd in
  (fun db =>
     (mkDB (users db)
           (map (fun r => if Event.id r =? Event.id instance then instance else r)
                (events db))
           (event_participants db) (event_approvers db) (notifications db)
           (event_seq db) (participant_seq db) (approver_seq db),
      inr (mkResponse 200 (Serialized instance)))).

End EventUpdate.

(* ================================================================== *)
(** ** Requests and runs *)

Inductive request :=
| CreateEvent (user now : Z) (vd : EventSerializer.validated_data)
| Decide (user now : Z) (rd : ApproveEventView.request_data) (event_id : Z)
| DeleteEvent (pk : Z)
| UpdateEvent (pk now : Z) (vd : EventUpdate.validated_data).

(** The database a request leaves behind, whatever it answers. *)
Definition handle (r : request) (db : DB) : DB :=
  match r with
  | CreateEvent user now vd => fst (EventSerializer.create user now vd db)
  | Decide user now rd event_id => fst (ApproveEventView.post user now rd event_id db)
  | DeleteEvent pk => fst (EventDetailView.delete pk db)
  | UpdateEvent pk now vd => fst (EventUpdate.update pk now vd db)
  end.

Definition run (rs : list request) (db : DB) : DB :=
  fold_left (fun d r => handle r d) rs db.

(** Requests that leave the event status to the code: no update, and no
    [status] key in the body of a creation. *)
Definition status_untouched (r : request) : bool :=
  match r with
  | CreateEvent _ _ vd =>
      match EventSerializer.status vd with None => true | Some _ => false end
  | Decide _ _ _ _ => true
  | DeleteEvent _ => true
  | UpdateEvent _ _ _ => false
  end.

(** Requests that leave the event status as the code sets it: a creation
    whose body has no [status] key or gives PENDING, the status the model
    gives by default; an update whose body has no [status] key; every
    decision and every deletion. *)
Definition leaves_status (r : request) : bool :=
  match r with
  | CreateEvent _ _ vd =>
      match EventSerializer.status vd with
      | None => true
      | Some s => Event.status_eqb s Event.PENDING
      end
  | Decide _ _ _ _ => true
  | DeleteEvent _ => true
  | UpdateEvent _ _ vd =>
      match EventUpdate.status vd with None => true | Some _ => false end
  end.

(** A decision request of [user] at time [now] on event [eid]. *)
Definition approval (eid : Z)
           (d : Z * Z * option ApproveEventView.json_text) : request :=
  let '(user, now, reason) := d in
  Decide user now (ApproveEventView.mk_request (Some "approve"%string) reason) eid.

Definition decision_request
           (d : Z * Z * ApproveEventView.request_data * Z) : request :=
  let '(user, now, rd, eid) := d in Decide user now rd eid.

(* ================================================================== *)
(** ** Scenarios *)

(** A family of five users; user 1 creates the events. *)
Definition family_db : DB := empty_db [1; 2; 3; 4; 5].

Definition solo_request : EventSerializer.validated_data :=
  EventSerializer.mk_data 7 "dentist" "at the clinic" "Main Street" 10 20 None [] None.

Definition backwards_request : EventSerializer.validated_data :=
  EventSerializer.mk_data 7 "dentist" "at the clinic" "Main Street" 10 5 None [] None.

Definition shared_request_without_approvers : EventSerializer.validated_data :=
  EventSerializer.mk_data 7 "dinner" "with the grandparents" "home" 10 20 None [2] None.

(** Participants 1, 2 and 3; approvers 4 and 5. *)
Definition dinner_request : EventSerializer.validated_data :=
  EventSerializer.mk_data 7 "dinner" "with the grandparents" "home" 10 20 None [2; 3] (Some [4; 5]).

Definition dinner_db : DB :=
  fst (EventSerializer.create 1 100 dinner_request family_db).

(** Participants 1 and 2; approver 4 alone. *)
Definition lunch_request : EventSerializer.validated_data :=
  EventSerializer.mk_data 7 "lunch" "after school" "canteen" 10 20 None [2] (Some [4]).

Definition lunch_db : DB :=
  fst (EventSerializer.create 1 100 lunch_request family_db).

(** The same, with a status in the request body. *)
Definition confirmed_lunch_request : EventSerializer.validated_data :=
  EventSerializer.mk_data 7 "lunch" "after school" "canteen" 10 20 (Some Event.CONFIRMED) [2] (Some [4]).

Definition approve : ApproveEventView.request_data :=
  ApproveEventView.mk_request (Some "approve"%string) None.

Definition reject_conflict : ApproveEventView.request_data :=
  ApproveEventView.mk_request
    (Some "reject"%string) (Some (ApproveEventView.JText "conflict")).

Definition no_decision : ApproveEventView.request_data :=
  ApproveEventView.mk_request None None.

(** A rejection whose body holds [null] under the key reason. *)
Definition reject_null_reason : ApproveEventView.request_data :=
  ApproveEventView.mk_request (Some "reject"%string) (Some ApproveEventView.JNull).

(* ================================================================== *)
(** ** Observations on the database *)

Definition lookup_event (pk : Z) (db : DB) : option Event.t :=
  find (fun e => Event.id e =? pk) (events db).

Definition status_of (pk : Z) (db : DB) : option Event.Status :=
  option_map Event.status (lookup_event pk db).

Definition approvers_of (pk : Z) (db : DB) : list EventApprover.t :=
  filter (fun a => EventApprover.event a =? pk) (event_approvers db).

Definition participants_of (pk : Z) (db : DB) : list EventParticipant.t :=
  filter (fun p => EventParticipant.event p =? pk) (event_participants db).

Definition approver_row (pk user : Z) (db : DB) : option EventApprover.t :=
  find (fun a => (EventApprover.event a =? pk) && (EventApprover.approver a =? user))
       (event_approvers db).

Definition is_approved (s : EventApprover.Status) : bool :=
  EventApprover.status_eqb s EventApprover.APPROVED.
Definition is_rejected (s : EventApprover.Status) : bool :=
  EventApprover.status_eqb s EventApprover.REJECTED.
Definition is_pending (s : EventApprover.Status) : bool :=
  EventApprover.status_eqb s EventApprover.PENDING.

(** The notifications of [db'] that [db] does not have. *)
Definition emitted (db db' : DB) : list Notification.t :=
  filter (fun n => negb (mem (Notification.id n)
                             (map Notification.id (notifications db))))
         (notifications db').

Definition not_an_approver : Response :=
  mkResponse 403 (Detail "Not an approver for this event.").
Definition already_decided : Response :=
  mkResponse 400 (Detail "Already responded.").

(** The approvers of an event that have not answered yet. *)
Definition pending_users (pk : Z) (db : DB) : list Z :=
  map EventApprover.approver
      (filter (fun a => is_pending (EventApprover.status a)) (approvers_of pk db)).

(** Some approver of the event has rejected it. *)
Definition has_rejection (eid : Z) (db : DB) : Prop :=
  exists r, In r (approvers_of eid db) /\
            EventApprover.status r = EventApprover.REJECTED.

(** No approver of the event has rejected it. *)
Definition undecided_or_approved (eid : Z) (db : DB) : Prop :=
  forall a, In a (approvers_of eid db) ->
            EventApprover.status a = EventApprover.PENDING \/
            EventApprover.status a = EventApprover.APPROVED.

(** Every approver has answered, or one of them has rejected. *)
Definition settled (eid : Z) (db : DB) : Prop :=
  has_rejection eid db \/
  forall a, In a (approvers_of eid db) ->
            EventApprover.status a = EventApprover.APPROVED.

(** The exception a computation ended with, if any. *)
Definition raised {A} (r : DB * (exn + A)) : option exn :=
  match snd r with
  | inl e => Some e
  | inr _ => None
  end.

(** *** Integrity of the tables

    Primary keys are distinct and were handed out by the sequence, the
    pair (event, approver) is unique, and the event foreign keys of
    approvers and participants point to rows of the event table. *)

Fixpoint distinct (l : list Z) : bool :=
  match l with
  | [] => true
  | x :: r => negb (mem x r) && distinct r
  end.

Definition approver_key (a : EventApprover.t) : Z * Z :=
  (EventApprover.event a, EventApprover.approver a).

Definition key_eqb (k1 k2 : Z * Z) : bool :=
  (fst k1 =? fst k2) && (snd k1 =? snd k2).

Fixpoint distinct_keys (l : list (Z * Z)) : bool :=
  match l with
  | [] => true
  | k :: r => negb (existsb (key_eqb k) r) && distinct_keys r
  end.

Definition well_formed (db : DB) : bool :=
  distinct (map Event.id (events db))
  && distinct (map EventApprover.id (event_approvers db))
  && distinct_keys (map approver_key (event_approvers db))
  && forallb (fun e => Event.id e <=? event_seq db) (events db)
  && forallb (fun a => EventApprover.id a <=? approver_seq db) (event_approvers db)
  && forallb (fun a => mem (EventApprover.event a) (map Event.id (events db)))
             (event_approvers db)
  && forallb (fun p => mem (EventParticipant.event p) (map Event.id (events db)))
             (event_participants db).

Record WF (db : DB) : Prop := mkWF {
  wf_event_pk : NoDup (map Event.id (events db));
  wf_approver_pk : NoDup (map EventApprover.id (event_approvers db));
  wf_approver_key : NoDup (map approver_key (event_approvers db));
  wf_event_seq : forall e, In e (events db) -> Event.id e <= event_seq db;
  wf_approver_seq :
    forall a, In a (event_approvers db) -> EventApprover.id a <= approver_seq db;
  wf_approver_fk :
    forall a, In a (event_approvers db) ->
              In (EventApprover.event a) (map Event.id (events db));
  wf_participant_fk :
    forall p, In p (event_participants db) ->
              In (EventParticipant.event p) (map Event.id (events db))
}.

(** The two databases a deletion of event [pk] can leave. *)
Definition soft_deleted (db : DB) (pk : Z) : DB :=
  mkDB (users db)
       (map (fun r => if Event.id r =? pk
                      then Event.with_status r Event.CANCELLED else r)
            (events db))
       (event_participants db) (event_approvers db) (notifications db)
       (event_seq db) (participant_seq db) (approver_seq db).

Definition hard_deleted (db : DB) (pk : Z) : DB :=
  mkDB (users db)
       (filter (fun r => negb (Event.id r =? pk)) (events db))
       (filter (fun p => negb (EventParticipant.event p =? pk))
               (event_participants db))
       (filter (fun a => negb (EventApprover.event a =? pk))
               (event_approvers db))
       (filter (fun n => match Notification.event n with
                         | Some ev => negb (ev =? pk)
                         | None => true
                         end)
               (notifications db))
       (event_seq db) (participant_seq db) (approver_seq db).

(** The event is CANCELLED, or its row is removed and its key spent. *)
Definition cancelled_or_gone (pk : Z) (db : DB) : Prop :=
  status_of pk db = Some Event.CANCELLED
  \/ (lookup_event pk db = None /\ pk <= event_seq db).

(** *** What the reachable databases satisfy

    The tables are consistent, and an event that is no longer PENDING is
    CONFIRMED or CANCELLED with all its approvers settled. *)
Record Inv (db : DB) : Prop := mkInv {
  inv_wf : WF db;
  inv_status :
    forall e, In e (events db) ->
              Event.status e = Event.PENDING \/
              ((Event.status e = Event.CONFIRMED \/ Event.status e = Event.CANCELLED)
               /\ settled (Event.id e) db)
}.

(* ================================================================== *)
(** ** The pieces of a creation *)

(** The two halves of [EventSerializer.create] after the event row is
    written: the participant list with the creator, and the loops over
    participants and approvers. *)
Definition add_creator (user : Z) (participant_ids : list Z) : list Z :=
  if negb (mem user participant_ids)
  then participant_ids ++ [user] else participant_ids.

Definition create_rows (event_id : Z) (participant_ids approver_ids : list Z)
  : M unit :=
  for_each participant_ids
    (fun uid => ORM.EventParticipant_create event_id uid) ;;;
  (if (1 <? Z.of_nat (List.length participant_ids))
   then
     if EventSerializer.is_empty approver_ids
     then raise (ValidationError "At least one approver must be specified.")
     else for_each approver_ids
            (fun aid => ORM.EventApprover_create event_id aid)
   else ret tt).

Definition with_times (vd : EventSerializer.validated_data) (s e : Z)
  : EventSerializer.validated_data :=
  EventSerializer.mk_data
    (EventSerializer.family vd) (EventSerializer.title vd)
    (EventSerializer.description vd) (EventSerializer.location vd)
    s e (EventSerializer.status vd)
    (EventSerializer.participant_ids vd) (EventSerializer.approver_ids vd).

(** The row [Event.objects.create] builds, and the database with it. *)
Definition new_event (user now : Z) (vd : EventSerializer.validated_data)
           (db : DB) : Event.t :=
  Event.mk (event_seq db + 1) (EventSerializer.family vd) (Some user)
           (EventSerializer.title vd) (EventSerializer.description vd)
           (EventSerializer.location vd) (EventSerializer.start_time vd)
           (EventSerializer.end_time vd)
           (match EventSerializer.status vd with
            | Some s => s
            | None => Event.PENDING
            end)
           now now.

Definition with_event (db : DB) (ev : Event.t) : DB :=
  mkDB (users db) (events db ++ [ev]) (event_participants db)
       (event_approvers db) (notifications db)
       (Event.id ev) (participant_seq db) (approver_seq db).

(** A computation keeps a property of the database, however it ends. *)
Definition preserves {A} (P : DB -> Prop) (m : M A) : Prop :=
  forall db, P db -> P (fst (m db)).

(** Two databases that differ in the event table at most. *)
Definition same_but_events (d1 d2 : DB) : Prop :=
  users d1 = users d2
  /\ event_participants d1 = event_participants d2
  /\ event_approvers d1 = event_approvers d2
  /\ notifications d1 = notifications d2
  /\ participant_seq d1 = participant_seq d2
  /\ approver_seq d1 = approver_seq d2.

(** The tables a creation never writes after the event row. *)
Definition same_events (d0 d : DB) : Prop :=
  users d = users d0 /\ events d = events d0
  /\ notifications d = notifications d0 /\ event_seq d = event_seq d0.

(** A computation that neither reads nor writes the event table:
    started in two databases that differ there at most, it ends alike. *)
Definition blind_to_events {A} (m : M A) : Prop :=
  forall d1 d2,
    same_but_events d1 d2 ->
    same_but_events (fst (m d1)) (fst (m d2)) /\ snd (m d1) = snd (m d2).

(* ================================================================== *)
(** ** The pieces of an approval decision *)

(** The text of the reason of a body: empty when the key is missing. *)
Definition reason_text (rd : ApproveEventView.request_data) : string :=
  match ApproveEventView.reason rd with
  | Some (ApproveEventView.JText s) => s
  | _ => EmptyString
  end.

(** The body leads to a row that can be saved: it approves, or its reason
    is not [null]. *)
Definition saves (rd : ApproveEventView.request_data) : bool :=
  ApproveEventView.is_approve (ApproveEventView.decision rd)
  || match ApproveEventView.reason rd with
     | Some ApproveEventView.JNull => false
     | _ => true
     end.

(** The row [post] saves for a pending approver. *)
Definition decided_row (a : EventApprover.t) (now : Z)
           (rd : ApproveEventView.request_data) : EventApprover.t :=
  let a := EventApprover.with_decision_time a (Some now) in
  if ApproveEventView.is_approve (ApproveEventView.decision rd)
  then EventApprover.with_status a EventApprover.APPROVED
  else EventApprover.with_rejection_reason
         (EventApprover.with_status a EventApprover.REJECTED)
         (reason_text rd).

(** The event status [post] computes from the approver statuses, in the
    order the code tests them. *)
Definition new_status (statuses : list EventApprover.Status) (old : Event.Status)
  : Event.Status :=
  if forallb is_approved statuses then Event.CONFIRMED
  else if existsb is_rejected statuses then Event.CANCELLED
  else old.

(** The same, in the order the specification lists the cases. *)
Definition spec_status (statuses : list EventApprover.Status) (old : Event.Status)
  : Event.Status :=
  if existsb is_rejected statuses then Event.CANCELLED
  else if forallb is_approved statuses then Event.CONFIRMED
  else old.

(** The database after a recorded decision on event [eid]. *)
Definition after_decision (db : DB) (a' : EventApprover.t) (eid : Z)
           (old : Event.Status) : DB :=
  let approvers' :=
    map (fun r => if EventApprover.id r =? EventApprover.id a' then a' else r)
        (event_approvers db) in
  let statuses :=
    map EventApprover.status
        (filter (fun r => EventApprover.event r =? eid) approvers') in
  mkDB (users db)
       (map (fun r => if Event.id r =? eid
                      then Event.with_status r (new_status statuses old) else r)
            (events db))
       (event_participants db) approvers' (notifications db)
       (event_seq db) (participant_seq db) (approver_seq db).

(* ================================================================== *)
(** ** views.py: the list views, the notifications and the comments *)

(** The Comment table with its auto-increment.  The Family table is a
    list of primary keys; the views read nothing else of a family. *)
Record CommentTable := mkComments {
  comments : list Comment.t;
  comment_seq : Z
}.

Module FamilyEventsListCreateView.

(** [Event.objects.filter(family_id=family_id)] *)
Definition get_queryset (family_id : Z) (db : DB) : list Event.t :=
  filter (fun e => Event.family e =? family_id) (events db).

(** [serializer.save(family=family)]: the keyword argument replaces the
    [family] of the validated body. *)
Definition with_family (vd : EventSerializer.validated_data) (family : Z)
  : EventSerializer.validated_data :=
  EventSerializer.mk_data
    family (EventSerializer.title vd)
    (EventSerializer.description vd) (EventSerializer.location vd)
    (EventSerializer.start_time vd) (EventSerializer.end_time vd)
    (EventSerializer.status vd)
    (EventSerializer.participant_ids vd) (EventSerializer.approver_ids vd).

(** [perform_create]; [families] is the Family table, [family_id] the
    key of the URL. *)
Definition perform_create (families : list Z) (family_id user now : Z)
           (vd : EventSerializer.validated_data) : M Event.t :=
  family <- get_unique (filter (fun f => f =? family_id) families) ;;
  EventSerializer.create user now (with_family vd family).

End FamilyEventsListCreateView.

Module MyApprovalRequestsView.

(** [Event.objects.filter(approvers__approver=user,
    approvers__status=PENDING)]: the join of the events with the approver
    rows, one result for every approver row of the event that has both
    this user and PENDING. *)
Definition get_queryset (user : Z) (db : DB) : list Event.t :=
  flat_map
    (fun e =>
       map (fun _ => e)
           (filter (fun a => (EventApprover.event a =? Event.id e)
                             && (EventApprover.approver a =? user)
                             && is_pending (EventApprover.status a))
                   (event_approvers db)))
    (events db).

End MyApprovalRequestsView.

Module MyNotificationsView.

(** [Notification.objects.filter(recipient=self.request.user)] *)
Definition get_queryset (user : Z) (db : DB) : list Notification.t :=
  filter (fun n => Notification.recipient n =? user) (notifications db).

End MyNotificationsView.

Module MarkNotificationReadView.

Definition post (user pk : Z) : M Response :=
  fun db =>
    match get_unique
            (filter (fun n => (Notification.id n =? pk)
                              && (Notification.recipient n =? user))
                    (notifications db)) db with
    | (db1, inl DoesNotExist) => (db1, inr (mkResponse 404 NoContent))
    | (db1, inl e) => (db1, inl e)
    | (db1, inr notification) =>
        let notification := Notification.with_is_read notification true in
        (ORM.Notification_save_is_read notification ;;;
         ret (mkResponse 204 NoContent)) db1
    end.

End MarkNotificationReadView.

Module EventCommentsListCreateView.

(** [Comment.objects.filter(event_id=event_id)] *)
Definition get_queryset (event_id : Z) (t : CommentTable) : list Comment.t :=
  filter (fun c => Comment.event c =? event_id) (comments t).

(** [serializer.save(event_id=event_id, author=self.request.user)] with
    the validated [content]: the event foreign key is checked by the
    insert. *)
Definition perform_create (user now event_id : Z) (content : string)
           (db : DB) (t : CommentTable) : CommentTable * (exn + Comment.t) :=
  if negb (mem event_id (map Event.id (events db)))
  then (t, inl IntegrityError)
  else
    let pk := comment_seq t + 1 in
    let c := Comment.mk pk event_id user content now in
    (mkComments (comments t ++ [c]) pk, inr c).

End EventCommentsListCreateView.

Module CommentDeleteView.

(** [self.get_object()] on [Comment.objects.all()]. *)
Definition get_object (pk : Z) (t : CommentTable) : exn + Comment.t :=
  match filter (fun c => Comment.id c =? pk) (comments t) with
  | [] => inl Http404
  | [c] => inr c
  | _ => inl MultipleObjectsReturned
  end.

(** [DestroyAPIView.delete]: fetch again, [comment.delete()], 204. *)
Definition super_delete (pk : Z) (t : CommentTable)
  : CommentTable * (exn + Response) :=
  match get_object pk t with
  | inl e => (t, inl e)
  | inr c =>
      (mkComments (filter (fun r => negb (Comment.id r =? Comment.id c))
                          (comments t))
                  (comment_seq t),
       inr (mkResponse 204 NoContent))
  end.

(** [request.user != event.creator]; the creator may be NULL. *)
Definition is_not_creator (user : Z) (e : Event.t) : bool :=
  match Event.creator e with
  | Some c => negb (user =? c)
  | None => true
  end.

(** [CommentDeleteView.delete]; [and] reads [comment.event] only when
    the user is not the author. *)
Definition delete (user pk : Z) (db : DB) (t : CommentTable)
  : CommentTable * (exn + Response) :=
  match get_object pk t with
  | inl e => (t, inl e)
  | inr comment =>
      if negb (user =? Comment.author comment)
      then
        match snd (ORM.Event_get (Comment.event comment) db) with
        | inl e => (t, inl e)
        | inr event =>
            if is_not_creator user event
            then (t, inr (mkResponse 403 NoContent))
            else super_delete pk t
        end
      else super_delete pk t
  end.

End CommentDeleteView.

(* ================================================================== *)
(** ** What a creation checks, told from the request alone *)

(** The ids are pairwise different and every one is a user. *)
Definition valid_ids (users : list Z) (l : list Z) : bool :=
  distinct l && forallb (fun u => mem u users) l.

(** The exception [EventSerializer.create] ends with, if any, read off
    the request and the user table. *)
Definition create_verdict (db : DB) (user : Z)
           (vd : EventSerializer.validated_data) : option exn :=
  let ps := add_creator user (EventSerializer.participant_ids vd) in
  let aids := match EventSerializer.approver_ids vd with
              | Some l => l
              | None => []
              end in
  if negb (valid_ids (users db) ps) then Some IntegrityError
  else if 1 <? Z.of_nat (List.length ps)
       then if EventSerializer.is_empty aids
            then Some (ValidationError "At least one approver must be specified.")
            else if negb (valid_ids (users db) aids) then Some IntegrityError
                 else None
       else None.

(** An approver row as [EventApprover.objects.create] leaves it. *)
Definition pristine (eid : Z) (a : EventApprover.t) : Prop :=
  EventApprover.event a = eid
  /\ EventApprover.status a = EventApprover.PENDING
  /\ EventApprover.decision_time a = None
  /\ EventApprover.rejection_reason a = EmptyString.

(** The checks of the two inserts of a creation: the user exists and the
    pair is new. *)
Definition participant_ok (eid u : Z) (db : DB) : bool :=
  mem u (users db)
  && negb (existsb (fun p => (EventParticipant.event p =? eid)
                             && (EventParticipant.user p =? u))
                   (event_participants db)).

Definition approver_ok (eid u : Z) (db : DB) : bool :=
  mem u (users db)
  && negb (existsb (fun a => (EventApprover.event a =? eid)
                             && (EventApprover.approver a =? u))
                   (event_approvers db)).

(* ================================================================== *)
(** ** Shapes of rows and tables the code keeps *)

(** An approver row is untouched (PENDING, no decision time, no reason),
    approved (decision time, no reason) or rejected (decision time). *)
Definition lifecycle_ok (a : EventApprover.t) : bool :=
  match EventApprover.status a with
  | EventApprover.PENDING =>
      match EventApprover.decision_time a with
      | None => String.eqb (EventApprover.rejection_reason a) EmptyString
      | Some _ => false
      end
  | EventApprover.APPROVED =>
      match EventApprover.decision_time a with
      | Some _ => String.eqb (EventApprover.rejection_reason a) EmptyString
      | None => false
      end
  | EventApprover.REJECTED =>
      match EventApprover.decision_time a with
      | Some _ => true
      | None => false
      end
  | EventApprover.EXPIRED => false
  end.

(** The event status goes with the statuses of its approver rows. *)
Definition status_fits (s : Event.Status) (sts : list EventApprover.Status)
  : bool :=
  match s with
  | Event.PENDING =>
      negb (existsb is_rejected sts)
      && (EventSerializer.is_empty sts || negb (forallb is_approved sts))
  | Event.CONFIRMED =>
      negb (EventSerializer.is_empty sts) && forallb is_approved sts
  | Event.CANCELLED =>
      existsb is_rejected sts
      || (negb (EventSerializer.is_empty sts) && forallb is_approved sts)
  | Event.DELETED => false
  end.

Definition event_fits (db : DB) (e : Event.t) : bool :=
  status_fits (Event.status e)
              (map EventApprover.status (approvers_of (Event.id e) db)).

(** The row is in the table as it is, or its key is spent and unused. *)
Definition kept_or_removed (a : EventApprover.t) (db : DB) : Prop :=
  In a (event_approvers db)
  \/ (EventApprover.id a <= approver_seq db
      /\ ~ In (EventApprover.id a) (map EventApprover.id (event_approvers db))).

(** The key was handed out and no event row has it. *)
Definition gone (pk : Z) (db : DB) : Prop :=
  lookup_event pk db = None /\ pk <= event_seq db.

(** Primary keys of the notification and comment tables. *)
Definition notifications_keyed (db : DB) : bool :=
  distinct (map Notification.id (notifications db)).

Definition comments_keyed (t : CommentTable) : bool :=
  distinct (map Comment.id (comments t))
  && forallb (fun c => Comment.id c <=? comment_seq t) (comments t).

Definition mark_read (pk : Z) (n : Notification.t) : Notification.t :=
  if Notification.id n =? pk then Notification.with_is_read n true else n.

(** The tables are consistent and every event status goes with the
    statuses of its approver rows. *)
Definition Fits (db : DB) : Prop :=
  WF db /\ forallb (event_fits db) (events db) = true.

(** The same while the rows of the new event [eid] are being written. *)
Definition Fits_creating (eid : Z) (db : DB) : Prop :=
  Fits db
  /\ status_of eid db = Some Event.PENDING
  /\ forallb (fun a => is_pending (EventApprover.status a)) (approvers_of eid db)
     = true.

(* ================================================================== *)
(** ** More scenarios *)

(** User 2 named twice. *)
Definition repeated_request : EventSerializer.validated_data :=
  EventSerializer.mk_data 7 "dinner" "with the grandparents" "home" 10 20 None
                          [2; 2] (Some [4]).

(** User 2 named twice, and no approver id. *)
Definition repeated_request_without_approvers : EventSerializer.validated_data :=
  EventSerializer.mk_data 7 "dinner" "with the grandparents" "home" 10 20 None
                          [2; 2] None.

(** An id that is no user, and no approver id. *)
Definition stranger_request_without_approvers : EventSerializer.validated_data :=
  EventSerializer.mk_data 7 "dinner" "with the grandparents" "home" 10 20 None
                          [99] None.

(** The lunch with a status in the body: the default one, and two others. *)
Definition pending_lunch_request : EventSerializer.validated_data :=
  EventSerializer.mk_data 7 "lunch" "after school" "canteen" 10 20
                          (Some Event.PENDING) [2] (Some [4]).

Definition cancelled_lunch_request : EventSerializer.validated_data :=
  EventSerializer.mk_data 7 "lunch" "after school" "canteen" 10 20
                          (Some Event.CANCELLED) [2] (Some [4]).

Definition deleted_lunch_request : EventSerializer.validated_data :=
  EventSerializer.mk_data 7 "lunch" "after school" "canteen" 10 20
                          (Some Event.DELETED) [2] (Some [4]).

(** An update that moves the place and carries no status. *)
Definition move_to_garden : EventUpdate.validated_data :=
  EventUpdate.mk_data None None None (Some "garden"%string) None None None.

(** A solo event that names an approver all the same. *)
Definition solo_request_with_approver : EventSerializer.validated_data :=
  EventSerializer.mk_data 7 "dentist" "at the clinic" "Main Street" 10 20 None
                          [] (Some [4]).

(** The lunch database with three notifications: two for user 4, one
    for user 2. *)
Definition inbox_db : DB :=
  mkDB (users lunch_db) (events lunch_db) (event_participants lunch_db)
       (event_approvers lunch_db)
       [Notification.mk 1 4 (Some 1) Notification.APPROVAL_REQUEST
                        "please answer" false 100;
        Notification.mk 2 2 (Some 1) Notification.EVENT_CREATED
                        "lunch" false 100;
        Notification.mk 3 4 None Notification.EVENT_CANCELLED
                        "old news" true 90]
       (event_seq lunch_db) (participant_seq lunch_db) (approver_seq lunch_db).

(** Two comments on the lunch event, by users 2 and 3. *)
Definition lunch_comments : CommentTable :=
  mkComments [Comment.mk 1 1 2 "see you there" 110;
              Comment.mk 2 1 3 "me too" 120]
             2.

(* ================================================================== *)
(** ** Lists and keys *)

Section ListFacts.

Lemma mem_In (x : Z) (l : list Z) : mem x l = true <-> In x l.
Proof.
  unfold mem. rewrite existsb_exists. split.
  - intros [y [Hy Heq]]. apply Z.eqb_eq in Heq. now subst.
  - intros H. exists x. split; [assumption | apply Z.eqb_refl].
Qed.

Lemma mem_false (x : Z) (l : list Z) : mem x l = false <-> ~ In x l.
Proof.
  rewrite <- mem_In. destruct (mem x l); split; congruence.
Qed.

Lemma distinct_NoDup (l : list Z) : distinct l = true <-> NoDup l.
Proof.
  induction l as [|x r IH]; simpl.
  - split; [constructor | reflexivity].
  - rewrite andb_true_iff, negb_true_iff, mem_false, IH. split.
    + intros [H1 H2]. now constructor.
    + intros H. inversion H; subst. now split.
Qed.

Lemma key_eqb_eq (k1 k2 : Z * Z) : key_eqb k1 k2 = true <-> k1 = k2.
Proof.
  destruct k1 as [a b], k2 as [c d]. unfold key_eqb. simpl.
  rewrite andb_true_iff, !Z.eqb_eq. split.
  - intros [-> ->]. reflexivity.
  - intros H. inversion H. now split.
Qed.

Lemma distinct_keys_NoDup (l : list (Z * Z)) :
  distinct_keys l = true <-> NoDup l.
Proof.
  induction l as [|k r IH]; simpl.
  - split; [constructor | reflexivity].
  - rewrite andb_true_iff, negb_true_iff, IH. split.
    + intros [H1 H2]. constructor; [|assumption].
      intros Hin. assert (existsb (key_eqb k) r = true) as E.
      { apply existsb_exists. exists k. split; [assumption|].
        now apply key_eqb_eq. }
      congruence.
    + intros H. inversion H as [|? ? Hn Hr]; subst. split; [|assumption].
      destruct (existsb (key_eqb k) r) eqn:E; [|reflexivity].
      apply existsb_exists in E. destruct E as [k' [Hin Hk]].
      apply key_eqb_eq in Hk. subst. contradiction.
Qed.

Variables (A K : Type) (key : A -> K).

(** Rows with pairwise different keys: a row is determined by its key. *)
Lemma NoDup_key_inj (l : list A) (x y : A) :
  NoDup (map key l) -> In x l -> In y l -> key x = key y -> x = y.
Proof.
  induction l as [|z r IH]; simpl; [contradiction|].
  intros Hnd [Hx|Hx] [Hy|Hy] Hk; inversion Hnd as [|? ? Hn Hr]; subst.
  - reflexivity.
  - exfalso. apply Hn. rewrite Hk. now apply in_map.
  - exfalso. apply Hn. rewrite <- Hk. now apply in_map.
  - now apply IH.
Qed.

(** A filter on a key that is unique selects at most the row itself. *)
Lemma filter_unique (p : A -> bool) (l : list A) (x : A) :
  NoDup (map key l) -> In x l -> p x = true ->
  (forall y, In y l -> p y = true -> key y = key x) ->
  filter p l = [x].
Proof.
  induction l as [|z r IH]; simpl; [contradiction|].
  intros Hnd Hin Hp Huniq. inversion Hnd as [|? ? Hn Hr]; subst.
  destruct Hin as [->|Hin].
  - rewrite Hp. f_equal.
    assert (forall y, In y r -> p y = false) as Hnone.
    { intros y Hy. destruct (p y) eqn:E; [|reflexivity].
      exfalso. apply Hn. rewrite <- (Huniq y (or_intror Hy) E).
      now apply in_map. }
    clear -Hnone. induction r as [|w r IH]; simpl; [reflexivity|].
    rewrite (Hnone w (or_introl eq_refl)). apply IH.
    intros y Hy. apply Hnone. now right.
  - destruct (p z) eqn:E.
    + exfalso. apply Hn. rewrite (Huniq z (or_introl eq_refl) E).
      now apply in_map.
    + apply IH; try assumption. intros y Hy. apply Huniq. now right.
Qed.

Lemma filter_nil_iff (p : A -> bool) (l : list A) :
  filter p l = [] <-> forall y, In y l -> p y = false.
Proof.
  induction l as [|z r IH]; simpl.
  - split; [intros _ y [] | reflexivity].
  - destruct (p z) eqn:E; split.
    + discriminate.
    + intros H. specialize (H z (or_introl eq_refl)). congruence.
    + intros H y [->|Hy]; [assumption|]. now apply IH.
    + intros H. apply IH. intros y Hy. apply H. now right.
Qed.

Lemma find_filter_head (p : A -> bool) (l : list A) :
  find p l = hd_error (filter p l).
Proof.
  induction l as [|z r IH]; simpl; [reflexivity|].
  destruct (p z); [reflexivity | assumption].
Qed.

(** Overwriting the row whose key is the key of [x], when keys are
    unique, replaces [x] and nothing else. *)
Lemma replace_split (eqb : K -> K -> bool) (l : list A) (x x' : A) :
  (forall a b, eqb a b = true <-> a = b) ->
  NoDup (map key l) -> In x l ->
  exists l1 l2,
    l = l1 ++ x :: l2 /\
    map (fun r => if eqb (key r) (key x) then x' else r) l = l1 ++ x' :: l2 /\
    (forall y, In y l1 \/ In y l2 -> key y <> key x).
Proof.
  intros Heqb Hnd Hin.
  destruct (in_split _ _ Hin) as [l1 [l2 ->]].
  exists l1, l2.
  assert (forall y, In y l1 \/ In y l2 -> key y <> key x) as Hother.
  { intros y Hy Hk.
    rewrite map_app in Hnd. simpl in Hnd.
    apply NoDup_remove_2 in Hnd. apply Hnd.
    rewrite <- Hk, <- map_app. apply in_map, in_or_app. assumption. }
  split; [reflexivity|]. split; [|assumption].
  assert (forall l0, (forall y, In y l0 -> key y <> key x) ->
                     map (fun r => if eqb (key r) (key x) then x' else r) l0 = l0)
    as Hid.
  { induction l0 as [|w l0 IH]; simpl; intros H; [reflexivity|].
    destruct (eqb (key w) (key x)) eqn:E.
    - apply Heqb in E. exfalso. now apply (H w (or_introl eq_refl)).
    - f_equal. apply IH. intros y Hy. apply H. now right. }
  rewrite map_app. simpl.
  rewrite (Hid l1), (Hid l2); try (intros; apply Hother; tauto).
  assert (eqb (key x) (key x) = true) as -> by now apply Heqb.
  reflexivity.
Qed.

End ListFacts.

(** The boolean check decides the integrity predicate. *)
Lemma well_formed_WF (db : DB) : well_formed db = true <-> WF db.
Proof.
  unfold well_formed. rewrite !andb_true_iff, !distinct_NoDup,
    distinct_keys_NoDup, !forallb_forall.
  split.
  - intros [[[[[[H1 H2] H3] H4] H5] H6] H7]. constructor; try assumption.
    + intros e He. apply Z.leb_le. now apply H4.
    + intros a Ha. apply Z.leb_le. now apply H5.
    + intros a Ha. apply mem_In. now apply H6.
    + intros p Hp. apply mem_In. now apply H7.
  - intros [H1 H2 H3 H4 H5 H6 H7]. repeat split; try assumption.
    + intros e He. apply Z.leb_le. now apply H4.
    + intros a Ha. apply Z.leb_le. now apply H5.
    + intros a Ha. apply mem_In. now apply H6.
    + intros p Hp. apply mem_In. now apply H7.
Qed.

(** ** The approval decision, step by step *)

Lemma event_with_own_status (e : Event.t) : Event.with_status e (Event.status e) = e.
Proof. now destruct e. Qed.

Lemma approver_status_eqb_eq (s t : EventApprover.Status) :
  EventApprover.status_eqb s t = true <-> s = t.
Proof. destruct s, t; simpl; split; congruence. Qed.

Lemma event_status_eqb_eq (s t : Event.Status) :
  Event.status_eqb s t = true <-> s = t.
Proof. destruct s, t; simpl; split; congruence. Qed.

Lemma approver_row_Some (eid user : Z) (db : DB) (a : EventApprover.t) :
  approver_row eid user db = Some a ->
  In a (event_approvers db) /\ EventApprover.event a = eid
  /\ EventApprover.approver a = user.
Proof.
  unfold approver_row. intros H. apply find_some in H. destruct H as [Hin Hp].
  apply andb_true_iff in Hp. destruct Hp as [H1 H2].
  apply Z.eqb_eq in H1. apply Z.eqb_eq in H2. auto.
Qed.

Lemma approver_row_None (eid user : Z) (db : DB) :
  approver_row eid user db = None <->
  forall a, In a (event_approvers db) ->
            ~ (EventApprover.event a = eid /\ EventApprover.approver a = user).
Proof.
  unfold approver_row. split.
  - intros H a Hin [H1 H2].
    pose proof (find_none _ _ H a Hin) as Hf. simpl in Hf.
    rewrite H1, H2, !Z.eqb_refl in Hf. discriminate.
  - intros H.
    destruct (find _ _) eqn:E; [|reflexivity].
    apply find_some in E. destruct E as [Hin Hp].
    apply andb_true_iff in Hp. destruct Hp as [H1 H2].
    apply Z.eqb_eq in H1. apply Z.eqb_eq in H2.
    exfalso. now apply (H t).
Qed.

(** With unique (event, approver) pairs the [get] of [post] finds exactly
    the row [approver_row] names. *)
Lemma get_approver_unique (eid user : Z) (db : DB) (a : EventApprover.t) :
  WF db -> approver_row eid user db = Some a ->
  filter (fun r => (EventApprover.event r =? eid) && (EventApprover.approver r =? user))
         (event_approvers db) = [a].
Proof.
  intros Hwf Hrow. destruct (approver_row_Some _ _ _ _ Hrow) as [Hin [He Hu]].
  apply (filter_unique _ _ approver_key).
  - apply (wf_approver_key _ Hwf).
  - assumption.
  - rewrite He, Hu, !Z.eqb_refl. reflexivity.
  - intros y _ Hy. apply andb_true_iff in Hy. destruct Hy as [H1 H2].
    apply Z.eqb_eq in H1. apply Z.eqb_eq in H2.
    unfold approver_key. congruence.
Qed.

Lemma lookup_event_Some (pk : Z) (db : DB) (e : Event.t) :
  lookup_event pk db = Some e -> In e (events db) /\ Event.id e = pk.
Proof.
  unfold lookup_event. intros H. apply find_some in H.
  destruct H as [Hin Hp]. apply Z.eqb_eq in Hp. auto.
Qed.

Lemma lookup_event_In (db : DB) (e : Event.t) :
  WF db -> In e (events db) -> lookup_event (Event.id e) db = Some e.
Proof.
  intros Hwf Hin. unfold lookup_event.
  rewrite find_filter_head.
  rewrite (filter_unique _ _ Event.id (fun r => Event.id r =? Event.id e)
                         (events db) e); try reflexivity; try assumption.
  - apply (wf_event_pk _ Hwf).
  - apply Z.eqb_refl.
  - intros y _ Hy. now apply Z.eqb_eq in Hy.
Qed.

Lemma get_event_unique (pk : Z) (db : DB) (e : Event.t) :
  WF db -> lookup_event pk db = Some e ->
  filter (fun r => Event.id r =? pk) (events db) = [e].
Proof.
  intros Hwf Hl. destruct (lookup_event_Some _ _ _ Hl) as [Hin Hid].
  apply (filter_unique _ _ Event.id); try assumption.
  - apply (wf_event_pk _ Hwf).
  - now apply Z.eqb_eq.
  - intros y _ Hy. apply Z.eqb_eq in Hy. congruence.
Qed.

(** The foreign key of an approver row leads to an event. *)
Lemma approver_event_exists (db : DB) (a : EventApprover.t) :
  WF db -> In a (event_approvers db) ->
  exists e, lookup_event (EventApprover.event a) db = Some e.
Proof.
  intros Hwf Hin. pose proof (wf_approver_fk _ Hwf a Hin) as Hfk.
  apply in_map_iff in Hfk. destruct Hfk as [e [Hid He]].
  exists e. rewrite <- Hid. now apply lookup_event_In.
Qed.

(** *** The three outcomes of [post] *)

Lemma post_not_an_approver (user now : Z) rd (eid : Z) (db : DB) :
  approver_row eid user db = None ->
  ApproveEventView.post user now rd eid db = (db, inr not_an_approver).
Proof.
  intros H. unfold approver_row in H. rewrite find_filter_head in H.
  unfold ApproveEventView.post, ORM.EventApprover_get.
  destruct (filter _ _) as [|x l]; [reflexivity | discriminate].
Qed.

Lemma post_already_decided (user now : Z) rd (eid : Z) (db : DB) a :
  WF db -> approver_row eid user db = Some a ->
  EventApprover.status a <> EventApprover.PENDING ->
  ApproveEventView.post user now rd eid db = (db, inr already_decided).
Proof.
  intros Hwf Hrow Hst.
  unfold ApproveEventView.post, ORM.EventApprover_get.
  rewrite (get_approver_unique _ _ _ _ Hwf Hrow). simpl.
  destruct (EventApprover.status_eqb _ _) eqn:E; [|reflexivity].
  apply approver_status_eqb_eq in E. contradiction.
Qed.

(** Saving the decided row and recomputing the status. *)
Lemma save_and_answer_recorded (db : DB) (a a' : EventApprover.t) (e : Event.t) :
  WF db -> In a (event_approvers db) ->
  EventApprover.id a' = EventApprover.id a ->
  EventApprover.event a' = EventApprover.event a ->
  lookup_event (EventApprover.event a) db = Some e ->
  ApproveEventView.save_and_answer a' db =
    (after_decision db a' (EventApprover.event a) (Event.status e),
     inr (mkResponse 200 (ApproverStatus (EventApprover.status a')))).
Proof.
  intros Hwf Hin Hdi Hde Hev.
  pose proof (get_event_unique _ _ _ Hwf Hev) as Hget.
  destruct (lookup_event_Some _ _ _ Hev) as [_ Hid].
  set (eid := EventApprover.event a) in *.
  unfold ApproveEventView.save_and_answer, bind, ORM.EventApprover_save,
    ORM.Event_get, ORM.approver_statuses, ApproveEventView.recompute. simpl.
  rewrite Hde, Hget. simpl. rewrite Hid.
  unfold after_decision, new_status, is_approved, is_rejected.
  destruct (forallb _ _) eqn:Eall.
  - unfold ORM.Event_save_status, ret. simpl. rewrite Hid. reflexivity.
  - destruct (existsb _ _) eqn:Eany.
    + unfold ORM.Event_save_status, ret. simpl. rewrite Hid. reflexivity.
    + unfold ret. simpl. f_equal. f_equal.
      (* the event table is written back unchanged *)
      pose proof (wf_event_pk _ Hwf) as Hnd.
      assert (forall r, In r (events db) -> Event.id r = eid -> r = e) as Huniq.
      { intros r Hr Hrid. apply (NoDup_key_inj _ _ Event.id (events db)); try assumption.
        - now apply lookup_event_Some in Hev.
        - congruence. }
      clear -Huniq.
      induction (events db) as [|r l IH]; simpl; [reflexivity|].
      rewrite <- IH by (intros; apply Huniq; [now right | assumption]).
      destruct (Event.id r =? eid) eqn:E; [|reflexivity].
      apply Z.eqb_eq in E. rewrite (Huniq r (or_introl eq_refl) E).
      now rewrite event_with_own_status.
Qed.

Lemma post_recorded (user now : Z) rd (eid : Z) (db : DB) a :
  WF db -> approver_row eid user db = Some a ->
  EventApprover.status a = EventApprover.PENDING ->
  saves rd = true ->
  exists e,
    lookup_event eid db = Some e /\
    ApproveEventView.post user now rd eid db =
      (after_decision db (decided_row a now rd) eid (Event.status e),
       inr (mkResponse 200
              (ApproverStatus (EventApprover.status (decided_row a now rd))))).
Proof.
  intros Hwf Hrow Hst Hsaves.
  destruct (approver_row_Some _ _ _ _ Hrow) as [Hin [He Hu]].
  destruct (approver_event_exists _ _ Hwf Hin) as [e Hev].
  exists e. split; [now rewrite <- He|].
  unfold ApproveEventView.post, ORM.EventApprover_get.
  rewrite (get_approver_unique _ _ _ _ Hwf Hrow).
  cbn [get_unique ret fst snd]. rewrite Hst.
  cbn [EventApprover.status_eqb negb].
  unfold saves in Hsaves. unfold decided_row, reason_text.
  rewrite <- He.
  destruct (ApproveEventView.is_approve (ApproveEventView.decision rd)).
  - now apply save_and_answer_recorded.
  - simpl in Hsaves.
    destruct (ApproveEventView.reason rd) as [[|s]|];
      try discriminate; now apply save_and_answer_recorded.
Qed.

(** A rejection with a [null] reason cannot be saved. *)
Lemma post_not_saved (user now : Z) rd (eid : Z) (db : DB) a :
  WF db -> approver_row eid user db = Some a ->
  EventApprover.status a = EventApprover.PENDING ->
  saves rd = false ->
  ApproveEventView.post user now rd eid db = (db, inl IntegrityError).
Proof.
  intros Hwf Hrow Hst Hsaves.
  unfold ApproveEventView.post, ORM.EventApprover_get.
  rewrite (get_approver_unique _ _ _ _ Hwf Hrow).
  cbn [get_unique ret fst snd]. rewrite Hst.
  cbn [EventApprover.status_eqb negb].
  unfold saves in Hsaves.
  destruct (ApproveEventView.is_approve (ApproveEventView.decision rd));
    [discriminate|].
  simpl in Hsaves.
  destruct (ApproveEventView.reason rd) as [[|s]|]; try discriminate.
  reflexivity.
Qed.

(** *** What a recorded decision changes *)

Lemma decided_row_id a now rd :
  EventApprover.id (decided_row a now rd) = EventApprover.id a.
Proof. unfold decided_row. now destruct (ApproveEventView.is_approve _). Qed.

Lemma decided_row_key a now rd :
  approver_key (decided_row a now rd) = approver_key a.
Proof. unfold decided_row. now destruct (ApproveEventView.is_approve _). Qed.

Lemma decided_row_status a now rd :
  EventApprover.status (decided_row a now rd) =
  if ApproveEventView.is_approve (ApproveEventView.decision rd)
  then EventApprover.APPROVED else EventApprover.REJECTED.
Proof. unfold decided_row. now destruct (ApproveEventView.is_approve _). Qed.

Lemma decided_row_not_pending a now rd :
  EventApprover.status (decided_row a now rd) <> EventApprover.PENDING.
Proof.
  rewrite decided_row_status.
  destruct (ApproveEventView.is_approve _); discriminate.
Qed.

Lemma find_map_stable {A} (p : A -> bool) (g : A -> A) (l : list A) :
  (forall r, p (g r) = p r) -> find p (map g l) = option_map g (find p l).
Proof.
  intros H. induction l as [|r l IH]; simpl; [reflexivity|].
  rewrite H. destruct (p r); [reflexivity | assumption].
Qed.

Lemma map_id_stable {A} (g : A -> A) (f : A -> Z) (l : list A) :
  (forall r, f (g r) = f r) -> map f (map g l) = map f l.
Proof.
  intros H. rewrite map_map. apply map_ext. assumption.
Qed.

Section AfterDecision.

Variables (db : DB) (a a' : EventApprover.t) (eid : Z) (old : Event.Status).
Hypothesis Hwf : WF db.
Hypothesis Hin : In a (event_approvers db).
Hypothesis Hid : EventApprover.id a' = EventApprover.id a.
Hypothesis Hkey : approver_key a' = approver_key a.

Let db' := after_decision db a' eid old.

(** The approver table differs in the decided row only. *)
Lemma after_decision_approvers :
  exists l1 l2,
    event_approvers db = l1 ++ a :: l2 /\
    event_approvers db' = l1 ++ a' :: l2 /\
    (forall y, In y l1 \/ In y l2 -> EventApprover.id y <> EventApprover.id a).
Proof.
  destruct (replace_split _ _ EventApprover.id Z.eqb (event_approvers db) a a'
              Z.eqb_eq (wf_approver_pk _ Hwf) Hin) as [l1 [l2 [H1 [H2 H3]]]].
  exists l1, l2. split; [assumption|]. split; [|assumption].
  unfold db', after_decision. simpl. rewrite Hid. assumption.
Qed.

Lemma after_decision_event_ids :
  map Event.id (events db') = map Event.id (events db).
Proof.
  unfold db', after_decision. simpl. apply map_id_stable.
  intros r. now destruct (Event.id r =? eid).
Qed.

Lemma after_decision_lookup (pk : Z) :
  lookup_event pk db' =
  option_map
    (fun r => if Event.id r =? eid
              then Event.with_status r
                     (new_status (map EventApprover.status (approvers_of eid db')) old)
              else r)
    (lookup_event pk db).
Proof.
  unfold lookup_event, db', after_decision, approvers_of. simpl.
  apply find_map_stable. intros r. now destruct (Event.id r =? eid).
Qed.

Lemma after_decision_status_same (e : Event.t) :
  lookup_event eid db = Some e ->
  status_of eid db' =
  Some (new_status (map EventApprover.status (approvers_of eid db')) old).
Proof.
  intros He. unfold status_of. rewrite after_decision_lookup, He. simpl.
  destruct (lookup_event_Some _ _ _ He) as [_ ->]. now rewrite Z.eqb_refl.
Qed.

Lemma after_decision_status_other (pk : Z) :
  pk <> eid -> status_of pk db' = status_of pk db.
Proof.
  intros Hne. unfold status_of. rewrite after_decision_lookup.
  destruct (lookup_event pk db) as [e|] eqn:He; [|reflexivity]. simpl.
  destruct (lookup_event_Some _ _ _ He) as [_ ->].
  apply Z.eqb_neq in Hne. now rewrite Hne.
Qed.

Lemma after_decision_WF : WF db'.
Proof.
  destruct after_decision_approvers as [l1 [l2 [E1 [E2 Hother]]]].
  assert (forall x, In x (event_approvers db') ->
                    exists y, In y (event_approvers db) /\
                              EventApprover.id x = EventApprover.id y /\
                              approver_key x = approver_key y) as Hrows.
  { intros x Hx. rewrite E2 in Hx. rewrite E1.
    apply in_app_or in Hx. destruct Hx as [Hx|[<-|Hx]].
    - exists x. split; [apply in_or_app; now left | auto].
    - exists a. split; [apply in_or_app; right; now left | auto].
    - exists x. split; [apply in_or_app; right; now right | auto]. }
  constructor.
  - rewrite after_decision_event_ids. apply (wf_event_pk _ Hwf).
  - rewrite E2, map_app. simpl. rewrite Hid.
    change (EventApprover.id a :: map EventApprover.id l2)
      with (map EventApprover.id (a :: l2)).
    rewrite <- map_app, <- E1. apply (wf_approver_pk _ Hwf).
  - rewrite E2, map_app. simpl. rewrite Hkey.
    change (approver_key a :: map approver_key l2)
      with (map approver_key (a :: l2)).
    rewrite <- map_app, <- E1. apply (wf_approver_key _ Hwf).
  - intros e He. unfold db', after_decision in He. simpl in He.
    apply in_map_iff in He. destruct He as [r [<- Hr]].
    pose proof (wf_event_seq _ Hwf r Hr). now destruct (Event.id r =? eid).
  - intros x Hx. destruct (Hrows x Hx) as [y [Hy [-> _]]].
    apply (wf_approver_seq _ Hwf y Hy).
  - intros x Hx. rewrite after_decision_event_ids.
    destruct (Hrows x Hx) as [y [Hy [_ Hk]]].
    unfold approver_key in Hk. inversion Hk as [[Hk1 Hk2]]. rewrite Hk1.
    apply (wf_approver_fk _ Hwf y Hy).
  - intros p Hp. rewrite after_decision_event_ids.
    apply (wf_participant_fk _ Hwf p Hp).
Qed.

(** Rows of another event are untouched. *)
Lemma after_decision_approvers_other (pk : Z) :
  pk <> EventApprover.event a -> approvers_of pk db' = approvers_of pk db.
Proof.
  intros Hne. destruct after_decision_approvers as [l1 [l2 [E1 [E2 _]]]].
  unfold approvers_of. rewrite E1, E2, !filter_app. simpl.
  assert (EventApprover.event a' = EventApprover.event a) as ->.
  { unfold approver_key in Hkey. now inversion Hkey. }
  apply not_eq_sym in Hne. apply Z.eqb_neq in Hne. now rewrite Hne.
Qed.

End AfterDecision.

(** The outcomes of [post] on a consistent database. *)
Lemma post_cases (user now : Z) rd (eid : Z) (db : DB) :
  WF db ->
  (approver_row eid user db = None /\
   ApproveEventView.post user now rd eid db = (db, inr not_an_approver))
  \/ (exists a, approver_row eid user db = Some a /\
                EventApprover.status a <> EventApprover.PENDING /\
                ApproveEventView.post user now rd eid db = (db, inr already_decided))
  \/ (exists a, approver_row eid user db = Some a /\
                EventApprover.status a = EventApprover.PENDING /\
                saves rd = false /\
                ApproveEventView.post user now rd eid db = (db, inl IntegrityError))
  \/ (exists a e, approver_row eid user db = Some a /\
                  EventApprover.status a = EventApprover.PENDING /\
                  lookup_event eid db = Some e /\
                  ApproveEventView.post user now rd eid db =
                    (after_decision db (decided_row a now rd) eid (Event.status e),
                     inr (mkResponse 200
                            (ApproverStatus
                               (EventApprover.status (decided_row a now rd)))))).
Proof.
  intros Hwf. destruct (approver_row eid user db) as [a|] eqn:Hrow.
  - destruct (EventApprover.status a) eqn:Hst.
    + right. right. destruct (saves rd) eqn:Hsaves.
      * right.
        destruct (post_recorded user now rd eid db a Hwf Hrow Hst Hsaves)
          as [e [He Hp]].
        exists a, e. auto.
      * left. exists a. split; [reflexivity|]. split; [exact Hst|].
        split; [reflexivity|]. now apply (post_not_saved _ _ _ _ _ a).
    + right. left. exists a. split; [reflexivity|]. split; [congruence|].
      apply (post_already_decided _ _ _ _ _ a); congruence.
    + right. left. exists a. split; [reflexivity|]. split; [congruence|].
      apply (post_already_decided _ _ _ _ _ a); congruence.
    + right. left. exists a. split; [reflexivity|]. split; [congruence|].
      apply (post_already_decided _ _ _ _ _ a); congruence.
  - left. split; [reflexivity|]. now apply post_not_an_approver.
Qed.

(** The two orders of the tests give the same status on every list. *)
Lemma new_status_spec_status (sts : list EventApprover.Status) (old : Event.Status) :
  new_status sts old = spec_status sts old.
Proof.
  unfold new_status, spec_status.
  destruct (forallb is_approved sts) eqn:Eall;
    destruct (existsb is_rejected sts) eqn:Eany; try reflexivity.
  exfalso. apply existsb_exists in Eany. destruct Eany as [s [Hin Hs]].
  rewrite forallb_forall in Eall. specialize (Eall s Hin).
  destruct s; discriminate.
Qed.

Lemma new_status_rejected sts old :
  In EventApprover.REJECTED sts -> new_status sts old = Event.CANCELLED.
Proof.
  intros Hin. rewrite new_status_spec_status. unfold spec_status.
  assert (existsb is_rejected sts = true) as ->; [|reflexivity].
  apply existsb_exists. exists EventApprover.REJECTED. now split.
Qed.

Lemma new_status_all_approved sts old :
  (forall s, In s sts -> s = EventApprover.APPROVED) ->
  new_status sts old = Event.CONFIRMED.
Proof.
  intros H. unfold new_status.
  assert (forallb is_approved sts = true) as ->; [|reflexivity].
  apply forallb_forall. intros s Hs. now rewrite (H s Hs).
Qed.

Lemma approvers_of_In (pk : Z) (db : DB) (a : EventApprover.t) :
  In a (approvers_of pk db) <->
  In a (event_approvers db) /\ EventApprover.event a = pk.
Proof.
  unfold approvers_of. rewrite filter_In, Z.eqb_eq. reflexivity.
Qed.

(** With unique keys, a row of the table is the one [approver_row] finds. *)
Lemma approver_row_In (db : DB) (a : EventApprover.t) :
  WF db -> In a (event_approvers db) ->
  approver_row (EventApprover.event a) (EventApprover.approver a) db = Some a.
Proof.
  intros Hwf Hin. unfold approver_row. rewrite find_filter_head.
  rewrite (filter_unique _ _ approver_key _ _ a); try reflexivity; try assumption.
  - apply (wf_approver_key _ Hwf).
  - now rewrite !Z.eqb_refl.
  - intros y _ Hy. apply andb_true_iff in Hy. destruct Hy as [H1 H2].
    apply Z.eqb_eq in H1. apply Z.eqb_eq in H2. unfold approver_key. congruence.
Qed.

Lemma status_of_lookup (pk : Z) (db : DB) (e : Event.t) :
  lookup_event pk db = Some e -> status_of pk db = Some (Event.status e).
Proof. unfold status_of. now intros ->. Qed.

(** *** Decisions keep the tables consistent *)

Lemma post_WF (user now : Z) rd (eid : Z) (db : DB) :
  WF db -> WF (fst (ApproveEventView.post user now rd eid db)).
Proof.
  intros Hwf.
  destruct (post_cases user now rd eid db Hwf)
    as [[_ ->]|[[a [_ [_ ->]]]|[[a [_ [_ [_ ->]]]]|[a [e [Hrow [_ [_ ->]]]]]]]]; simpl; try assumption.
  destruct (approver_row_Some _ _ _ _ Hrow) as [Hin _].
  apply (after_decision_WF db a); try assumption.
  - apply decided_row_id.
  - apply decided_row_key.
Qed.

(** *** A rejection stays *)

Lemma rejection_absorbing_step (user now : Z) rd (eid eid2 : Z) (db : DB) :
  WF db -> has_rejection eid db -> status_of eid db = Some Event.CANCELLED ->
  let db' := fst (ApproveEventView.post user now rd eid2 db) in
  has_rejection eid db' /\ status_of eid db' = Some Event.CANCELLED.
Proof.
  intros Hwf [r [Hr Hrej]] Hst.
  destruct (post_cases user now rd eid2 db Hwf)
    as [[_ ->]|[[a [_ [_ ->]]]|[[a [_ [_ [_ ->]]]]|[a [e [Hrow [Hpend [Hev ->]]]]]]]]; simpl;
    try (split; [exists r; auto | assumption]).
  destruct (approver_row_Some _ _ _ _ Hrow) as [Hin [Hae _]].
  set (a' := decided_row a now rd).
  destruct (after_decision_approvers db a a' eid2 (Event.status e) Hwf Hin
              (decided_row_id a now rd)) as [l1 [l2 [E1 [E2 _]]]].
  apply approvers_of_In in Hr. destruct Hr as [Hr Hre].
  assert (In r (approvers_of eid (after_decision db a' eid2 (Event.status e))))
    as Hr'.
  { apply approvers_of_In. split; [|assumption].
    rewrite E2. rewrite E1 in Hr.
    apply in_app_or in Hr. apply in_or_app.
    destruct Hr as [Hr|[Hr|Hr]]; [now left | | right; now right].
    subst r. congruence. }
  split; [exists r; auto|].
  destruct (Z.eq_dec eid eid2) as [<-|Hne].
  - rewrite (after_decision_status_same db a' eid (Event.status e) e Hev).
    f_equal. apply new_status_rejected.
    rewrite <- Hrej. now apply in_map.
  - rewrite after_decision_status_other; assumption.
Qed.

Lemma rejection_absorbing_run (eid : Z) ds (db : DB) :
  WF db -> has_rejection eid db -> status_of eid db = Some Event.CANCELLED ->
  status_of eid (run (map decision_request ds) db) = Some Event.CANCELLED.
Proof.
  revert db. induction ds as [|[[[user now] rd] eid2] ds IH]; intros db Hwf Hrej Hst.
  - assumption.
  - simpl. destruct (rejection_absorbing_step user now rd eid eid2 db Hwf Hrej Hst)
      as [Hrej' Hst'].
    apply IH; try assumption. now apply post_WF.
Qed.

(** *** All approvers approve, in any order *)

Lemma pending_users_In (eid : Z) (db : DB) (u : Z) :
  In u (pending_users eid db) ->
  exists a, In a (event_approvers db) /\ EventApprover.event a = eid /\
            EventApprover.approver a = u /\
            EventApprover.status a = EventApprover.PENDING.
Proof.
  unfold pending_users. intros H. apply in_map_iff in H.
  destruct H as [a [Hu Ha]]. apply filter_In in Ha. destruct Ha as [Ha Hp].
  apply approvers_of_In in Ha. destruct Ha as [Hin He].
  apply approver_status_eqb_eq in Hp. exists a. auto.
Qed.

Lemma pending_users_nil (eid : Z) (db : DB) a :
  pending_users eid db = [] ->
  In a (approvers_of eid db) ->
  EventApprover.status a <> EventApprover.PENDING.
Proof.
  unfold pending_users. intros H Hin Hst.
  apply map_eq_nil in H.
  pose proof (proj1 (filter_nil_iff _ _ _) H a Hin) as Hf.
  cbv beta in Hf. rewrite Hst in Hf. discriminate.
Qed.

Lemma approvals_confirm (eid : Z)
      (ds : list (Z * Z * option ApproveEventView.json_text)) :
  forall db,
    WF db -> undecided_or_approved eid db ->
    Permutation (map (fun d => fst (fst d)) ds) (pending_users eid db) ->
    let db' := run (map (approval eid) ds) db in
    (forall a, In a (approvers_of eid db') ->
               EventApprover.status a = EventApprover.APPROVED)
    /\ (ds <> [] -> status_of eid db' = Some Event.CONFIRMED).
Proof.
  induction ds as [|[[user now] reason] ds IH]; intros db Hwf Hall Hperm; simpl in *.
  - apply Permutation_nil in Hperm. split; [|congruence].
    intros a Ha. destruct (Hall a Ha) as [Hp|Hp]; [|assumption].
    exfalso. now apply (pending_users_nil eid db a).
  - set (rd := ApproveEventView.mk_request (Some "approve"%string) reason).
    assert (In user (pending_users eid db)) as Hu.
    { apply (Permutation_in _ Hperm). now left. }
    destruct (pending_users_In _ _ _ Hu) as [a [Hin [Hae [Hau Hpend]]]].
    pose proof (approver_row_In db a Hwf Hin) as Hrow. rewrite Hae, Hau in Hrow.
    destruct (post_recorded user now rd eid db a Hwf Hrow Hpend eq_refl)
      as [e [Hev Hpost]].
    rewrite Hpost. simpl.
    pose proof (decided_row_id a now rd) as Hid'.
    pose proof (decided_row_key a now rd) as Hk.
    assert (EventApprover.status (decided_row a now rd) = EventApprover.APPROVED)
      as Hst' by (rewrite decided_row_status; reflexivity).
    clear Hpost. revert Hid' Hk Hst'.
    generalize (decided_row a now rd). intros a' Hid' Hk Hst'.
    remember (after_decision db a' eid (Event.status e)) as db1 eqn:Edb1.
    assert (EventApprover.event a' = eid /\ EventApprover.approver a' = user)
      as [Hae' Hau'].
    { unfold approver_key in Hk. inversion Hk. split; congruence. }
    destruct (after_decision_approvers db a a' eid (Event.status e) Hwf Hin Hid')
      as [l1 [l2 [E1 [E2 _]]]].
    rewrite <- Edb1 in E2.
    assert (WF db1) as Hwf1.
    { subst db1. apply (after_decision_WF db a); assumption. }
    assert (undecided_or_approved eid db1) as Hall1.
    { intros x Hx. apply approvers_of_In in Hx. destruct Hx as [Hx Hxe].
      rewrite E2 in Hx. apply in_app_or in Hx.
      destruct Hx as [Hx|[Hx|Hx]].
      - apply Hall, approvers_of_In. split; [|assumption].
        rewrite E1. apply in_or_app. now left.
      - subst x. now right.
      - apply Hall, approvers_of_In. split; [|assumption].
        rewrite E1. apply in_or_app. right. now right. }
    assert (Permutation (map (fun d => fst (fst d)) ds) (pending_users eid db1))
      as Hperm1.
    { unfold pending_users, approvers_of in *. rewrite E1 in Hperm. rewrite E2.
      rewrite !filter_app, !map_app in *. simpl in *.
      rewrite Hae, Z.eqb_refl in Hperm. simpl in Hperm.
      rewrite Hpend in Hperm. simpl in Hperm. rewrite Hau in Hperm.
      rewrite Hae', Z.eqb_refl. simpl. rewrite Hst'. simpl.
      eapply Permutation_cons_app_inv. exact Hperm. }
    destruct (IH db1 Hwf1 Hall1 Hperm1) as [Hfin Hconf].
    split; [assumption|]. intros _.
    destruct ds as [|d ds']; [|apply Hconf; discriminate].
    simpl in *. apply Permutation_nil in Hperm1.
    rewrite Edb1 at 1.
    rewrite (after_decision_status_same db a' eid (Event.status e) e Hev).
    rewrite <- Edb1.
    f_equal. apply new_status_all_approved.
    intros s Hs. apply in_map_iff in Hs. destruct Hs as [x [<- Hx]].
    apply Hfin. assumption.
Qed.

(* ================================================================== *)
(** ** The claims *)

(** C1.  On a consistent database, a decision that [post] records
    recomputes the status of the event from its approver rows, which are
    not empty: CANCELLED if some row is REJECTED, else CONFIRMED if all
    rows are APPROVED, else the status it had.  After a recorded
    rejection no later decision, by anyone on any event, makes the status
    anything but CANCELLED.  If all rows of the event are PENDING and the
    approvers approve, one request each in any order, the status ends as
    CONFIRMED. *)
Theorem C1_status_recomputed_from_approver_rows
        (db : DB) (eid : Z) (Hwf : well_formed db = true) :
  (forall user now rd db' s,
      ApproveEventView.post user now rd eid db
      = (db', inr (mkResponse 200 (ApproverStatus s))) ->
      let rows := map EventApprover.status (approvers_of eid db') in
      rows <> [] /\
      status_of eid db' =
      if existsb is_rejected rows then Some Event.CANCELLED
      else if forallb is_approved rows then Some Event.CONFIRMED
      else status_of eid db)
  /\
  (forall user now rd db' ds,
      ApproveEventView.post user now rd eid db
      = (db', inr (mkResponse 200 (ApproverStatus EventApprover.REJECTED))) ->
      status_of eid (run (map decision_request ds) db') = Some Event.CANCELLED)
  /\
  (forall ds : list (Z * Z * option ApproveEventView.json_text),
      approvers_of eid db <> [] ->
      forallb (fun a => is_pending (EventApprover.status a)) (approvers_of eid db)
      = true ->
      Permutation (map (fun d => fst (fst d)) ds)
                  (map EventApprover.approver (approvers_of eid db)) ->
      status_of eid (run (map (approval eid) ds) db) = Some Event.CONFIRMED).
Proof.
  apply well_formed_WF in Hwf.
  assert (forall user now rd db' s,
             ApproveEventView.post user now rd eid db
             = (db', inr (mkResponse 200 (ApproverStatus s))) ->
             exists a e,
               approver_row eid user db = Some a /\
               lookup_event eid db = Some e /\
               s = EventApprover.status (decided_row a now rd) /\
               db' = after_decision db (decided_row a now rd) eid (Event.status e))
    as Hrec.
  { intros user now rd db' s Hpost.
    destruct (post_cases user now rd eid db Hwf)
      as [[_ E]|[[a [_ [_ E]]]|[[a [_ [_ [_ E]]]]|[a [e [Hrow [_ [Hev E]]]]]]]];
      rewrite E in Hpost; try discriminate.
    inversion Hpost. exists a, e. auto. }
  split; [|split].
  - intros user now rd db' s Hpost rows.
    destruct (Hrec _ _ _ _ _ Hpost) as [a [e [Hrow [Hev [_ ->]]]]].
    destruct (approver_row_Some _ _ _ _ Hrow) as [Hin [Hae _]].
    destruct (after_decision_approvers db a (decided_row a now rd) eid
                (Event.status e) Hwf Hin (decided_row_id a now rd))
      as [l1 [l2 [_ [E2 _]]]].
    split.
    + intros Hnil. apply map_eq_nil in Hnil.
      assert (In (decided_row a now rd)
                 (approvers_of eid
                    (after_decision db (decided_row a now rd) eid (Event.status e))))
        as Hmem.
      { apply approvers_of_In. split.
        - rewrite E2. apply in_or_app. right. now left.
        - pose proof (decided_row_key a now rd) as Hk.
          unfold approver_key in Hk. inversion Hk. congruence. }
      rewrite Hnil in Hmem. contradiction.
    + rewrite (after_decision_status_same db _ eid (Event.status e) e Hev).
      fold rows. rewrite new_status_spec_status. unfold spec_status.
      rewrite (status_of_lookup _ _ _ Hev).
      destruct (existsb is_rejected rows); [reflexivity|].
      destruct (forallb is_approved rows); reflexivity.
  - intros user now rd db' ds Hpost.
    destruct (Hrec _ _ _ _ _ Hpost) as [a [e [Hrow [Hev [Hs ->]]]]].
    destruct (approver_row_Some _ _ _ _ Hrow) as [Hin [Hae _]].
    destruct (after_decision_approvers db a (decided_row a now rd) eid
                (Event.status e) Hwf Hin (decided_row_id a now rd))
      as [l1 [l2 [_ [E2 _]]]].
    assert (has_rejection eid
              (after_decision db (decided_row a now rd) eid (Event.status e)))
      as Hrej.
    { exists (decided_row a now rd). split; [|now symmetry].
      apply approvers_of_In. split.
      - rewrite E2. apply in_or_app. right. now left.
      - pose proof (decided_row_key a now rd) as Hk.
        unfold approver_key in Hk. inversion Hk. congruence. }
    apply rejection_absorbing_run.
    + apply (after_decision_WF db a); try assumption.
      * apply decided_row_id.
      * apply decided_row_key.
    + assumption.
    + rewrite (after_decision_status_same db _ eid (Event.status e) e Hev).
      f_equal. apply new_status_rejected.
      destruct Hrej as [r [Hr Hrs]]. rewrite <- Hrs. now apply in_map.
  - intros ds Hne Hpend Hperm.
    rewrite forallb_forall in Hpend.
    assert (pending_users eid db = map EventApprover.approver (approvers_of eid db))
      as Hpu.
    { unfold pending_users. f_equal.
      apply forallb_filter_id. now apply forallb_forall. }
    apply (approvals_confirm eid ds db Hwf).
    + intros a Ha. left. apply approver_status_eqb_eq. now apply Hpend.
    + now rewrite Hpu.
    + intros ->. apply Permutation_nil in Hperm. apply map_eq_nil in Hperm.
      contradiction.
Qed.

(** C4.  On a consistent database [post] answers "not an approver"
    exactly when no approver row has this event and this user, and
    "already responded" exactly when the row that has them is not
    PENDING; in both cases the database is left as it was.  After a
    recorded decision every further decision of the same user on the same
    event answers "already responded" and changes nothing. *)
Theorem C4_decide_rejects_strangers_and_repeats
        (db : DB) (user now eid : Z) (rd : ApproveEventView.request_data)
        (Hwf : well_formed db = true) :
  let r := ApproveEventView.post user now rd eid db in
  (snd r = inr not_an_approver <->
   forall a, In a (event_approvers db) ->
             ~ (EventApprover.event a = eid /\ EventApprover.approver a = user))
  /\ (snd r = inr already_decided <->
      exists a, In a (event_approvers db) /\
                EventApprover.event a = eid /\ EventApprover.approver a = user /\
                EventApprover.status a <> EventApprover.PENDING)
  /\ (snd r = inr not_an_approver \/ snd r = inr already_decided -> fst r = db)
  /\ (forall s, snd r = inr (mkResponse 200 (ApproverStatus s)) ->
      forall now2 rd2,
        ApproveEventView.post user now2 rd2 eid (fst r)
        = (fst r, inr already_decided)).
Proof.
  apply well_formed_WF in Hwf. intros r. subst r.
  destruct (post_cases user now rd eid db Hwf)
    as [[Hrow ->]|[[a [Hrow [Hst ->]]]|[[a [Hrow [Hpend [_ ->]]]]
                                       |[a [e [Hrow [Hpend [Hev ->]]]]]]]]; simpl.
  - pose proof (proj1 (approver_row_None _ _ _) Hrow) as Hnone.
    split; [|split; [|split]].
    + split; intros _; [assumption | reflexivity].
    + split; [discriminate|].
      intros [a [Hin [He [Hu _]]]]. exfalso. now apply (Hnone a).
    + reflexivity.
    + intros s Hs. discriminate.
  - destruct (approver_row_Some _ _ _ _ Hrow) as [Hin [He Hu]].
    split; [|split; [|split]].
    + split; [discriminate|]. intros Hnone. exfalso. now apply (Hnone a).
    + split; [|reflexivity]. intros _. exists a. auto.
    + reflexivity.
    + intros s Hs. discriminate.
  - destruct (approver_row_Some _ _ _ _ Hrow) as [Hin [He Hu]].
    split; [|split; [|split]].
    + split; [discriminate|]. intros Hnone. exfalso. now apply (Hnone a).
    + split; [discriminate|].
      intros [a0 [Hin0 [He0 [Hu0 Hst0]]]]. exfalso. apply Hst0.
      assert (a0 = a) as ->; [|assumption].
      apply (NoDup_key_inj _ _ approver_key (event_approvers db)); try assumption.
      * apply (wf_approver_key _ Hwf).
      * unfold approver_key. congruence.
    + reflexivity.
    + intros s Hs. discriminate.
  - destruct (approver_row_Some _ _ _ _ Hrow) as [Hin [He Hu]].
    set (a' := decided_row a now rd).
    split; [|split; [|split]].
    + split; [discriminate|]. intros Hnone. exfalso. now apply (Hnone a).
    + split; [discriminate|].
      intros [a0 [Hin0 [He0 [Hu0 Hst0]]]]. exfalso. apply Hst0.
      assert (a0 = a) as ->; [|assumption].
      apply (NoDup_key_inj _ _ approver_key (event_approvers db)); try assumption.
      * apply (wf_approver_key _ Hwf).
      * unfold approver_key. congruence.
    + intros [H|H]; discriminate.
    + intros s _ now2 rd2.
      pose proof (after_decision_WF db a a' eid (Event.status e) Hwf Hin
                    (decided_row_id a now rd) (decided_row_key a now rd)) as Hwf'.
      destruct (after_decision_approvers db a a' eid (Event.status e) Hwf Hin
                  (decided_row_id a now rd)) as [l1 [l2 [_ [E2 _]]]].
      apply (post_already_decided _ _ _ _ _ a'); try assumption.
      * pose proof (decided_row_key a now rd) as Hk. fold a' in Hk.
        unfold approver_key in Hk. inversion Hk as [[Hk1 Hk2]].
        rewrite <- He at 1. rewrite <- Hu. rewrite <- Hk1, <- Hk2.
        apply approver_row_In; [assumption|].
        rewrite E2. apply in_or_app. right. now left.
      * apply decided_row_not_pending.
Qed.

Lemma is_approve_false (d : option string) :
  d <> Some "approve"%string -> ApproveEventView.is_approve d = false.
Proof.
  intros H. destruct d as [s|]; simpl; [|reflexivity].
  destruct (String.eqb s "approve") eqn:E; [|reflexivity].
  apply String.eqb_eq in E. subst. contradiction.
Qed.

(** C10, as the code has it.  On a consistent database, when the caller
    has a PENDING approver row for the event, the decision is anything
    but the string approve (another string, or no decision at all) and
    the reason of the body is not [null] (a text, or no reason at all),
    [post] answers 200 with REJECTED, the row is stored as REJECTED with
    the decision time and the reason of the request (the empty string
    when the body has none), and the event becomes CANCELLED. *)
Theorem C10_anything_but_approve_rejects
        (db : DB) (user now eid : Z) (rd : ApproveEventView.request_data)
        (a : EventApprover.t)
        (Hwf : well_formed db = true)
        (Hrow : approver_row eid user db = Some a)
        (Hpend : EventApprover.status a = EventApprover.PENDING)
        (Hdec : ApproveEventView.decision rd <> Some "approve"%string)
        (Hreason : ApproveEventView.reason rd <> Some ApproveEventView.JNull) :
  let r := ApproveEventView.post user now rd eid db in
  snd r = inr (mkResponse 200 (ApproverStatus EventApprover.REJECTED))
  /\ approver_row eid user (fst r)
     = Some (EventApprover.mk (EventApprover.id a) eid user EventApprover.REJECTED
               (Some now)
               (match ApproveEventView.reason rd with
                | Some (ApproveEventView.JText s) => s
                | Some ApproveEventView.JNull => EmptyString
                | None => EmptyString
                end))
  /\ status_of eid (fst r) = Some Event.CANCELLED.
Proof.
  apply well_formed_WF in Hwf. intros r. subst r.
  assert (saves rd = true) as Hsaves.
  { unfold saves. apply orb_true_iff. right.
    destruct (ApproveEventView.reason rd) as [[|s]|]; congruence. }
  destruct (post_recorded user now rd eid db a Hwf Hrow Hpend Hsaves)
    as [e [Hev ->]].
  destruct (approver_row_Some _ _ _ _ Hrow) as [Hin [He Hu]].
  assert (decided_row a now rd
          = EventApprover.mk (EventApprover.id a) eid user EventApprover.REJECTED
              (Some now)
              (match ApproveEventView.reason rd with
               | Some (ApproveEventView.JText s) => s
               | Some ApproveEventView.JNull => EmptyString
               | None => EmptyString
               end)) as Hrowval.
  { unfold decided_row, reason_text. rewrite (is_approve_false _ Hdec).
    unfold EventApprover.with_rejection_reason, EventApprover.with_status,
      EventApprover.with_decision_time. simpl. subst eid user.
    destruct (ApproveEventView.reason rd) as [[|s]|]; reflexivity. }
  simpl.
  pose proof (after_decision_WF db a _ eid (Event.status e) Hwf Hin
                (decided_row_id a now rd) (decided_row_key a now rd)) as Hwf'.
  destruct (after_decision_approvers db a _ eid (Event.status e) Hwf Hin
              (decided_row_id a now rd)) as [l1 [l2 [_ [E2 _]]]].
  assert (In (decided_row a now rd)
             (event_approvers
                (after_decision db (decided_row a now rd) eid (Event.status e))))
    as Hin'.
  { rewrite E2. apply in_or_app. right. now left. }
  split; [|split].
  - now rewrite Hrowval.
  - pose proof (approver_row_In _ _ Hwf' Hin') as Hfind.
    assert (EventApprover.event (decided_row a now rd) = eid) as E1
        by now rewrite Hrowval.
    assert (EventApprover.approver (decided_row a now rd) = user) as E3
        by now rewrite Hrowval.
    rewrite E1, E3 in Hfind. rewrite Hfind. f_equal. exact Hrowval.
  - rewrite (after_decision_status_same db _ eid (Event.status e) e Hev).
    f_equal. apply new_status_rejected.
    apply in_map_iff. exists (decided_row a now rd). split.
    + now rewrite Hrowval.
    + apply approvers_of_In. split; [assumption|]. now rewrite Hrowval.
Qed.

Lemma emitted_nothing (db db' : DB) :
  notifications db' = notifications db -> emitted db db' = [].
Proof.
  intros E. unfold emitted. rewrite E. apply filter_nil_iff.
  intros n Hn. apply negb_false_iff, mem_In. now apply in_map.
Qed.

(** [post] does not write to the notification table, whatever the
    tables hold. *)
Lemma post_notifications (user now : Z) rd (eid : Z) (db : DB) :
  notifications (fst (ApproveEventView.post user now rd eid db)) = notifications db.
Proof.
  unfold ApproveEventView.post, ORM.EventApprover_get, get_unique, raise, ret.
  destruct (filter _ (event_approvers db)) as [|a [|b l]]; try reflexivity.
  destruct (negb _); [reflexivity|].
  assert (forall a', notifications (fst (ApproveEventView.save_and_answer a' db))
                     = notifications db) as Hsave.
  { intros a'.
    unfold ApproveEventView.save_and_answer, bind, ORM.EventApprover_save,
      ORM.Event_get, get_unique, raise, ret, ORM.approver_statuses,
      ApproveEventView.recompute, ORM.Event_save_status.
    cbn [events notifications fst].
    destruct (filter _ (events db)) as [|e [|e2 l]]; try reflexivity.
    cbn [event_approvers].
    destruct (forallb _ _); [reflexivity|].
    destruct (existsb _ _); reflexivity. }
  destruct (ApproveEventView.is_approve _); [apply Hsave|].
  destruct (ApproveEventView.reason rd) as [[|s]|];
    [reflexivity | apply Hsave | apply Hsave].
Qed.

(** C8, as the code has it.  A decision emits no notification: the
    notification table after [post] is the table before it, whether the
    status of the event changes or not. *)
Theorem C8_decide_emits_no_notification
        (db : DB) (user now eid : Z) (rd : ApproveEventView.request_data) :
  let db' := fst (ApproveEventView.post user now rd eid db) in
  notifications db' = notifications db /\ emitted db db' = [].
Proof.
  intros db'. pose proof (post_notifications user now rd eid db) as E.
  split; [exact E | now apply emitted_nothing].
Qed.

(** *** Deletion *)

Lemma filter_negb_eq_none {A} (f : A -> Z) (pk : Z) (l : list A) :
  filter (fun r => f r =? pk) (filter (fun r => negb (f r =? pk)) l) = [].
Proof.
  apply filter_nil_iff. intros y Hy. apply filter_In in Hy.
  destruct Hy as [_ Hy]. now apply negb_true_iff in Hy.
Qed.

(** C7.  On a consistent database that holds the event, [delete]
    answers 204; a CONFIRMED event keeps its row, now CANCELLED, and all
    participant and approver rows stay; an event of any other status
    loses its row and every participant and approver row that points to
    it. *)
Theorem C7_delete_soft_when_confirmed
        (db : DB) (pk : Z) (e : Event.t)
        (Hwf : well_formed db = true)
        (Hev : lookup_event pk db = Some e) :
  let r := EventDetailView.delete pk db in
  snd r = inr (mkResponse 204 NoContent)
  /\ (Event.status e = Event.CONFIRMED ->
      lookup_event pk (fst r) = Some (Event.with_status e Event.CANCELLED)
      /\ event_participants (fst r) = event_participants db
      /\ event_approvers (fst r) = event_approvers db)
  /\ (Event.status e <> Event.CONFIRMED ->
      lookup_event pk (fst r) = None
      /\ ~ In pk (map Event.id (events (fst r)))
      /\ participants_of pk (fst r) = []
      /\ approvers_of pk (fst r) = []).
Proof.
  apply well_formed_WF in Hwf. intros r. subst r.
  pose proof (get_event_unique _ _ _ Hwf Hev) as Hget.
  destruct (lookup_event_Some _ _ _ Hev) as [Hin Hid].
  unfold EventDetailView.delete, bind, EventDetailView.get_object, ORM.Event_get.
  rewrite Hget. simpl.
  destruct (Event.status_eqb (Event.status e) Event.CONFIRMED) eqn:Est.
  - apply event_status_eqb_eq in Est. simpl.
    split; [reflexivity|]. split; [|congruence].
    intros _. split; [|split; reflexivity].
    unfold lookup_event. simpl.
    rewrite find_map_stable by (intros x; now destruct (Event.id x =? Event.id e)).
    rewrite Hid. fold (lookup_event pk db). rewrite Hev. simpl.
    now rewrite Hid, Z.eqb_refl.
  - assert (Event.status e <> Event.CONFIRMED) as Hne.
    { intros H. apply event_status_eqb_eq in H. congruence. }
    unfold EventDetailView.super_delete, bind, EventDetailView.get_object,
      ORM.Event_get.
    rewrite Hget. simpl. split; [reflexivity|]. split; [congruence|].
    intros _. rewrite Hid.
    split; [|split; [|split]].
    + unfold lookup_event. simpl. rewrite find_filter_head.
      now rewrite (filter_negb_eq_none Event.id).
    + simpl. intros H. apply in_map_iff in H. destruct H as [x [Hx Hfx]].
      apply filter_In in Hfx. destruct Hfx as [_ Hfx].
      apply negb_true_iff, Z.eqb_neq in Hfx. contradiction.
    + unfold participants_of. simpl.
      apply (filter_negb_eq_none EventParticipant.event).
    + unfold approvers_of. simpl.
      apply (filter_negb_eq_none EventApprover.event).
Qed.

(* ================================================================== *)
(** ** Event creation *)

Lemma create_eq (user now : Z) (vd : EventSerializer.validated_data) (db : DB) :
  EventSerializer.create user now vd db =
  let ev := new_event user now vd db in
  match create_rows (Event.id ev)
                    (add_creator user (EventSerializer.participant_ids vd))
                    (match EventSerializer.approver_ids vd with
                     | Some l => l
                     | None => []
                     end)
                    (with_event db ev) with
  | (db2, inl e) => (db2, inl e)
  | (db2, inr _) => (db2, inr ev)
  end.
Proof.
  unfold EventSerializer.create, create_rows, add_creator, bind,
    ORM.Event_create, new_event, with_event, ret.
  simpl.
  destruct (for_each _ _ _) as [db2 [e|[]]]; [reflexivity|].
  destruct (1 <? _); [|reflexivity].
  destruct (EventSerializer.is_empty _); [reflexivity|].
  destruct (for_each _ _ _) as [db3 [e|[]]]; reflexivity.
Qed.

(** *** Properties kept along a computation *)

Lemma preserves_ret {A} (P : DB -> Prop) (a : A) : preserves P (ret a).
Proof. intros db H. exact H. Qed.

Lemma preserves_raise {A} (P : DB -> Prop) (e : exn) : preserves P (@raise A e).
Proof. intros db H. exact H. Qed.

Lemma preserves_bind {A B} (P : DB -> Prop) (m : M A) (k : A -> M B) :
  preserves P m -> (forall a, preserves P (k a)) -> preserves P (bind m k).
Proof.
  intros Hm Hk db H. unfold bind. specialize (Hm db H).
  destruct (m db) as [db1 [e|a]]; simpl in *; [assumption|].
  now apply Hk.
Qed.

Lemma preserves_for_each {A} (P : DB -> Prop) (xs : list A) (body : A -> M unit) :
  (forall x, preserves P (body x)) -> preserves P (for_each xs body).
Proof.
  intros Hb. induction xs as [|x xs IH]; simpl.
  - apply preserves_ret.
  - apply preserves_bind; [apply Hb | intros _; apply IH].
Qed.

Lemma preserves_create_rows (P : DB -> Prop) (eid : Z) (ps aids : list Z) :
  (forall u, preserves P (ORM.EventParticipant_create eid u)) ->
  (forall u, preserves P (ORM.EventApprover_create eid u)) ->
  preserves P (create_rows eid ps aids).
Proof.
  intros Hp Ha. unfold create_rows.
  apply preserves_bind; [now apply preserves_for_each|]. intros _.
  destruct (1 <? _); [|apply preserves_ret].
  destruct (EventSerializer.is_empty _);
    [apply preserves_raise | now apply preserves_for_each].
Qed.

Lemma create_rows_same_events (d0 : DB) (eid : Z) (ps aids : list Z) :
  preserves (same_events d0) (create_rows eid ps aids).
Proof.
  apply preserves_create_rows; intros u db [H1 [H2 [H3 H4]]].
  - unfold ORM.EventParticipant_create.
    destruct (negb _); [repeat split; assumption|].
    destruct (existsb _ _); repeat split; assumption.
  - unfold ORM.EventApprover_create.
    destruct (negb _); [repeat split; assumption|].
    destruct (existsb _ _); repeat split; assumption.
Qed.

Lemma create_events (user now : Z) vd (db : DB) :
  let r := EventSerializer.create user now vd db in
  events (fst r) = events db ++ [new_event user now vd db]
  /\ notifications (fst r) = notifications db
  /\ users (fst r) = users db
  /\ event_seq (fst r) = event_seq db + 1.
Proof.
  intros r. subst r. rewrite create_eq. cbv zeta.
  pose proof (create_rows_same_events
                (with_event db (new_event user now vd db))
                (Event.id (new_event user now vd db))
                (add_creator user (EventSerializer.participant_ids vd))
                (match EventSerializer.approver_ids vd with
                 | Some l => l
                 | None => []
                 end)
                (with_event db (new_event user now vd db))) as H.
  destruct (create_rows _ _ _ _) as [db2 [e|[]]]; simpl in *;
    destruct H as [H1 [H2 [H3 H4]]]; try (repeat split; reflexivity);
    rewrite H1, H2, H3, H4; repeat split; reflexivity.
Qed.

Lemma create_returns (user now : Z) vd (db db' : DB) (ev : Event.t) :
  EventSerializer.create user now vd db = (db', inr ev) ->
  ev = new_event user now vd db.
Proof.
  rewrite create_eq. cbv zeta.
  destruct (create_rows _ _ _ _) as [db2 [e|[]]]; intros H; inversion H.
  reflexivity.
Qed.

Lemma lookup_new_event (db : DB) (ev : Event.t) :
  WF db -> Event.id ev = event_seq db + 1 ->
  find (fun e => Event.id e =? Event.id ev) (events db ++ [ev]) = Some ev.
Proof.
  intros Hwf Hid.
  assert (forall l0, (forall e, In e l0 -> Event.id e <= event_seq db) ->
                     find (fun e => Event.id e =? Event.id ev) (l0 ++ [ev]) = Some ev)
    as H.
  { induction l0 as [|x l0 IH]; simpl; intros Hb.
    - now rewrite Z.eqb_refl.
    - destruct (Event.id x =? Event.id ev) eqn:E.
      + apply Z.eqb_eq in E. specialize (Hb x (or_introl eq_refl)). lia.
      + apply IH. intros e He. apply Hb. now right. }
  apply H. apply (wf_event_seq _ Hwf).
Qed.

Lemma created_event_stored (db db' : DB) (user now : Z) vd (ev : Event.t) :
  WF db ->
  EventSerializer.create user now vd db = (db', inr ev) ->
  lookup_event (Event.id ev) db' = Some ev /\ ev = new_event user now vd db.
Proof.
  intros Hwf Hcreate.
  pose proof (create_returns _ _ _ _ _ _ Hcreate) as Hev.
  destruct (create_events user now vd db) as [Hevents _].
  rewrite Hcreate in Hevents. simpl in Hevents.
  split; [|assumption].
  unfold lookup_event. rewrite Hevents, <- Hev.
  apply lookup_new_event; [assumption|]. now rewrite Hev.
Qed.

(** C2, as the code has it.  On a consistent database a creation that
    succeeds stores the event with the status of the request body, or
    with PENDING when the body has none; the approver ids play no part
    in it. *)
Theorem C2_created_event_has_default_status
        (db db' : DB) (user now : Z) (vd : EventSerializer.validated_data)
        (ev : Event.t)
        (Hwf : well_formed db = true)
        (Hcreate : EventSerializer.create user now vd db = (db', inr ev)) :
  lookup_event (Event.id ev) db' = Some ev
  /\ Event.status ev = match EventSerializer.status vd with
                       | Some s => s
                       | None => Event.PENDING
                       end.
Proof.
  apply well_formed_WF in Hwf.
  destruct (created_event_stored _ _ _ _ _ _ Hwf Hcreate) as [Hl ->].
  split; [assumption | reflexivity].
Qed.

(** *** The participant loop *)

Lemma participants_loop_ok (eid : Z) (l : list Z) :
  forall db,
    NoDup l ->
    (forall u, In u l -> In u (users db)) ->
    (forall p, In p (event_participants db) ->
               EventParticipant.event p = eid -> ~ In (EventParticipant.user p) l) ->
    snd (for_each l (fun uid => ORM.EventParticipant_create eid uid) db) = inr tt.
Proof.
  induction l as [|u l IH]; intros db Hnd Husers Hfresh; [reflexivity|].
  inversion Hnd as [|? ? Hnot Hnd']; subst.
  simpl. unfold bind.
  unfold ORM.EventParticipant_create at 1.
  assert (mem u (users db) = true) as ->
      by (apply mem_In, Husers; now left).
  simpl.
  assert (existsb (fun p => (EventParticipant.event p =? eid)
                            && (EventParticipant.user p =? u))
                  (event_participants db) = false) as ->.
  { destruct (existsb _ _) eqn:E; [|reflexivity].
    apply existsb_exists in E. destruct E as [p [Hp Hm]].
    apply andb_true_iff in Hm. destruct Hm as [H1 H2].
    apply Z.eqb_eq in H1. apply Z.eqb_eq in H2.
    exfalso. apply (Hfresh p Hp H1). left. now symmetry. }
  apply IH; simpl; try assumption.
  - intros v Hv. apply Husers. now right.
  - intros p Hp He Hin. apply in_app_or in Hp. destruct Hp as [Hp|[<-|[]]].
    + apply (Hfresh p Hp He). now right.
    + simpl in Hin. contradiction.
Qed.

Lemma add_creator_NoDup (user : Z) (l : list Z) :
  NoDup l -> NoDup (add_creator user l).
Proof.
  intros H. unfold add_creator. destruct (mem user l) eqn:E; simpl; [assumption|].
  apply mem_false in E.
  apply NoDup_rev in H. rewrite <- (rev_involutive (l ++ [user])).
  apply NoDup_rev. rewrite rev_app_distr. simpl. constructor; [|assumption].
  now rewrite <- in_rev.
Qed.

Lemma add_creator_In (user : Z) (l : list Z) (u : Z) :
  In u (add_creator user l) -> u = user \/ In u l.
Proof.
  unfold add_creator. destruct (mem user l); simpl; [now right|].
  intros H. apply in_app_or in H. destruct H as [H|[H|[]]]; auto.
Qed.

Lemma add_creator_singleton (user : Z) (l : list Z) :
  List.length (add_creator user l) = 1%nat -> add_creator user l = [user].
Proof.
  unfold add_creator, mem. destruct l as [|x [|y l]]; simpl.
  - reflexivity.
  - destruct (user =? x) eqn:E; simpl; [|discriminate].
    apply Z.eqb_eq in E. now subst.
  - destruct ((user =? x) || ((user =? y) || existsb (Z.eqb user) l)); simpl.
    + discriminate.
    + rewrite length_app. simpl. lia.
Qed.

(** *** The loops of a creation do not look at the event table *)

Lemma blind_ret {A} (a : A) : blind_to_events (ret a).
Proof. intros d1 d2 H. split; [exact H | reflexivity]. Qed.

Lemma blind_raise {A} (e : exn) : blind_to_events (@raise A e).
Proof. intros d1 d2 H. split; [exact H | reflexivity]. Qed.

Lemma blind_bind {A B} (m : M A) (k : A -> M B) :
  blind_to_events m -> (forall a, blind_to_events (k a)) ->
  blind_to_events (bind m k).
Proof.
  intros Hm Hk d1 d2 H. unfold bind. destruct (Hm d1 d2 H) as [H1 H2].
  destruct (m d1) as [d1' [e1|a1]], (m d2) as [d2' [e2|a2]];
    simpl in *; try discriminate.
  - split; [assumption | congruence].
  - inversion H2; subst. now apply Hk.
Qed.

Lemma blind_for_each {A} (xs : list A) (body : A -> M unit) :
  (forall x, blind_to_events (body x)) -> blind_to_events (for_each xs body).
Proof.
  intros Hb. induction xs as [|x xs IH]; simpl.
  - apply blind_ret.
  - apply blind_bind; [apply Hb | intros _; apply IH].
Qed.

Lemma blind_participant_create (eid u : Z) :
  blind_to_events (ORM.EventParticipant_create eid u).
Proof.
  intros d1 d2 [H1 [H2 [H3 [H4 [H5 H6]]]]].
  unfold ORM.EventParticipant_create. rewrite H1, H2, H5.
  destruct (negb _); [repeat split; assumption|].
  destruct (existsb _ _); simpl; repeat split; assumption || reflexivity.
Qed.

Lemma blind_approver_create (eid u : Z) :
  blind_to_events (ORM.EventApprover_create eid u).
Proof.
  intros d1 d2 [H1 [H2 [H3 [H4 [H5 H6]]]]].
  unfold ORM.EventApprover_create. rewrite H1, H3, H6.
  destruct (negb _); [repeat split; assumption|].
  destruct (existsb _ _); simpl; repeat split; assumption || reflexivity.
Qed.

Lemma blind_create_rows (eid : Z) (ps aids : list Z) :
  blind_to_events (create_rows eid ps aids).
Proof.
  unfold create_rows. apply blind_bind.
  - apply blind_for_each. intros u. apply blind_participant_create.
  - intros _. destruct (1 <? _); [|apply blind_ret].
    destruct (EventSerializer.is_empty _); [apply blind_raise|].
    apply blind_for_each. intros u. apply blind_approver_create.
Qed.

(** C6, as the code has it.  A creation never compares the two
    instants: with any other start and end the same request ends the
    same way, with the same exception or with none, and an event that is
    created is stored with the start and the end of the request. *)
Theorem C6_create_takes_any_start_and_end
        (db : DB) (user now : Z) (vd : EventSerializer.validated_data) (s e : Z) :
  let r := EventSerializer.create user now vd db in
  let r' := EventSerializer.create user now (with_times vd s e) db in
  raised r' = raised r
  /\ (forall ev, snd r' = inr ev ->
                 In ev (events (fst r'))
                 /\ Event.start_time ev = s /\ Event.end_time ev = e).
Proof.
  intros r r'. split.
  - unfold r, r', raised. rewrite !create_eq. cbv zeta.
    assert (same_but_events
              (with_event db (new_event user now (with_times vd s e) db))
              (with_event db (new_event user now vd db))) as Hsim
        by (repeat split; reflexivity).
    destruct (blind_create_rows
                (event_seq db + 1)
                (add_creator user (EventSerializer.participant_ids vd))
                (match EventSerializer.approver_ids vd with
                 | Some l => l
                 | None => []
                 end) _ _ Hsim) as [_ Hsnd].
    change (Event.id (new_event user now (with_times vd s e) db))
      with (event_seq db + 1).
    change (Event.id (new_event user now vd db)) with (event_seq db + 1).
    change (EventSerializer.participant_ids (with_times vd s e))
      with (EventSerializer.participant_ids vd).
    change (EventSerializer.approver_ids (with_times vd s e))
      with (EventSerializer.approver_ids vd).
    destruct (create_rows _ _ _ (with_event db (new_event user now (with_times vd s e) db)))
      as [d1 [e1|[]]],
       (create_rows _ _ _ (with_event db (new_event user now vd db)))
      as [d2 [e2|[]]]; simpl in *; congruence.
  - intros ev Hev.
    destruct (create_events user now (with_times vd s e) db) as [Hevents _].
    fold r' in Hevents.
    assert (ev = new_event user now (with_times vd s e) db) as ->.
    { apply (create_returns user now (with_times vd s e) db (fst r')).
      fold r'. destruct r' as [d [x|x]]; simpl in *; congruence. }
    split; [|split; reflexivity].
    rewrite Hevents. apply in_or_app. right. now left.
Qed.

(* ================================================================== *)
(** ** What every request keeps *)

Lemma find_app {A} (p : A -> bool) (l1 l2 : list A) :
  find p (l1 ++ l2) = match find p l1 with
                      | Some x => Some x
                      | None => find p l2
                      end.
Proof.
  induction l1 as [|x l1 IH]; simpl; [reflexivity|].
  destruct (p x); [reflexivity | assumption].
Qed.

Lemma NoDup_snoc {A} (l : list A) (x : A) :
  NoDup l -> ~ In x l -> NoDup (l ++ [x]).
Proof.
  intros Hnd Hx. apply NoDup_rev in Hnd.
  rewrite <- (rev_involutive (l ++ [x])). apply NoDup_rev.
  rewrite rev_app_distr. simpl. constructor; [|assumption].
  now rewrite <- in_rev.
Qed.

Lemma NoDup_map_filter {A K} (f : A -> K) (p : A -> bool) (l : list A) :
  NoDup (map f l) -> NoDup (map f (filter p l)).
Proof.
  induction l as [|x l IH]; simpl; intros H; [constructor|].
  inversion H as [|? ? Hn Hr]; subst.
  destruct (p x); simpl; [|now apply IH].
  constructor; [|now apply IH].
  intros Hin. apply Hn. apply in_map_iff in Hin.
  destruct Hin as [y [Hy Hin]]. apply filter_In in Hin.
  rewrite <- Hy. apply in_map. tauto.
Qed.

Lemma find_filter_other {A} (f : A -> Z) (pk pk2 : Z) (l : list A) :
  pk <> pk2 ->
  find (fun r => f r =? pk) (filter (fun r => negb (f r =? pk2)) l)
  = find (fun r => f r =? pk) l.
Proof.
  intros Hne. induction l as [|x l IH]; simpl; [reflexivity|].
  destruct (f x =? pk2) eqn:E2; simpl.
  - apply Z.eqb_eq in E2. destruct (f x =? pk) eqn:E1; [|assumption].
    apply Z.eqb_eq in E1. congruence.
  - destruct (f x =? pk); [reflexivity | assumption].
Qed.

Lemma filter_filter_other {A} (f : A -> Z) (pk pk2 : Z) (l : list A) :
  pk <> pk2 ->
  filter (fun r => f r =? pk) (filter (fun r => negb (f r =? pk2)) l)
  = filter (fun r => f r =? pk) l.
Proof.
  intros Hne. induction l as [|x l IH]; simpl; [reflexivity|].
  destruct (f x =? pk2) eqn:E2; simpl.
  - apply Z.eqb_eq in E2. destruct (f x =? pk) eqn:E1; [|assumption].
    apply Z.eqb_eq in E1. congruence.
  - destruct (f x =? pk); [now f_equal | assumption].
Qed.

Lemma lookup_event_None (pk : Z) (db : DB) :
  lookup_event pk db = None ->
  filter (fun r => Event.id r =? pk) (events db) = [].
Proof.
  unfold lookup_event. intros H. apply filter_nil_iff. intros y Hy.
  apply (find_none _ _ H y Hy).
Qed.

Lemma status_of_In (db : DB) (e : Event.t) :
  WF db -> In e (events db) -> status_of (Event.id e) db = Some (Event.status e).
Proof.
  intros Hwf Hin. apply status_of_lookup. now apply lookup_event_In.
Qed.

(** Rewriting event rows in place, keys kept, keeps the tables
    consistent. *)
Lemma WF_map_events (db : DB) (g : Event.t -> Event.t) :
  (forall r, Event.id (g r) = Event.id r) ->
  WF db ->
  WF (mkDB (users db) (map g (events db)) (event_participants db)
           (event_approvers db) (notifications db)
           (event_seq db) (participant_seq db) (approver_seq db)).
Proof.
  intros Hg Hwf.
  assert (map Event.id (map g (events db)) = map Event.id (events db)) as Hids
      by now apply map_id_stable.
  constructor; simpl; try rewrite Hids; try apply Hwf.
  intros e He. apply in_map_iff in He. destruct He as [r [<- Hr]].
  rewrite Hg. now apply (wf_event_seq _ Hwf).
Qed.

Lemma Inv_empty (us : list Z) : Inv (empty_db us).
Proof.
  constructor.
  - constructor; simpl; try constructor; intros ? [].
  - intros e [].
Qed.

(** *** Decisions *)

Lemma post_Inv (user now : Z) rd (eid : Z) (db : DB) :
  Inv db -> Inv (fst (ApproveEventView.post user now rd eid db)).
Proof.
  intros [Hwf Hst].
  destruct (post_cases user now rd eid db Hwf)
    as [[_ ->]|[[a [_ [_ ->]]]|[[a [_ [_ [_ ->]]]]|[a [e [Hrow [Hpend [Hev ->]]]]]]]]; simpl;
    try (constructor; assumption).
  destruct (approver_row_Some _ _ _ _ Hrow) as [Hin [Hae Hau]].
  pose proof (decided_row_id a now rd) as Hid'.
  pose proof (decided_row_key a now rd) as Hk.
  revert Hid' Hk. generalize (decided_row a now rd). intros a' Hid' Hk.
  pose proof (after_decision_WF db a a' eid (Event.status e) Hwf Hin Hid' Hk)
    as Hwf'.
  destruct (after_decision_approvers db a a' eid (Event.status e) Hwf Hin Hid')
    as [l1 [l2 [E1 [E2 _]]]].
  destruct (lookup_event_Some _ _ _ Hev) as [Hine Hide].
  constructor; [assumption|].
  intros e' He'.
  remember (after_decision db a' eid (Event.status e)) as db' eqn:Edb'.
  assert (forall r, In r (approvers_of eid db) ->
                    EventApprover.status r = EventApprover.REJECTED ->
                    In r (approvers_of eid db')) as Hkeep.
  { intros r Hr Hrej. apply approvers_of_In in Hr. destruct Hr as [Hr Hre].
    apply approvers_of_In. split; [|assumption].
    rewrite E2. rewrite E1 in Hr. apply in_app_or in Hr. apply in_or_app.
    destruct Hr as [Hr|[Hr|Hr]]; [now left | | right; now right].
    subst r. congruence. }
  assert (exists e0, In e0 (events db) /\
                     e' = (if Event.id e0 =? eid
                           then Event.with_status e0
                                  (new_status
                                     (map EventApprover.status (approvers_of eid db'))
                                     (Event.status e))
                           else e0)) as [e0 [Hin0 He0]].
  { rewrite Edb' in He'. unfold after_decision in He'. simpl in He'.
    apply in_map_iff in He'. destruct He' as [e0 [He0 Hin0]].
    exists e0. split; [assumption|]. rewrite Edb'. now symmetry. }
  destruct (Event.id e0 =? eid) eqn:Eid.
  - apply Z.eqb_eq in Eid.
    assert (e0 = e) as ->.
    { apply (NoDup_key_inj _ _ Event.id (events db)); try assumption.
      - apply (wf_event_pk _ Hwf).
      - congruence. }
    subst e'. simpl. rewrite Eid.
    unfold new_status.
    destruct (forallb is_approved _) eqn:Eall.
    + right. split; [now left|]. right.
      intros x Hx. rewrite forallb_forall in Eall.
      apply approver_status_eqb_eq. apply Eall. now apply in_map.
    + destruct (existsb is_rejected _) eqn:Eany.
      * right. split; [now right|]. left.
        apply existsb_exists in Eany. destruct Eany as [s [Hs Hrej]].
        apply in_map_iff in Hs. destruct Hs as [x [Hxs Hx]].
        exists x. split; [assumption|].
        apply approver_status_eqb_eq in Hrej. congruence.
      * destruct (Hst e Hine) as [Hp|[Hcc Hset]]; [now left|].
        exfalso. rewrite Eid in Hset. destruct Hset as [[r [Hr Hrej]]|Happ].
        -- assert (existsb is_rejected
                     (map EventApprover.status (approvers_of eid db')) = true)
             as Habs; [|congruence].
           apply existsb_exists. exists EventApprover.REJECTED. split; [|reflexivity].
           rewrite <- Hrej. apply in_map. now apply Hkeep.
        -- assert (EventApprover.status a = EventApprover.APPROVED) as Habs.
           { apply Happ. apply approvers_of_In. now split. }
           congruence.
  - subst e'. apply Z.eqb_neq in Eid.
    destruct (Hst e0 Hin0) as [Hp|[Hcc Hset]]; [now left|].
    right. split; [assumption|].
    assert (approvers_of (Event.id e0) db' = approvers_of (Event.id e0) db) as Eapp.
    { rewrite Edb'. apply (after_decision_approvers_other db a); try assumption.
      congruence. }
    unfold settled, has_rejection. rewrite Eapp. exact Hset.
Qed.

(** *** Deletions *)

Lemma delete_cases (pk : Z) (db : DB) :
  WF db ->
  (lookup_event pk db = None /\
   EventDetailView.delete pk db = (db, inl Http404))
  \/ (exists e, lookup_event pk db = Some e /\
                Event.status e = Event.CONFIRMED /\
                EventDetailView.delete pk db
                = (soft_deleted db pk, inr (mkResponse 204 NoContent)))
  \/ (exists e, lookup_event pk db = Some e /\
                Event.status e <> Event.CONFIRMED /\
                EventDetailView.delete pk db
                = (hard_deleted db pk, inr (mkResponse 204 NoContent))).
Proof.
  intros Hwf. destruct (lookup_event pk db) as [e|] eqn:Hev.
  - pose proof (get_event_unique _ _ _ Hwf Hev) as Hget.
    destruct (lookup_event_Some _ _ _ Hev) as [Hin Hid].
    right.
    unfold EventDetailView.delete, bind, EventDetailView.get_object, ORM.Event_get.
    rewrite Hget. simpl.
    destruct (Event.status_eqb (Event.status e) Event.CONFIRMED) eqn:Est.
    + left. exists e. apply event_status_eqb_eq in Est.
      split; [reflexivity|]. split; [assumption|].
      unfold soft_deleted. simpl. now rewrite Hid.
    + right. exists e. split; [reflexivity|]. split.
      * intros H. apply event_status_eqb_eq in H. congruence.
      * unfold EventDetailView.super_delete, bind, EventDetailView.get_object,
          ORM.Event_get.
        rewrite Hget. simpl. unfold hard_deleted. now rewrite Hid.
  - left. split; [reflexivity|].
    unfold EventDetailView.delete, bind, EventDetailView.get_object, ORM.Event_get.
    now rewrite (lookup_event_None _ _ Hev).
Qed.

Lemma hard_deleted_approvers_other (db : DB) (pk pk' : Z) :
  pk' <> pk -> approvers_of pk' (hard_deleted db pk) = approvers_of pk' db.
Proof.
  intros Hne. unfold approvers_of, hard_deleted. simpl.
  now apply (filter_filter_other EventApprover.event).
Qed.

Lemma hard_deleted_WF (db : DB) (pk : Z) : WF db -> WF (hard_deleted db pk).
Proof.
  intros Hwf. constructor; simpl.
  - apply NoDup_map_filter, (wf_event_pk _ Hwf).
  - apply NoDup_map_filter, (wf_approver_pk _ Hwf).
  - apply NoDup_map_filter, (wf_approver_key _ Hwf).
  - intros e He. apply filter_In in He. now apply (wf_event_seq _ Hwf).
  - intros a Ha. apply filter_In in Ha. now apply (wf_approver_seq _ Hwf).
  - intros a Ha. apply filter_In in Ha. destruct Ha as [Ha Hne].
    pose proof (wf_approver_fk _ Hwf a Ha) as Hfk.
    apply in_map_iff in Hfk. destruct Hfk as [e [Hid He]].
    apply in_map_iff. exists e. split; [assumption|].
    apply filter_In. split; [assumption|]. now rewrite Hid.
  - intros p Hp. apply filter_In in Hp. destruct Hp as [Hp Hne].
    pose proof (wf_participant_fk _ Hwf p Hp) as Hfk.
    apply in_map_iff in Hfk. destruct Hfk as [e [Hid He]].
    apply in_map_iff. exists e. split; [assumption|].
    apply filter_In. split; [assumption|]. now rewrite Hid.
Qed.

Lemma soft_deleted_WF (db : DB) (pk : Z) : WF db -> WF (soft_deleted db pk).
Proof.
  intros Hwf. unfold soft_deleted. apply WF_map_events; [|assumption].
  intros r. now destruct (Event.id r =? pk).
Qed.

Lemma delete_Inv (pk : Z) (db : DB) :
  Inv db -> Inv (fst (EventDetailView.delete pk db)).
Proof.
  intros [Hwf Hst].
  destruct (delete_cases pk db Hwf)
    as [[_ ->]|[[e [Hev [Hconf ->]]]|[e [Hev [Hother ->]]]]]; simpl.
  - now constructor.
  - constructor; [now apply soft_deleted_WF|].
    intros e' He'. unfold soft_deleted in He'. simpl in He'.
    apply in_map_iff in He'. destruct He' as [e0 [<- Hin0]].
    destruct (Hst e0 Hin0) as [Hp|[Hcc Hset]].
    + destruct (Event.id e0 =? pk) eqn:Eid; [|now left].
      apply Z.eqb_eq in Eid.
      destruct (lookup_event_Some _ _ _ Hev) as [Hine Hide].
      assert (e0 = e) as ->.
      { apply (NoDup_key_inj _ _ Event.id (events db)); try assumption.
        - apply (wf_event_pk _ Hwf).
        - congruence. }
      congruence.
    + right. destruct (Event.id e0 =? pk); simpl; (split; [tauto | exact Hset]).
  - constructor; [now apply hard_deleted_WF|].
    intros e0 He0. simpl in He0. apply filter_In in He0.
    destruct He0 as [Hin0 Hne]. apply negb_true_iff, Z.eqb_neq in Hne.
    destruct (Hst e0 Hin0) as [Hp|[Hcc Hset]]; [now left|].
    right. split; [assumption|].
    unfold settled, has_rejection.
    rewrite (hard_deleted_approvers_other db pk (Event.id e0) Hne). exact Hset.
Qed.

(** *** Creations *)

Lemma status_of_In_ids (pk : Z) (db : DB) (s : Event.Status) :
  status_of pk db = Some s -> In pk (map Event.id (events db)).
Proof.
  unfold status_of. destruct (lookup_event pk db) as [e|] eqn:He; [|discriminate].
  intros _. destruct (lookup_event_Some _ _ _ He) as [Hin <-]. now apply in_map.
Qed.

Lemma participant_create_WF (eid u : Z) :
  preserves (fun db => WF db /\ In eid (map Event.id (events db)))
            (ORM.EventParticipant_create eid u).
Proof.
  intros db [Hwf Hin]. unfold ORM.EventParticipant_create.
  destruct (negb _); [now split|].
  destruct (existsb _ _); [now split|]. simpl.
  split; [|exact Hin].
  constructor; simpl; try apply Hwf.
  intros p Hp. apply in_app_or in Hp. destruct Hp as [Hp|[<-|[]]].
  - now apply (wf_participant_fk _ Hwf).
  - exact Hin.
Qed.

Lemma approver_create_WF (eid u : Z) :
  preserves (fun db => WF db /\ In eid (map Event.id (events db)))
            (ORM.EventApprover_create eid u).
Proof.
  intros db [Hwf Hin]. unfold ORM.EventApprover_create.
  destruct (negb _); [now split|].
  destruct (existsb _ _) eqn:Edup; [now split|]. simpl.
  split; [|exact Hin].
  constructor; simpl; try apply Hwf.
  - rewrite map_app. simpl. apply NoDup_snoc; [apply (wf_approver_pk _ Hwf)|].
    intros Hdup. apply in_map_iff in Hdup. destruct Hdup as [a [Hid Ha]].
    pose proof (wf_approver_seq _ Hwf a Ha). lia.
  - rewrite map_app. simpl. apply NoDup_snoc; [apply (wf_approver_key _ Hwf)|].
    intros Hdup. apply in_map_iff in Hdup. destruct Hdup as [a [Hk Ha]].
    unfold approver_key in Hk. inversion Hk as [[Hk1 Hk2]].
    assert (existsb (fun a0 => (EventApprover.event a0 =? eid)
                               && (EventApprover.approver a0 =? u))
                    (event_approvers db) = true) as Habs; [|congruence].
    apply existsb_exists. exists a. split; [assumption|].
    now rewrite Hk1, Hk2, !Z.eqb_refl.
  - intros a Ha. apply in_app_or in Ha. destruct Ha as [Ha|[<-|[]]].
    + pose proof (wf_approver_seq _ Hwf a Ha). lia.
    + simpl. lia.
  - intros a Ha. apply in_app_or in Ha. destruct Ha as [Ha|[<-|[]]].
    + now apply (wf_approver_fk _ Hwf).
    + exact Hin.
Qed.

Lemma with_event_WF (db : DB) (ev : Event.t) :
  WF db -> Event.id ev = event_seq db + 1 ->
  WF (with_event db ev)
  /\ In (Event.id ev) (map Event.id (events (with_event db ev))).
Proof.
  intros Hwf Hid.
  assert (~ In (Event.id ev) (map Event.id (events db))) as Hfresh.
  { intros Hin. apply in_map_iff in Hin. destruct Hin as [e [He Hin]].
    pose proof (wf_event_seq _ Hwf e Hin). lia. }
  split.
  - constructor; simpl; try apply Hwf.
    + rewrite map_app. simpl. now apply NoDup_snoc; [apply (wf_event_pk _ Hwf)|].
    + intros e He. apply in_app_or in He. destruct He as [He|[<-|[]]].
      * pose proof (wf_event_seq _ Hwf e He). lia.
      * lia.
    + intros a Ha. rewrite map_app. apply in_or_app. left.
      now apply (wf_approver_fk _ Hwf).
    + intros p Hp. rewrite map_app. apply in_or_app. left.
      now apply (wf_participant_fk _ Hwf).
  - simpl. rewrite map_app. apply in_or_app. right. now left.
Qed.

Lemma create_fst (user now : Z) vd (db : DB) :
  fst (EventSerializer.create user now vd db)
  = fst (create_rows (event_seq db + 1)
                     (add_creator user (EventSerializer.participant_ids vd))
                     (match EventSerializer.approver_ids vd with
                      | Some l => l
                      | None => []
                      end)
                     (with_event db (new_event user now vd db))).
Proof.
  rewrite create_eq. cbv zeta.
  change (Event.id (new_event user now vd db)) with (event_seq db + 1).
  now destruct (create_rows _ _ _ _) as [db2 [e|[]]].
Qed.

Lemma create_WF (user now : Z) vd (db : DB) :
  WF db -> WF (fst (EventSerializer.create user now vd db)).
Proof.
  intros Hwf. rewrite create_fst.
  destruct (with_event_WF db (new_event user now vd db) Hwf eq_refl) as [Hwf1 Hin1].
  change (Event.id (new_event user now vd db)) with (event_seq db + 1) in Hin1.
  apply (preserves_create_rows
           (fun d => WF d /\ In (event_seq db + 1) (map Event.id (events d)))
           (event_seq db + 1)).
  - intros u. apply participant_create_WF.
  - intros u. apply approver_create_WF.
  - now split.
Qed.

Lemma delete_WF (pk : Z) (db : DB) :
  WF db -> WF (fst (EventDetailView.delete pk db)).
Proof.
  intros Hwf.
  destruct (delete_cases pk db Hwf)
    as [[_ ->]|[[e [_ [_ ->]]]|[e [_ [_ ->]]]]]; simpl.
  - assumption.
  - now apply soft_deleted_WF.
  - now apply hard_deleted_WF.
Qed.

Lemma update_WF (pk now : Z) vd (db : DB) :
  WF db -> WF (fst (EventUpdate.update pk now vd db)).
Proof.
  intros Hwf.
  unfold EventUpdate.update, bind, EventDetailView.get_object, ORM.Event_get,
    get_unique, raise, ret.
  destruct (filter _ (events db)) as [|e [|e2 l]]; simpl; try assumption.
  apply WF_map_events; [|assumption].
  intros r. destruct (Event.id r =? Event.id e) eqn:E; [|reflexivity].
  apply Z.eqb_eq in E. now rewrite E.
Qed.

(** Every request, whatever it carries, keeps the tables consistent:
    the databases the requests can reach are the consistent ones the
    claims are stated on. *)
Lemma handle_WF (r : request) (db : DB) : WF db -> WF (handle r db).
Proof.
  destruct r as [user now vd|user now rd eid|pk|pk now vd]; simpl; intros Hwf.
  - now apply create_WF.
  - now apply post_WF.
  - now apply delete_WF.
  - now apply update_WF.
Qed.

Lemma run_well_formed (rs : list request) (us : list Z) :
  well_formed (run rs (empty_db us)) = true.
Proof.
  apply well_formed_WF.
  assert (forall db, WF db -> WF (run rs db)) as H.
  { induction rs as [|r rs IH]; intros db Hwf; [assumption|].
    simpl. apply IH. now apply handle_WF. }
  apply H. constructor; simpl; try constructor; intros ? [].
Qed.

(** *** Creations that leave the status to its default *)

Lemma participant_create_Inv (eid u : Z) :
  preserves (fun db => Inv db /\ status_of eid db = Some Event.PENDING)
            (ORM.EventParticipant_create eid u).
Proof.
  intros db [[Hwf Hst] Hpend].
  destruct (participant_create_WF eid u db
              (conj Hwf (status_of_In_ids eid db Event.PENDING Hpend)))
    as [Hwf' _].
  revert Hwf'. unfold ORM.EventParticipant_create.
  destruct (negb _); [simpl; split; [now constructor | assumption]|].
  destruct (existsb _ _); [simpl; split; [now constructor | assumption]|].
  simpl. intros Hwf'. split; [|exact Hpend]. constructor; [exact Hwf' | exact Hst].
Qed.

Lemma approver_create_Inv (eid u : Z) :
  preserves (fun db => Inv db /\ status_of eid db = Some Event.PENDING)
            (ORM.EventApprover_create eid u).
Proof.
  intros db [[Hwf Hst] Hpend].
  destruct (approver_create_WF eid u db
              (conj Hwf (status_of_In_ids eid db Event.PENDING Hpend)))
    as [Hwf' _].
  revert Hwf'. unfold ORM.EventApprover_create.
  destruct (negb _); [simpl; split; [now constructor | assumption]|].
  destruct (existsb _ _); [simpl; split; [now constructor | assumption]|].
  simpl. intros Hwf'. split; [|exact Hpend]. constructor; [exact Hwf'|].
  simpl. intros e He.
  destruct (Hst e He) as [Hp|[Hcc Hset]]; [now left|].
  right. split; [assumption|].
  assert (Event.id e <> eid) as Hne.
  { intros Heq. pose proof (status_of_In db e Hwf He) as Hs.
    rewrite Heq, Hpend in Hs. injection Hs as Hs'. rewrite <- Hs' in Hcc.
    destruct Hcc; discriminate. }
  unfold settled, has_rejection, approvers_of in *. simpl.
  rewrite filter_app. simpl.
  apply not_eq_sym, Z.eqb_neq in Hne. rewrite Hne, app_nil_r. exact Hset.
Qed.

Lemma with_event_Inv (db : DB) (ev : Event.t) :
  Inv db -> Event.id ev = event_seq db + 1 -> Event.status ev = Event.PENDING ->
  Inv (with_event db ev) /\ status_of (Event.id ev) (with_event db ev)
                            = Some Event.PENDING.
Proof.
  intros [Hwf Hst] Hid Hpend.
  destruct (with_event_WF db ev Hwf Hid) as [Hwf' _].
  split.
  - constructor; [exact Hwf'|].
    simpl. intros e He. apply in_app_or in He. destruct He as [He|[<-|[]]].
    + exact (Hst e He).
    + now left.
  - unfold status_of, lookup_event. simpl.
    rewrite (lookup_new_event db ev Hwf Hid). simpl. now f_equal.
Qed.

Lemma create_Inv (user now : Z) vd (db : DB) :
  leaves_status (CreateEvent user now vd) = true ->
  Inv db -> Inv (fst (EventSerializer.create user now vd db)).
Proof.
  intros Hleaves Hinv. rewrite create_fst.
  assert (Event.status (new_event user now vd db) = Event.PENDING) as Hpend.
  { unfold new_event. simpl. simpl in Hleaves.
    destruct (EventSerializer.status vd) as [s|]; [|reflexivity].
    now apply event_status_eqb_eq. }
  destruct (with_event_Inv db (new_event user now vd db) Hinv eq_refl Hpend)
    as [Hinv1 Hst1].
  change (Event.id (new_event user now vd db)) with (event_seq db + 1) in Hst1.
  apply (preserves_create_rows
           (fun d => Inv d /\ status_of (event_seq db + 1) d = Some Event.PENDING)
           (event_seq db + 1)).
  - intros u. apply participant_create_Inv.
  - intros u. apply approver_create_Inv.
  - now split.
Qed.

(** *** Updates without a status

    An update whose body has no [status] key maps the event table by a
    function that keeps the key and the status of every row. *)
Lemma update_keeps_status (pk now : Z) vd (db : DB) :
  EventUpdate.status vd = None ->
  exists g : Event.t -> Event.t,
    (forall r, Event.id (g r) = Event.id r)
    /\ (forall r, In r (events db) -> Event.status (g r) = Event.status r)
    /\ fst (EventUpdate.update pk now vd db)
       = mkDB (users db) (map g (events db)) (event_participants db)
              (event_approvers db) (notifications db)
              (event_seq db) (participant_seq db) (approver_seq db).
Proof.
  intros Hnone.
  assert (db = mkDB (users db) (map (fun r => r) (events db))
                    (event_participants db) (event_approvers db)
                    (notifications db) (event_seq db) (participant_seq db)
                    (approver_seq db)) as Hsame
      by (rewrite map_id; now destruct db).
  unfold EventUpdate.update, bind, EventDetailView.get_object, ORM.Event_get,
    get_unique, raise, ret.
  destruct (filter (fun r => Event.id r =? pk) (events db)) as [|e [|e2 l]] eqn:Hf;
    cbn [fst snd].
  - exists (fun r => r). now repeat split.
  - exists (fun r => if Event.id r =? Event.id (EventUpdate.assign e now vd)
                     then EventUpdate.assign e now vd else r).
    split; [|split; [|reflexivity]].
    + intros r. destruct (Event.id r =? _) eqn:E; [|reflexivity].
      apply Z.eqb_eq in E. now rewrite E.
    + intros r Hr. destruct (Event.id r =? _) eqn:E; [|reflexivity].
      assert (In e (filter (fun r => Event.id r =? pk) (events db))) as He
          by (rewrite Hf; now left).
      apply filter_In in He. destruct He as [_ He]. apply Z.eqb_eq in He.
      assert (In r (filter (fun r => Event.id r =? pk) (events db))) as Hr'.
      { apply filter_In. split; [assumption|].
        apply Z.eqb_eq in E. simpl in E. apply Z.eqb_eq. congruence. }
      rewrite Hf in Hr'. destruct Hr' as [<-|[]].
      unfold EventUpdate.assign. simpl. now rewrite Hnone.
  - exists (fun r => r). now repeat split.
Qed.

Lemma map_events_Inv (db : DB) (g : Event.t -> Event.t) :
  (forall r, Event.id (g r) = Event.id r) ->
  (forall r, In r (events db) -> Event.status (g r) = Event.status r) ->
  Inv db ->
  Inv (mkDB (users db) (map g (events db)) (event_participants db)
            (event_approvers db) (notifications db)
            (event_seq db) (participant_seq db) (approver_seq db)).
Proof.
  intros Hid Hst [Hwf Hinv]. constructor; [now apply WF_map_events|].
  simpl. intros e He. apply in_map_iff in He. destruct He as [r [<- Hr]].
  rewrite Hid, (Hst r Hr). exact (Hinv r Hr).
Qed.

Lemma update_Inv (pk now : Z) vd (db : DB) :
  EventUpdate.status vd = None ->
  Inv db -> Inv (fst (EventUpdate.update pk now vd db)).
Proof.
  intros Hnone Hinv.
  destruct (update_keeps_status pk now vd db Hnone) as [g [Hid [Hst ->]]].
  now apply map_events_Inv.
Qed.

(** Every request that leaves the status alone keeps the invariant. *)
Lemma handle_Inv (r : request) (db : DB) :
  leaves_status r = true -> Inv db -> Inv (handle r db).
Proof.
  destruct r as [user now vd|user now rd eid|pk|pk now vd]; simpl; intros Hr Hinv.
  - now apply create_Inv.
  - now apply post_Inv.
  - now apply delete_Inv.
  - apply update_Inv; [|assumption].
    now destruct (EventUpdate.status vd).
Qed.

Lemma run_Inv (rs : list request) (db : DB) :
  forallb leaves_status rs = true -> Inv db -> Inv (run rs db).
Proof.
  revert db. induction rs as [|r rs IH]; intros db Hrs Hinv; [assumption|].
  simpl in *. apply andb_true_iff in Hrs. destruct Hrs as [Hr Hrs].
  apply IH; [assumption|]. now apply handle_Inv.
Qed.

(** *** A cancelled event stays cancelled *)

Lemma find_filter_None {A} (p q : A -> bool) (l : list A) :
  find p l = None -> find p (filter q l) = None.
Proof.
  induction l as [|x l IH]; simpl; [reflexivity|].
  destruct (p x) eqn:E; [discriminate|]. intros H.
  destruct (q x); simpl; [rewrite E|]; now apply IH.
Qed.

Lemma cancelled_or_gone_create (user now : Z) vd (pk : Z) (db : DB) :
  WF db -> cancelled_or_gone pk db ->
  cancelled_or_gone pk (fst (EventSerializer.create user now vd db)).
Proof.
  intros Hwf Hcg.
  destruct (create_events user now vd db) as [Hev [_ [_ Hseq]]].
  unfold cancelled_or_gone, status_of, lookup_event in *.
  rewrite Hev, Hseq, find_app.
  destruct Hcg as [Hc|[Hnone Hle]].
  - left. destruct (find _ (events db)); [assumption | discriminate].
  - right. rewrite Hnone. simpl.
    assert ((event_seq db + 1 =? pk) = false) as -> by (apply Z.eqb_neq; lia).
    split; [reflexivity | lia].
Qed.

Lemma cancelled_or_gone_post (user now : Z) rd (eid pk : Z) (db : DB) :
  Inv db -> cancelled_or_gone pk db ->
  cancelled_or_gone pk (fst (ApproveEventView.post user now rd eid db)).
Proof.
  intros [Hwf Hst] Hcg.
  destruct (post_cases user now rd eid db Hwf)
    as [[_ ->]|[[a [_ [_ ->]]]|[[a [_ [_ [_ ->]]]]|[a [e [Hrow [Hpend [Hev ->]]]]]]]]; simpl;
    try assumption.
  destruct (approver_row_Some _ _ _ _ Hrow) as [Hin [Hae Hau]].
  pose proof (decided_row_id a now rd) as Hid'.
  pose proof (decided_row_key a now rd) as Hk.
  revert Hid' Hk. generalize (decided_row a now rd). intros a' Hid' Hk.
  destruct Hcg as [Hc|[Hnone Hle]].
  - left. destruct (Z.eq_dec pk eid) as [->|Hne].
    + rewrite (after_decision_status_same db a' eid (Event.status e) e Hev).
      destruct (lookup_event_Some _ _ _ Hev) as [Hine Hide].
      rewrite (status_of_lookup _ _ _ Hev) in Hc. injection Hc as Hc'.
      destruct (Hst e Hine) as [Hp|[_ Hset]]; [congruence|].
      rewrite Hide in Hset. destruct Hset as [[r [Hr Hrej]]|Happ].
      * f_equal. apply new_status_rejected. rewrite <- Hrej. apply in_map.
        destruct (after_decision_approvers db a a' eid (Event.status e) Hwf Hin Hid')
          as [l1 [l2 [E1 [E2 _]]]].
        apply approvers_of_In in Hr. destruct Hr as [Hr Hre].
        apply approvers_of_In. split; [|assumption].
        rewrite E2. rewrite E1 in Hr. apply in_app_or in Hr. apply in_or_app.
        destruct Hr as [Hr|[Hr|Hr]]; [now left | | right; now right].
        subst r. congruence.
      * assert (EventApprover.status a = EventApprover.APPROVED) as Habs.
        { apply Happ. apply approvers_of_In. now split. }
        congruence.
    + now rewrite after_decision_status_other.
  - right. rewrite after_decision_lookup, Hnone. now split.
Qed.

Lemma cancelled_or_gone_delete (pk2 pk : Z) (db : DB) :
  WF db -> cancelled_or_gone pk db ->
  cancelled_or_gone pk (fst (EventDetailView.delete pk2 db)).
Proof.
  intros Hwf Hcg.
  destruct (delete_cases pk2 db Hwf)
    as [[_ ->]|[[e [Hev [Hconf ->]]]|[e [Hev [Hother ->]]]]]; simpl.
  - assumption.
  - assert (lookup_event pk (soft_deleted db pk2)
            = option_map (fun r => if Event.id r =? pk2
                                   then Event.with_status r Event.CANCELLED else r)
                         (lookup_event pk db)) as Hl.
    { unfold lookup_event, soft_deleted. simpl. apply find_map_stable.
      intros r. now destruct (Event.id r =? pk2). }
    destruct Hcg as [Hc|[Hnone Hle]].
    + left. unfold status_of in *. rewrite Hl.
      destruct (lookup_event pk db) as [e0|]; [|discriminate]. simpl in *.
      destruct (Event.id e0 =? pk2); [reflexivity | assumption].
    + right. rewrite Hl, Hnone. now split.
  - destruct Hcg as [Hc|[Hnone Hle]].
    + destruct (Z.eq_dec pk pk2) as [->|Hne].
      * right. split.
        -- unfold lookup_event, hard_deleted. simpl. rewrite find_filter_head.
           now rewrite (filter_negb_eq_none Event.id).
        -- destruct (lookup_event_Some _ _ _ Hev) as [Hine <-].
           now apply (wf_event_seq _ Hwf).
      * left. unfold status_of, lookup_event, hard_deleted in *. simpl.
        now rewrite (find_filter_other Event.id).
    + right. split; [|assumption].
      unfold lookup_event, hard_deleted in *. simpl. now apply find_filter_None.
Qed.

Lemma cancelled_or_gone_update (pk2 now : Z) vd (pk : Z) (db : DB) :
  EventUpdate.status vd = None ->
  cancelled_or_gone pk db ->
  cancelled_or_gone pk (fst (EventUpdate.update pk2 now vd db)).
Proof.
  intros Hnone Hcg.
  destruct (update_keeps_status pk2 now vd db Hnone) as [g [Hid [Hst ->]]].
  assert (lookup_event pk
            (mkDB (users db) (map g (events db)) (event_participants db)
                  (event_approvers db) (notifications db)
                  (event_seq db) (participant_seq db) (approver_seq db))
          = option_map g (lookup_event pk db)) as Hl.
  { unfold lookup_event. simpl. apply find_map_stable.
    intros r. now rewrite Hid. }
  destruct Hcg as [Hc|[Hnone' Hle]].
  - left. unfold status_of in *. rewrite Hl.
    destruct (lookup_event pk db) as [e|] eqn:He; [|discriminate]. simpl in *.
    destruct (lookup_event_Some _ _ _ He) as [Hin _].
    now rewrite (Hst e Hin).
  - right. rewrite Hl, Hnone'. now split.
Qed.

Lemma cancelled_or_gone_run (rs : list request) (pk : Z) :
  forall db,
    forallb leaves_status rs = true ->
    Inv db -> cancelled_or_gone pk db -> cancelled_or_gone pk (run rs db).
Proof.
  induction rs as [|r rs IH]; intros db Hrs Hinv Hcg; [assumption|].
  simpl in *. apply andb_true_iff in Hrs. destruct Hrs as [Hr Hrs].
  apply IH; [assumption | now apply handle_Inv |].
  destruct r as [user now vd|user now rd eid|pk2|pk2 now vd]; simpl.
  - apply cancelled_or_gone_create; [apply Hinv | assumption].
  - now apply cancelled_or_gone_post.
  - apply cancelled_or_gone_delete; [apply Hinv | assumption].
  - apply cancelled_or_gone_update; [|assumption].
    simpl in Hr. now destruct (EventUpdate.status vd).
Qed.

(** C9, as the code has it.  Start from empty tables and let any
    requests run that leave the status as the code sets it: creations
    whose body has no status or the status PENDING, updates whose body
    has no status, decisions and deletions.  An event that is CANCELLED
    at some moment is, after any further such requests, still CANCELLED
    or removed; DELETED is never the status of an event. *)
Theorem C9_cancelled_is_final_without_status_writes
        (us : list Z) (rs rs2 : list request) (pk : Z)
        (Hrs : forallb leaves_status rs = true)
        (Hrs2 : forallb leaves_status rs2 = true)
        (Hst : status_of pk (run rs (empty_db us)) = Some Event.CANCELLED \/
               status_of pk (run rs (empty_db us)) = Some Event.DELETED) :
  status_of pk (run rs (empty_db us)) = Some Event.CANCELLED
  /\ (status_of pk (run rs2 (run rs (empty_db us))) = Some Event.CANCELLED \/
      status_of pk (run rs2 (run rs (empty_db us))) = None).
Proof.
  pose proof (run_Inv rs (empty_db us) Hrs (Inv_empty us)) as Hinv.
  assert (status_of pk (run rs (empty_db us)) = Some Event.CANCELLED) as Hc.
  { destruct Hst as [Hc|Hd]; [assumption|]. exfalso.
    unfold status_of in Hd.
    destruct (lookup_event pk (run rs (empty_db us))) as [e|] eqn:He;
      [|discriminate].
    destruct (lookup_event_Some _ _ _ He) as [Hin _].
    simpl in Hd. inversion Hd as [Hd'].
    destruct (inv_status _ Hinv e Hin) as [Hp|[[Hp|Hp] _]]; congruence. }
  split; [assumption|].
  destruct (cancelled_or_gone_run rs2 pk _ Hrs2 Hinv (or_introl Hc))
    as [H|[H _]].
  - now left.
  - right. unfold status_of. now rewrite H.
Qed.

(* ================================================================== *)
(** ** The claims on the scenarios *)

(** C1 on the dinner event, approvers 4 and 5: both approve in the
    order 5, 4 and the event is CONFIRMED; 5 rejects, 4 approves later,
    and the event remains CANCELLED; 4 alone approves and the event is
    still PENDING. *)
Lemma C1_dinner_approved_in_any_order :
  well_formed dinner_db = true
  /\ status_of 1 (run (map (approval 1) [(5, 200, None); (4, 300, None)]) dinner_db)
     = Some Event.CONFIRMED
  /\ status_of 1 (run (map decision_request [(4, 300, approve, 1)])
                      (fst (ApproveEventView.post 5 200 reject_conflict 1 dinner_db)))
     = Some Event.CANCELLED
  /\ status_of 1 (fst (ApproveEventView.post 4 200 approve 1 dinner_db))
     = Some Event.PENDING.
Proof.
  destruct (C1_status_recomputed_from_approver_rows dinner_db 1 eq_refl)
    as [H1 [H2 H3]].
  split; [reflexivity|]. split; [|split].
  - apply H3.
    + intros H. vm_compute in H. discriminate H.
    + reflexivity.
    + vm_compute. apply perm_swap.
  - apply (H2 5 200 reject_conflict). reflexivity.
  - destruct (H1 4 200 approve
                 (fst (ApproveEventView.post 4 200 approve 1 dinner_db))
                 EventApprover.APPROVED eq_refl) as [_ H].
    exact H.
Defined.

(** C2: a solo event, no approver ids, no status in the body: created,
    one participant, no approver row, and PENDING, not CONFIRMED. *)
Lemma C2_solo_event_starts_pending :
  let r := EventSerializer.create 1 100 solo_request family_db in
  (exists ev, snd r = inr ev)
  /\ EventSerializer.approver_ids solo_request = None
  /\ List.length (participants_of 1 (fst r)) = 1%nat
  /\ approvers_of 1 (fst r) = []
  /\ status_of 1 (fst r) = Some Event.PENDING
  /\ status_of 1 (fst r) <> Some Event.CONFIRMED.
Proof.
  cbv zeta. split; [eexists; reflexivity|].
  repeat split; try reflexivity. vm_compute. discriminate.
Qed.

(** C2 on the lunch event, created with one approver. *)
Lemma C2_lunch_event_stored_pending :
  well_formed family_db = true
  /\ EventSerializer.create 1 100 lunch_request family_db
     = (lunch_db, inr (new_event 1 100 lunch_request family_db))
  /\ lookup_event 1 lunch_db = Some (new_event 1 100 lunch_request family_db)
  /\ Event.status (new_event 1 100 lunch_request family_db) = Event.PENDING.
Proof.
  split; [reflexivity|]. split; [reflexivity|].
  exact (C2_created_event_has_default_status
           family_db lunch_db 1 100 lunch_request
           (new_event 1 100 lunch_request family_db) eq_refl eq_refl).
Defined.

(** C3: creator 1 invites user 2 and names no approver.  The creation
    raises the validation error after the event row and both participant
    rows are written, and they stay. *)
Lemma C3_validation_error_leaves_rows :
  let r := EventSerializer.create 1 100 shared_request_without_approvers family_db in
  snd r = inl (ValidationError "At least one approver must be specified.")
  /\ status_of 1 (fst r) = Some Event.PENDING
  /\ map EventParticipant.user (participants_of 1 (fst r)) = [2; 1]
  /\ events family_db = [] /\ event_participants family_db = [].
Proof. cbv zeta. repeat split; reflexivity. Qed.

(** C4 on the dinner event: once approver 4 has answered, every further
    answer of 4 is refused and changes nothing; user 3 is no approver. *)
Lemma C4_dinner_second_answer_refused :
  well_formed dinner_db = true
  /\ (forall now2 rd2,
         ApproveEventView.post 4 now2 rd2 1
           (fst (ApproveEventView.post 4 200 approve 1 dinner_db))
         = (fst (ApproveEventView.post 4 200 approve 1 dinner_db),
            inr already_decided))
  /\ ApproveEventView.post 3 200 approve 1 dinner_db
     = (dinner_db, inr not_an_approver).
Proof.
  split; [reflexivity|]. split.
  - destruct (C4_decide_rejects_strangers_and_repeats dinner_db 4 200 1 approve
                eq_refl) as [_ [_ [_ H]]].
    exact (H EventApprover.APPROVED eq_refl).
  - reflexivity.
Defined.

(** C6: an event that ends before it starts is created and stored. *)
Lemma C6_backwards_event_is_created :
  let r := EventSerializer.create 1 100 backwards_request family_db in
  EventSerializer.end_time backwards_request
  < EventSerializer.start_time backwards_request
  /\ exists ev, snd r = inr ev
                /\ lookup_event 1 (fst r) = Some ev
                /\ Event.end_time ev < Event.start_time ev.
Proof.
  cbv zeta. split; [reflexivity|].
  eexists. split; [reflexivity|]. split; reflexivity.
Qed.

(** C7 on the lunch event: deleted while PENDING it is removed with its
    rows; deleted after the approval it is kept as CANCELLED. *)
Lemma C7_lunch_deleted :
  well_formed lunch_db = true
  /\ lookup_event 1 (fst (EventDetailView.delete 1 lunch_db)) = None
  /\ participants_of 1 (fst (EventDetailView.delete 1 lunch_db)) = []
  /\ approvers_of 1 (fst (EventDetailView.delete 1 lunch_db)) = []
  /\ status_of 1 (fst (EventDetailView.delete 1
                         (run [Decide 4 200 approve 1] lunch_db)))
     = Some Event.CANCELLED.
Proof.
  split; [reflexivity|].
  destruct (C7_delete_soft_when_confirmed
              lunch_db 1 (new_event 1 100 lunch_request family_db)
              eq_refl eq_refl) as [_ [_ Hhard]].
  destruct Hhard as [H1 [_ [H2 H3]]]; [discriminate|].
  split; [exact H1|]. split; [exact H2|]. split; [exact H3|].
  destruct (C7_delete_soft_when_confirmed
              (run [Decide 4 200 approve 1] lunch_db) 1
              (Event.with_status (new_event 1 100 lunch_request family_db)
                                 Event.CONFIRMED)
              eq_refl eq_refl) as [_ [Hsoft _]].
  destruct (Hsoft eq_refl) as [H _].
  unfold status_of. rewrite H. reflexivity.
Defined.

(** C8: the single approver of the lunch event approves; the event goes
    from PENDING to CONFIRMED and no notification is written. *)
Lemma C8_confirmation_without_notification :
  let r := ApproveEventView.post 4 200 approve 1 lunch_db in
  status_of 1 lunch_db = Some Event.PENDING
  /\ status_of 1 (fst r) = Some Event.CONFIRMED
  /\ emitted lunch_db (fst r) = []
  /\ notifications (fst r) = [].
Proof. cbv zeta. repeat split; reflexivity. Qed.

(** C9: a lunch event created with CONFIRMED in the body, deleted (so
    CANCELLED), then approved by its approver, is CONFIRMED again. *)
Lemma C9_cancelled_event_confirmed_again :
  let db := run [CreateEvent 1 100 confirmed_lunch_request; DeleteEvent 1] family_db in
  status_of 1 db = Some Event.CANCELLED
  /\ status_of 1 (handle (Decide 4 200 approve 1) db) = Some Event.CONFIRMED.
Proof. cbv zeta. split; reflexivity. Qed.

(** An update request that carries a status writes it over CANCELLED. *)
Lemma update_reopens_cancelled_event :
  let db := run [Decide 4 200 reject_conflict 1] dinner_db in
  status_of 1 db = Some Event.CANCELLED
  /\ status_of 1 (handle (UpdateEvent 1 300
                            (EventUpdate.mk_data None None None None None None
                                                 (Some Event.CONFIRMED)))
                         db)
     = Some Event.CONFIRMED.
Proof. cbv zeta. split; reflexivity. Qed.

(** A creation whose body gives CANCELLED or DELETED stores that status
    with a pending approver, and the approval makes the event
    CONFIRMED. *)
Lemma status_in_body_is_confirmed_by_approval :
  status_of 1 (run [CreateEvent 1 100 cancelled_lunch_request] family_db)
  = Some Event.CANCELLED
  /\ status_of 1 (run [CreateEvent 1 100 cancelled_lunch_request;
                       Decide 4 200 approve 1] family_db)
     = Some Event.CONFIRMED
  /\ status_of 1 (run [CreateEvent 1 100 deleted_lunch_request] family_db)
     = Some Event.DELETED
  /\ status_of 1 (run [CreateEvent 1 100 deleted_lunch_request;
                       Decide 4 200 approve 1] family_db)
     = Some Event.CONFIRMED.
Proof. repeat split. Qed.

(** C9 on the dinner event: rejected by 4, it stays CANCELLED through a
    later approval by 5, an update that moves it to the garden, and the
    creation of a lunch whose body gives the status PENDING. *)
Lemma C9_rejected_dinner_stays_cancelled :
  forallb leaves_status
          [CreateEvent 1 100 dinner_request; Decide 4 200 reject_conflict 1] = true
  /\ forallb leaves_status
             [Decide 5 300 approve 1; UpdateEvent 1 350 move_to_garden;
              CreateEvent 1 400 pending_lunch_request] = true
  /\ status_of 1 (run [CreateEvent 1 100 dinner_request;
                       Decide 4 200 reject_conflict 1]
                      (empty_db [1; 2; 3; 4; 5]))
     = Some Event.CANCELLED
  /\ (status_of 1 (run [Decide 5 300 approve 1; UpdateEvent 1 350 move_to_garden;
                        CreateEvent 1 400 pending_lunch_request]
                       (run [CreateEvent 1 100 dinner_request;
                             Decide 4 200 reject_conflict 1]
                            (empty_db [1; 2; 3; 4; 5])))
      = Some Event.CANCELLED \/
      status_of 1 (run [Decide 5 300 approve 1; UpdateEvent 1 350 move_to_garden;
                        CreateEvent 1 400 pending_lunch_request]
                       (run [CreateEvent 1 100 dinner_request;
                             Decide 4 200 reject_conflict 1]
                            (empty_db [1; 2; 3; 4; 5])))
      = None).
Proof.
  split; [reflexivity|]. split; [reflexivity|].
  apply (C9_cancelled_is_final_without_status_writes
           [1; 2; 3; 4; 5]
           [CreateEvent 1 100 dinner_request; Decide 4 200 reject_conflict 1]
           [Decide 5 300 approve 1; UpdateEvent 1 350 move_to_garden;
            CreateEvent 1 400 pending_lunch_request]
           1 eq_refl eq_refl).
  left. reflexivity.
Defined.

(** C10 on the dinner event: approver 4 sends no decision at all and is
    recorded as REJECTED with the empty reason; the event is CANCELLED. *)
Lemma C10_missing_decision_rejects :
  well_formed dinner_db = true
  /\ snd (ApproveEventView.post 4 200 no_decision 1 dinner_db)
     = inr (mkResponse 200 (ApproverStatus EventApprover.REJECTED))
  /\ approver_row 1 4 (fst (ApproveEventView.post 4 200 no_decision 1 dinner_db))
     = Some (EventApprover.mk 1 1 4 EventApprover.REJECTED (Some 200) EmptyString)
  /\ status_of 1 (fst (ApproveEventView.post 4 200 no_decision 1 dinner_db))
     = Some Event.CANCELLED.
Proof.
  split; [reflexivity|].
  apply (C10_anything_but_approve_rejects
           dinner_db 4 200 1 no_decision
           (EventApprover.mk 1 1 4 EventApprover.PENDING None EmptyString)
           eq_refl eq_refl eq_refl); discriminate.
Defined.

(** Against C10 as the specification states it.  Approver 4 of the dinner
    event has a PENDING row and sends the decision reject with [null] as
    the reason: saving the row raises IntegrityError, the tables are left
    as they were, the row is still PENDING with no decision time and the
    event is still PENDING: nothing is recorded as REJECTED. *)
Lemma C10_null_reason_is_not_recorded :
  well_formed dinner_db = true
  /\ approver_row 1 4 dinner_db
     = Some (EventApprover.mk 1 1 4 EventApprover.PENDING None EmptyString)
  /\ ApproveEventView.decision reject_null_reason <> Some "approve"%string
  /\ ApproveEventView.post 4 200 reject_null_reason 1 dinner_db
     = (dinner_db, inl IntegrityError)
  /\ approver_row 1 4 (fst (ApproveEventView.post 4 200 reject_null_reason 1 dinner_db))
     = Some (EventApprover.mk 1 1 4 EventApprover.PENDING None EmptyString)
  /\ status_of 1 (fst (ApproveEventView.post 4 200 reject_null_reason 1 dinner_db))
     = Some Event.PENDING.
Proof.
  split; [reflexivity|]. split; [reflexivity|]. split; [discriminate|].
  split; [reflexivity|]. split; reflexivity.
Qed.

(* ================================================================== *)
(** ** More on event creation *)

Lemma forallb_differs (u : Z) (l : list Z) :
  forallb (fun x => negb (x =? u)) l = negb (mem u l).
Proof.
  unfold mem. induction l as [|x l IH]; simpl; [reflexivity|].
  rewrite IH, negb_orb, (Z.eqb_sym x u). reflexivity.
Qed.

Lemma forallb_pointwise {A} (f g : A -> bool) (l : list A) :
  (forall x, f x = g x) -> forallb f l = forallb g l.
Proof.
  intros H. induction l as [|x l IH]; simpl; [reflexivity|].
  now rewrite H, IH.
Qed.

(** *** A loop of inserts, each with its checks *)

Section CheckedLoop.

Variable body : Z -> M unit.
Variable ok : Z -> DB -> bool.

Hypothesis body_ok :
  forall u db,
    ok u db = true ->
    snd (body u db) = inr tt
    /\ forall x, ok x (fst (body u db)) = ok x db && negb (x =? u).

Hypothesis body_fail :
  forall u db, ok u db = false -> body u db = (db, inl IntegrityError).

Lemma loop_verdict (l : list Z) :
  forall db,
    snd (for_each l body db)
    = if distinct l && forallb (fun u => ok u db) l
      then inr tt else inl IntegrityError.
Proof.
  induction l as [|u l IH]; intros db; [reflexivity|].
  simpl. unfold bind.
  destruct (ok u db) eqn:Eok.
  - destruct (body_ok u db Eok) as [Hres Hnext].
    destruct (body u db) as [db1 [e|[]]]; simpl in *; [discriminate|].
    rewrite IH.
    assert (forallb (fun x => ok x db1) l
            = forallb (fun x => ok x db) l && negb (mem u l)) as ->.
    { rewrite <- forallb_differs.
      clear -Hnext. induction l as [|x l IHl]; simpl; [reflexivity|].
      rewrite IHl, Hnext.
      destruct (ok x db), (negb (x =? u)), (forallb (fun x0 => ok x0 db) l),
        (forallb (fun x0 => negb (x0 =? u)) l); reflexivity. }
    destruct (mem u l), (distinct l), (forallb (fun x => ok x db) l); reflexivity.
  - rewrite (body_fail u db Eok). simpl.
    now rewrite andb_false_r.
Qed.

End CheckedLoop.

Lemma participant_create_checked (eid u : Z) (db : DB) :
  (participant_ok eid u db = true ->
   snd (ORM.EventParticipant_create eid u db) = inr tt
   /\ forall x, participant_ok eid x (fst (ORM.EventParticipant_create eid u db))
                = participant_ok eid x db && negb (x =? u))
  /\ (participant_ok eid u db = false ->
      ORM.EventParticipant_create eid u db = (db, inl IntegrityError)).
Proof.
  unfold participant_ok, ORM.EventParticipant_create.
  destruct (mem u (users db)); simpl; [|split; [discriminate | reflexivity]].
  destruct (existsb _ (event_participants db)) eqn:E; simpl;
    [split; [discriminate | reflexivity]|].
  split; [|discriminate]. intros _. split; [reflexivity|].
  intros x. rewrite existsb_app. simpl.
  rewrite Z.eqb_refl, orb_false_r, negb_orb, (Z.eqb_sym u x), andb_assoc.
  reflexivity.
Qed.

Lemma approver_create_checked (eid u : Z) (db : DB) :
  (approver_ok eid u db = true ->
   snd (ORM.EventApprover_create eid u db) = inr tt
   /\ forall x, approver_ok eid x (fst (ORM.EventApprover_create eid u db))
                = approver_ok eid x db && negb (x =? u))
  /\ (approver_ok eid u db = false ->
      ORM.EventApprover_create eid u db = (db, inl IntegrityError)).
Proof.
  unfold approver_ok, ORM.EventApprover_create.
  destruct (mem u (users db)); simpl; [|split; [discriminate | reflexivity]].
  destruct (existsb _ (event_approvers db)) eqn:E; simpl;
    [split; [discriminate | reflexivity]|].
  split; [|discriminate]. intros _. split; [reflexivity|].
  intros x. rewrite existsb_app. simpl.
  rewrite Z.eqb_refl, orb_false_r, negb_orb, (Z.eqb_sym u x), andb_assoc.
  reflexivity.
Qed.

Lemma participants_loop_verdict (eid : Z) (l : list Z) (db : DB) :
  snd (for_each l (fun uid => ORM.EventParticipant_create eid uid) db)
  = if distinct l && forallb (fun u => participant_ok eid u db) l
    then inr tt else inl IntegrityError.
Proof.
  apply (loop_verdict _ (participant_ok eid)).
  - intros u d. apply (proj1 (participant_create_checked eid u d)).
  - intros u d. apply (proj2 (participant_create_checked eid u d)).
Qed.

Lemma approvers_loop_verdict (eid : Z) (l : list Z) (db : DB) :
  snd (for_each l (fun aid => ORM.EventApprover_create eid aid) db)
  = if distinct l && forallb (fun u => approver_ok eid u db) l
    then inr tt else inl IntegrityError.
Proof.
  apply (loop_verdict _ (approver_ok eid)).
  - intros u d. apply (proj1 (approver_create_checked eid u d)).
  - intros u d. apply (proj2 (approver_create_checked eid u d)).
Qed.

(** No row points to an event key that was not handed out yet. *)
Lemma no_rows_beyond_seq (db : DB) (eid : Z) :
  WF db -> event_seq db < eid ->
  participants_of eid db = [] /\ approvers_of eid db = [].
Proof.
  intros Hwf Hlt. split; apply filter_nil_iff.
  - intros p Hp. apply Z.eqb_neq. intros He.
    pose proof (wf_participant_fk _ Hwf p Hp) as Hfk.
    apply in_map_iff in Hfk. destruct Hfk as [e [Hid Hin]].
    pose proof (wf_event_seq _ Hwf e Hin). lia.
  - intros a Ha. apply Z.eqb_neq. intros He.
    pose proof (wf_approver_fk _ Hwf a Ha) as Hfk.
    apply in_map_iff in Hfk. destruct Hfk as [e [Hid Hin]].
    pose proof (wf_event_seq _ Hwf e Hin). lia.
Qed.

Lemma existsb_pair_nil {A} (f g : A -> Z) (eid u : Z) (l : list A) :
  filter (fun r => f r =? eid) l = [] ->
  existsb (fun r => (f r =? eid) && (g r =? u)) l = false.
Proof.
  intros H. destruct (existsb _ l) eqn:E; [|reflexivity].
  apply existsb_exists in E. destruct E as [r [Hr Hm]].
  apply andb_true_iff in Hm. destruct Hm as [H1 _].
  pose proof (proj1 (filter_nil_iff _ _ _) H r Hr) as Hf. simpl in Hf. congruence.
Qed.

(** The participant loop writes nothing but participant rows. *)
Lemma participants_loop_frame (eid : Z) (l : list Z) (d0 : DB) :
  preserves (fun d => users d = users d0
                      /\ event_approvers d = event_approvers d0
                      /\ events d = events d0)
            (for_each l (fun uid => ORM.EventParticipant_create eid uid)).
Proof.
  apply preserves_for_each. intros u db H. unfold ORM.EventParticipant_create.
  destruct (negb _); [exact H|]. destruct (existsb _ _); exact H.
Qed.

Lemma create_raises (user now : Z) vd (db : DB) :
  WF db ->
  raised (EventSerializer.create user now vd db) = create_verdict db user vd.
Proof.
  intros Hwf. unfold raised, create_verdict. rewrite create_eq. cbv zeta.
  change (Event.id (new_event user now vd db)) with (event_seq db + 1).
  set (ps := add_creator user (EventSerializer.participant_ids vd)).
  set (aids := match EventSerializer.approver_ids vd with
               | Some l => l
               | None => []
               end).
  set (db0 := with_event db (new_event user now vd db)).
  destruct (no_rows_beyond_seq db (event_seq db + 1) Hwf ltac:(lia)) as [Hp Ha].
  assert (forall u, participant_ok (event_seq db + 1) u db0 = mem u (users db))
    as Hpok.
  { intros u. unfold participant_ok, db0. simpl.
    rewrite (existsb_pair_nil EventParticipant.event EventParticipant.user _ _ _ Hp).
    apply andb_true_r. }
  pose proof (participants_loop_verdict (event_seq db + 1) ps db0) as Hloop.
  rewrite (forallb_pointwise _ _ ps Hpok) in Hloop. fold (valid_ids (users db) ps) in Hloop.
  pose proof (participants_loop_frame (event_seq db + 1) ps db0 db0
                (conj eq_refl (conj eq_refl eq_refl))) as [Hu [Hap _]].
  unfold create_rows, bind.
  destruct (for_each ps _ db0) as [db2 [e|[]]]; simpl in *.
  - destruct (valid_ids (users db) ps); [discriminate|].
    simpl. now inversion Hloop.
  - destruct (valid_ids (users db) ps); [|discriminate]. simpl.
    destruct (1 <? Z.of_nat (List.length ps)); [|reflexivity].
    destruct (EventSerializer.is_empty aids); [reflexivity|].
    assert (forall u, approver_ok (event_seq db + 1) u db2 = mem u (users db))
      as Haok.
    { intros u. unfold approver_ok. rewrite Hu, Hap. unfold db0. simpl.
      rewrite (existsb_pair_nil EventApprover.event EventApprover.approver _ _ _ Ha).
      apply andb_true_r. }
    pose proof (approvers_loop_verdict (event_seq db + 1) aids db2) as Hloop2.
    rewrite (forallb_pointwise _ _ aids Haok) in Hloop2.
    fold (valid_ids (users db) aids) in Hloop2.
    destruct (for_each aids _ db2) as [db3 [e|[]]]; simpl in *.
    + destruct (valid_ids (users db) aids); [discriminate|].
      simpl. now inversion Hloop2.
    + destruct (valid_ids (users db) aids); [reflexivity | discriminate].
Qed.

(** *** The rows a successful creation stores *)

Lemma participants_loop_stored (eid : Z) (l : list Z) :
  forall db db',
    for_each l (fun uid => ORM.EventParticipant_create eid uid) db = (db', inr tt) ->
    map EventParticipant.user (participants_of eid db')
    = map EventParticipant.user (participants_of eid db) ++ l
    /\ event_approvers db' = event_approvers db.
Proof.
  induction l as [|u l IH]; intros db db' Hrun.
  - inversion Hrun. subst. now rewrite app_nil_r.
  - simpl in Hrun. unfold bind in Hrun.
    destruct (ORM.EventParticipant_create eid u db) as [db1 [e|[]]] eqn:E;
      [discriminate|].
    destruct (IH db1 db' Hrun) as [Hrows Happ].
    unfold ORM.EventParticipant_create in E.
    destruct (negb _); [discriminate|].
    destruct (existsb _ _); [discriminate|].
    inversion E. subst db1. clear E.
    rewrite Hrows, Happ. split; [|reflexivity].
    unfold participants_of. simpl.
    rewrite filter_app. simpl. rewrite Z.eqb_refl.
    rewrite map_app. simpl. now rewrite <- app_assoc.
Qed.

Lemma approvers_loop_stored (eid : Z) (l : list Z) :
  forall db db',
    for_each l (fun aid => ORM.EventApprover_create eid aid) db = (db', inr tt) ->
    exists rows,
      approvers_of eid db' = approvers_of eid db ++ rows
      /\ map EventApprover.approver rows = l
      /\ Forall (pristine eid) rows
      /\ event_participants db' = event_participants db.
Proof.
  induction l as [|u l IH]; intros db db' Hrun.
  - inversion Hrun. subst. exists []. rewrite app_nil_r. repeat split. constructor.
  - simpl in Hrun. unfold bind in Hrun.
    destruct (ORM.EventApprover_create eid u db) as [db1 [e|[]]] eqn:E;
      [discriminate|].
    destruct (IH db1 db' Hrun) as [rows [Hrows [Hmap [Hpr Hpart]]]].
    unfold ORM.EventApprover_create in E.
    destruct (negb _); [discriminate|].
    destruct (existsb _ _); [discriminate|].
    inversion E. subst db1. clear E.
    exists (EventApprover.mk (approver_seq db + 1) eid u EventApprover.PENDING
                             None EmptyString :: rows).
    rewrite Hrows, Hpart. unfold approvers_of. simpl.
    rewrite filter_app. simpl. rewrite Z.eqb_refl, <- app_assoc. simpl.
    repeat split; try reflexivity.
    + now rewrite Hmap.
    + constructor; [repeat split | assumption].
Qed.

Lemma create_rows_stored (eid : Z) (ps aids : list Z) (db db' : DB) :
  create_rows eid ps aids db = (db', inr tt) ->
  participants_of eid db = [] -> approvers_of eid db = [] ->
  map EventParticipant.user (participants_of eid db') = ps
  /\ map EventApprover.approver (approvers_of eid db')
     = (if 1 <? Z.of_nat (List.length ps) then aids else [])
  /\ Forall (pristine eid) (approvers_of eid db').
Proof.
  intros Hrun Hp Ha. unfold create_rows, bind in Hrun.
  destruct (for_each ps _ db) as [db1 [e|[]]] eqn:E1; [discriminate|].
  destruct (participants_loop_stored eid ps db db1 E1) as [Hrows Happ].
  rewrite Hp in Hrows. simpl in Hrows.
  assert (approvers_of eid db1 = []) as Ha1
      by (unfold approvers_of in *; now rewrite Happ).
  destruct (1 <? Z.of_nat (List.length ps)).
  - destruct (EventSerializer.is_empty aids); [discriminate|].
    destruct (approvers_loop_stored eid aids db1 db' Hrun)
      as [rows [Hr [Hmap [Hpr Hpart]]]].
    rewrite Ha1 in Hr. simpl in Hr. rewrite Hr.
    split; [|split; assumption].
    unfold participants_of in *. now rewrite Hpart.
  - inversion Hrun. subst db'. rewrite Ha1. repeat split; try assumption.
    constructor.
Qed.

Lemma create_stored (user now : Z) vd (db db' : DB) (ev : Event.t) :
  WF db ->
  EventSerializer.create user now vd db = (db', inr ev) ->
  let ps := add_creator user (EventSerializer.participant_ids vd) in
  Event.id ev = event_seq db + 1
  /\ map EventParticipant.user (participants_of (Event.id ev) db') = ps
  /\ map EventApprover.approver (approvers_of (Event.id ev) db')
     = (if 1 <? Z.of_nat (List.length ps)
        then match EventSerializer.approver_ids vd with
             | Some l => l
             | None => []
             end
        else [])
  /\ Forall (pristine (Event.id ev)) (approvers_of (Event.id ev) db').
Proof.
  intros Hwf Hcreate ps.
  pose proof (create_returns _ _ _ _ _ _ Hcreate) as Hev.
  rewrite create_eq in Hcreate. cbv zeta in Hcreate.
  destruct (create_rows _ _ _ _) as [db2 [e|[]]] eqn:E; [discriminate|].
  injection Hcreate as Hdb Hevq. subst db2. clear Hevq. subst ev.
  change (Event.id (new_event user now vd db)) with (event_seq db + 1) in *.
  split; [reflexivity|].
  destruct (no_rows_beyond_seq db (event_seq db + 1) Hwf ltac:(lia)) as [Hp Ha].
  apply (create_rows_stored _ _ _ _ _ E); assumption.
Qed.

Lemma add_creator_has_creator (user : Z) (l : list Z) :
  In user (add_creator user l).
Proof.
  unfold add_creator. destruct (mem user l) eqn:E; simpl.
  - now apply mem_In.
  - apply in_or_app. right. now left.
Qed.

Lemma create_rows_other_event (pk eid : Z) (ps aids : list Z) (d0 : DB) :
  pk <> eid ->
  preserves (fun d => participants_of pk d = participants_of pk d0
                      /\ approvers_of pk d = approvers_of pk d0)
            (create_rows eid ps aids).
Proof.
  intros Hne. apply not_eq_sym, Z.eqb_neq in Hne.
  apply preserves_create_rows; intros u db [H1 H2].
  - unfold ORM.EventParticipant_create.
    destruct (negb _); [now split|]. destruct (existsb _ _); [now split|].
    split; [|exact H2]. unfold participants_of in *. simpl.
    rewrite filter_app. simpl. now rewrite Hne, app_nil_r.
  - unfold ORM.EventApprover_create.
    destruct (negb _); [now split|]. destruct (existsb _ _); [now split|].
    split; [exact H1|]. unfold approvers_of in *. simpl.
    rewrite filter_app. simpl. now rewrite Hne, app_nil_r.
Qed.

(** C5, as the code has it.  On a consistent database, for a creator who
    is a user: when the participants with the creator are more than one
    and the request has no approver id, the creation fails, with the
    validation error when the participant ids are pairwise different and
    every one is a user, and with IntegrityError, raised by the
    participant loop before the approvers are looked at, when an id is
    repeated or is no user; when the creator is the only participant, the
    creation succeeds and the event is stored. *)
Theorem C5_shared_event_needs_an_approver
        (db : DB) (user now : Z) (vd : EventSerializer.validated_data)
        (Hwf : well_formed db = true)
        (Huser : mem user (users db) = true) :
  let ps := add_creator user (EventSerializer.participant_ids vd) in
  let r := EventSerializer.create user now vd db in
  (1 < Z.of_nat (List.length ps) ->
   EventSerializer.is_empty
     (match EventSerializer.approver_ids vd with Some l => l | None => [] end)
   = true ->
   snd r = inl (if distinct ps && forallb (fun u => mem u (users db)) ps
                then ValidationError "At least one approver must be specified."
                else IntegrityError))
  /\ (List.length ps = 1%nat ->
      exists ev, snd r = inr ev /\ lookup_event (Event.id ev) (fst r) = Some ev).
Proof.
  intros ps r.
  pose proof (proj1 (well_formed_WF db) Hwf) as HWF.
  pose proof (create_raises user now vd db HWF) as Hraised.
  unfold raised, create_verdict in Hraised. cbv zeta in Hraised.
  fold ps in Hraised. fold r in Hraised. unfold valid_ids in Hraised.
  split.
  - intros Hlen Hempty. apply Z.ltb_lt in Hlen.
    rewrite Hlen, Hempty in Hraised.
    destruct (distinct ps && forallb (fun u => mem u (users db)) ps);
      simpl in Hraised; destruct (snd r) as [e|ev]; congruence.
  - intros Hlen.
    assert (ps = [user]) as Hps by now apply add_creator_singleton.
    rewrite Hps in Hraised. simpl in Hraised. rewrite Huser in Hraised.
    simpl in Hraised.
    destruct (snd r) as [e|ev] eqn:Hsnd; [discriminate|].
    exists ev. split; [reflexivity|].
    apply (created_event_stored db (fst r) user now vd ev HWF).
    unfold r in *. destruct (EventSerializer.create user now vd db) as [d x].
    simpl in *. now subst.
Qed.

(** X1.  On a consistent database the exception a creation ends with is
    told by the request and the user table alone: IntegrityError when
    the participants with the creator repeat an id or name an unknown
    user; else, for more than one participant, the validation error when
    there is no approver id and IntegrityError when the approver ids
    repeat an id or name an unknown user; no exception otherwise. *)
Theorem X1_create_raises_what_the_ids_tell
        (db : DB) (user now : Z) (vd : EventSerializer.validated_data)
        (Hwf : well_formed db = true) :
  raised (EventSerializer.create user now vd db) = create_verdict db user vd.
Proof. apply create_raises. now apply well_formed_WF. Qed.

(** C5 on the family: inviting user 2 without approver ids is refused
    with the validation error; the solo request is accepted. *)
Lemma C5_family_requests :
  well_formed family_db = true
  /\ snd (EventSerializer.create 1 100 shared_request_without_approvers family_db)
     = inl (ValidationError "At least one approver must be specified.")
  /\ exists ev,
      snd (EventSerializer.create 1 100 solo_request family_db) = inr ev
      /\ lookup_event (Event.id ev)
                      (fst (EventSerializer.create 1 100 solo_request family_db))
         = Some ev.
Proof.
  split; [reflexivity|]. split.
  - apply (C5_shared_event_needs_an_approver
             family_db 1 100 shared_request_without_approvers eq_refl eq_refl);
      reflexivity.
  - apply (C5_shared_event_needs_an_approver
             family_db 1 100 solo_request eq_refl eq_refl).
    reflexivity.
Defined.

(** Against C5 as the specification states it.  User 1 of the family
    invites user 2 twice, or an id that is no user, without approver ids:
    the participants with the creator are more than one and there is no
    approver id, yet the creation does not end with the validation error
    but with IntegrityError, and the event row it had written stays. *)
Lemma C5_integrity_error_before_approver_check :
  well_formed family_db = true
  /\ 1 < Z.of_nat (List.length
                     (add_creator 1 (EventSerializer.participant_ids
                                       repeated_request_without_approvers)))
  /\ EventSerializer.approver_ids repeated_request_without_approvers = None
  /\ snd (EventSerializer.create 1 100 repeated_request_without_approvers family_db)
     = inl IntegrityError
  /\ add_creator 1 (EventSerializer.participant_ids
                      stranger_request_without_approvers) = [99; 1]
  /\ EventSerializer.approver_ids stranger_request_without_approvers = None
  /\ snd (EventSerializer.create 1 100 stranger_request_without_approvers family_db)
     = inl IntegrityError
  /\ map Event.id
         (events (fst (EventSerializer.create
                         1 100 stranger_request_without_approvers family_db)))
     = [1].
Proof. repeat split. Qed.

(** X2.  On a consistent database a creation that succeeds stores one
    participant row for every id of the request, in the order of the
    request, and one for the creator at the end when the request does not
    name them: the creator is always a participant. *)
Theorem X2_created_event_has_its_participants
        (db db' : DB) (user now : Z) (vd : EventSerializer.validated_data)
        (ev : Event.t)
        (Hwf : well_formed db = true)
        (Hcreate : EventSerializer.create user now vd db = (db', inr ev)) :
  map EventParticipant.user (participants_of (Event.id ev) db')
  = add_creator user (EventSerializer.participant_ids vd)
  /\ In user (map EventParticipant.user (participants_of (Event.id ev) db')).
Proof.
  apply well_formed_WF in Hwf.
  destruct (create_stored user now vd db db' ev Hwf Hcreate) as [_ [Hp _]].
  rewrite Hp. split; [reflexivity | apply add_creator_has_creator].
Qed.

(** X3.  On a consistent database a creation that succeeds stores the
    approver ids of the request, in their order, as PENDING rows without
    decision time or reason when the event has more than one participant,
    and stores no approver row at all when the creator is the only
    participant, whatever approver ids the request carries. *)
Theorem X3_created_event_has_pending_approvers
        (db db' : DB) (user now : Z) (vd : EventSerializer.validated_data)
        (ev : Event.t)
        (Hwf : well_formed db = true)
        (Hcreate : EventSerializer.create user now vd db = (db', inr ev)) :
  map EventApprover.approver (approvers_of (Event.id ev) db')
  = (if 1 <? Z.of_nat (List.length
                         (add_creator user (EventSerializer.participant_ids vd)))
     then match EventSerializer.approver_ids vd with
          | Some l => l
          | None => []
          end
     else [])
  /\ Forall (pristine (Event.id ev)) (approvers_of (Event.id ev) db').
Proof.
  apply well_formed_WF in Hwf.
  destruct (create_stored user now vd db db' ev Hwf Hcreate) as [_ [_ H]].
  exact H.
Qed.

(** X4.  A creation, successful or not, adds one event row with the
    next key and touches nothing that belongs to another key: the event
    found under any other key, its participant rows and its approver
    rows are the same before and after, and so are the users and the
    notifications. *)
Theorem X4_create_leaves_other_events_alone
        (db : DB) (user now pk : Z) (vd : EventSerializer.validated_data)
        (Hpk : pk <> event_seq db + 1) :
  let db' := fst (EventSerializer.create user now vd db) in
  events db' = events db ++ [new_event user now vd db]
  /\ lookup_event pk db' = lookup_event pk db
  /\ participants_of pk db' = participants_of pk db
  /\ approvers_of pk db' = approvers_of pk db
  /\ users db' = users db
  /\ notifications db' = notifications db.
Proof.
  intros db'. subst db'.
  destruct (create_events user now vd db) as [Hev [Hn [Hu _]]].
  split; [assumption|]. split; [|split; [|split; [|split; assumption]]].
  - unfold lookup_event. rewrite Hev, find_app.
    destruct (find _ (events db)); [reflexivity|]. simpl.
    apply Z.eqb_neq in Hpk. now rewrite Z.eqb_sym, Hpk.
  - rewrite create_fst.
    now apply (create_rows_other_event pk (event_seq db + 1) _ _
                 (with_event db (new_event user now vd db)) Hpk).
  - rewrite create_fst.
    now apply (create_rows_other_event pk (event_seq db + 1) _ _
                 (with_event db (new_event user now vd db)) Hpk).
Qed.

(* ================================================================== *)
(** ** More on decisions *)

Lemma find_replace_other {A} (p : A -> bool) (l1 l2 : list A) (x x' : A) :
  p x = false -> p x' = false ->
  find p (l1 ++ x' :: l2) = find p (l1 ++ x :: l2).
Proof.
  intros Hx Hx'. rewrite !find_app. simpl. now rewrite Hx, Hx'.
Qed.

(** X5.  On a consistent database a decision of [user] on event [eid],
    whatever it answers, leaves the users, the participants, the
    notifications and the sequences as they are, leaves every approver
    row of another event or another user as it is, leaves every other
    event as it is, and changes at most the status of the event
    itself. *)
Theorem X5_decide_touches_one_row_and_one_status
        (db : DB) (user now eid : Z) (rd : ApproveEventView.request_data)
        (Hwf : well_formed db = true) :
  let db' := fst (ApproveEventView.post user now rd eid db) in
  users db' = users db
  /\ event_participants db' = event_participants db
  /\ notifications db' = notifications db
  /\ (event_seq db', participant_seq db', approver_seq db')
     = (event_seq db, participant_seq db, approver_seq db)
  /\ (forall eid' user',
         (eid', user') <> (eid, user) ->
         approver_row eid' user' db' = approver_row eid' user' db)
  /\ (forall pk, pk <> eid -> lookup_event pk db' = lookup_event pk db)
  /\ (exists s, lookup_event eid db'
                = option_map (fun e => Event.with_status e s) (lookup_event eid db)).
Proof.
  apply well_formed_WF in Hwf. intros db'. subst db'.
  destruct (post_cases user now rd eid db Hwf)
    as [[_ ->]|[[a [_ [_ ->]]]|[[a [_ [_ [_ ->]]]]|[a [e [Hrow [Hpend [Hev ->]]]]]]]]; simpl.
  - repeat split; try reflexivity.
    destruct (lookup_event eid db) as [e|]; [|exists Event.PENDING; reflexivity].
    exists (Event.status e). simpl. now rewrite event_with_own_status.
  - repeat split; try reflexivity.
    destruct (lookup_event eid db) as [e|]; [|exists Event.PENDING; reflexivity].
    exists (Event.status e). simpl. now rewrite event_with_own_status.
  - repeat split; try reflexivity.
    destruct (lookup_event eid db) as [e|]; [|exists Event.PENDING; reflexivity].
    exists (Event.status e). simpl. now rewrite event_with_own_status.
  - destruct (approver_row_Some _ _ _ _ Hrow) as [Hin [Hae Hau]].
    pose proof (decided_row_id a now rd) as Hid'.
    pose proof (decided_row_key a now rd) as Hk.
    revert Hid' Hk. generalize (decided_row a now rd). intros a' Hid' Hk.
    destruct (after_decision_approvers db a a' eid (Event.status e) Hwf Hin Hid')
      as [l1 [l2 [E1 [E2 _]]]].
    split; [reflexivity|]. split; [reflexivity|]. split; [reflexivity|].
    split; [reflexivity|]. split; [|split].
    + intros eid' user' Hne. unfold approver_row. rewrite E2, E1.
      assert ((EventApprover.event a =? eid')
              && (EventApprover.approver a =? user') = false) as Hfa.
      { destruct ((EventApprover.event a =? eid')
                  && (EventApprover.approver a =? user')) eqn:E; [|reflexivity].
        apply andb_true_iff in E. destruct E as [H1 H2].
        apply Z.eqb_eq in H1. apply Z.eqb_eq in H2.
        exfalso. apply Hne. congruence. }
      apply find_replace_other; [assumption|].
      unfold approver_key in Hk. inversion Hk as [[Hk1 Hk2]].
      now rewrite Hk1, Hk2.
    + intros pk Hne. rewrite after_decision_lookup.
      destruct (lookup_event pk db) as [e0|] eqn:He0; [|reflexivity]. simpl.
      destruct (lookup_event_Some _ _ _ He0) as [_ ->].
      apply Z.eqb_neq in Hne. now rewrite Hne.
    + rewrite after_decision_lookup, Hev. simpl.
      destruct (lookup_event_Some _ _ _ Hev) as [_ ->]. rewrite Z.eqb_refl.
      eexists. reflexivity.
Qed.

(** X6.  On a consistent database, when the caller has a PENDING row
    for the event and sends the decision approve, the response is 200
    with APPROVED, and the row is stored as APPROVED with the decision
    time; its rejection reason is the one it had: a reason sent with an
    approval is dropped. *)
Theorem X6_approve_records_time_and_drops_reason
        (db : DB) (user now eid : Z) (reason : option ApproveEventView.json_text)
        (a : EventApprover.t)
        (Hwf : well_formed db = true)
        (Hrow : approver_row eid user db = Some a)
        (Hpend : EventApprover.status a = EventApprover.PENDING) :
  let r := ApproveEventView.post user now
             (ApproveEventView.mk_request (Some "approve"%string) reason) eid db in
  snd r = inr (mkResponse 200 (ApproverStatus EventApprover.APPROVED))
  /\ approver_row eid user (fst r)
     = Some (EventApprover.mk (EventApprover.id a) eid user EventApprover.APPROVED
               (Some now) (EventApprover.rejection_reason a)).
Proof.
  apply well_formed_WF in Hwf. intros r. subst r.
  set (rd := ApproveEventView.mk_request (Some "approve"%string) reason).
  destruct (post_recorded user now rd eid db a Hwf Hrow Hpend eq_refl)
    as [e [Hev ->]].
  destruct (approver_row_Some _ _ _ _ Hrow) as [Hin [He Hu]].
  assert (decided_row a now rd
          = EventApprover.mk (EventApprover.id a) eid user EventApprover.APPROVED
              (Some now) (EventApprover.rejection_reason a)) as Hrowval.
  { unfold decided_row, rd. simpl.
    unfold EventApprover.with_status, EventApprover.with_decision_time. simpl.
    subst eid user. reflexivity. }
  cbn [fst snd].
  pose proof (after_decision_WF db a _ eid (Event.status e) Hwf Hin
                (decided_row_id a now rd) (decided_row_key a now rd)) as Hwf'.
  destruct (after_decision_approvers db a _ eid (Event.status e) Hwf Hin
              (decided_row_id a now rd)) as [l1 [l2 [_ [E2 _]]]].
  assert (In (decided_row a now rd)
             (event_approvers
                (after_decision db (decided_row a now rd) eid (Event.status e))))
    as Hin'.
  { rewrite E2. apply in_or_app. right. now left. }
  split.
  - now rewrite Hrowval.
  - pose proof (approver_row_In _ _ Hwf' Hin') as Hfind.
    assert (EventApprover.event (decided_row a now rd) = eid) as E1
        by now rewrite Hrowval.
    assert (EventApprover.approver (decided_row a now rd) = user) as E3
        by now rewrite Hrowval.
    rewrite E1, E3 in Hfind. rewrite Hfind. f_equal. exact Hrowval.
Qed.

(* ================================================================== *)
(** ** The life of an approver row *)

Lemma forallb_filter_keeps {A} (p q : A -> bool) (l : list A) :
  forallb p l = true -> forallb p (filter q l) = true.
Proof.
  rewrite !forallb_forall. intros H x Hx. apply filter_In in Hx. now apply H.
Qed.

Lemma update_tables (pk now : Z) vd (db : DB) :
  let db' := fst (EventUpdate.update pk now vd db) in
  event_approvers db' = event_approvers db
  /\ approver_seq db' = approver_seq db
  /\ event_participants db' = event_participants db
  /\ event_seq db' = event_seq db.
Proof.
  unfold EventUpdate.update, bind, EventDetailView.get_object, ORM.Event_get,
    get_unique, raise, ret.
  destruct (filter _ (events db)) as [|e [|e2 l]]; simpl; repeat split.
Qed.

Lemma decided_row_lifecycle a now rd :
  lifecycle_ok a = true -> EventApprover.status a = EventApprover.PENDING ->
  lifecycle_ok (decided_row a now rd) = true.
Proof.
  unfold lifecycle_ok, decided_row. intros Hok Hpend. rewrite Hpend in Hok.
  destruct (EventApprover.decision_time a); [discriminate|].
  destruct (ApproveEventView.is_approve _); simpl; [assumption | reflexivity].
Qed.

Lemma handle_lifecycle (r : request) (db : DB) :
  WF db ->
  forallb lifecycle_ok (event_approvers db) = true ->
  forallb lifecycle_ok (event_approvers (handle r db)) = true.
Proof.
  intros Hwf Hok.
  destruct r as [user now vd|user now rd eid|pk|pk now vd]; simpl.
  - rewrite create_fst.
    apply (preserves_create_rows
             (fun d => forallb lifecycle_ok (event_approvers d) = true)).
    + intros u d H. unfold ORM.EventParticipant_create.
      destruct (negb _); [exact H|]. destruct (existsb _ _); exact H.
    + intros u d H. unfold ORM.EventApprover_create.
      destruct (negb _); [exact H|]. destruct (existsb _ _); [exact H|].
      simpl. rewrite forallb_app, H. reflexivity.
    + exact Hok.
  - destruct (post_cases user now rd eid db Hwf)
      as [[_ ->]|[[a [_ [_ ->]]]|[[a [_ [_ [_ ->]]]]|[a [e [Hrow [Hpend [Hev ->]]]]]]]]; simpl;
      try assumption.
    destruct (approver_row_Some _ _ _ _ Hrow) as [Hin _].
    destruct (after_decision_approvers db a (decided_row a now rd) eid
                (Event.status e) Hwf Hin (decided_row_id a now rd))
      as [l1 [l2 [E1 [E2 _]]]].
    unfold after_decision in E2. simpl in E2. rewrite E2.
    rewrite E1, forallb_app in Hok. simpl in Hok.
    apply andb_true_iff in Hok. destruct Hok as [H1 H2].
    apply andb_true_iff in H2. destruct H2 as [Ha H2].
    rewrite forallb_app. simpl.
    now rewrite H1, H2, (decided_row_lifecycle a now rd Ha Hpend).
  - destruct (delete_cases pk db Hwf)
      as [[_ ->]|[[e [_ [_ ->]]]|[e [_ [_ ->]]]]]; simpl; try assumption.
    now apply forallb_filter_keeps.
  - destruct (update_tables pk now vd db) as [-> _]. assumption.
Qed.

(** X7.  Whatever requests run from empty tables, every approver row is
    PENDING with no decision time and no reason, or APPROVED with a
    decision time and no reason, or REJECTED with a decision time;
    EXPIRED is never the status of a row. *)
Theorem X7_approver_rows_follow_their_lifecycle
        (rs : list request) (us : list Z) :
  forallb lifecycle_ok (event_approvers (run rs (empty_db us))) = true.
Proof.
  assert (forall db, WF db ->
                     forallb lifecycle_ok (event_approvers db) = true ->
                     forallb lifecycle_ok (event_approvers (run rs db)) = true)
    as H.
  { induction rs as [|r rs IH]; intros db Hwf Hok; [assumption|].
    simpl. apply IH; [now apply handle_WF | now apply handle_lifecycle]. }
  apply H; [|reflexivity].
  apply well_formed_WF. reflexivity.
Qed.

Lemma kept_or_removed_create_rows (a : EventApprover.t) (eid : Z)
      (ps aids : list Z) :
  preserves (kept_or_removed a) (create_rows eid ps aids).
Proof.
  apply preserves_create_rows; intros u d H.
  - unfold ORM.EventParticipant_create.
    destruct (negb _); [exact H|]. destruct (existsb _ _); exact H.
  - unfold ORM.EventApprover_create.
    destruct (negb _); [exact H|]. destruct (existsb _ _); [exact H|].
    unfold kept_or_removed in *. simpl.
    destruct H as [Hin|[Hle Hnot]].
    + left. apply in_or_app. now left.
    + right. split; [lia|]. rewrite map_app. simpl. intros Hin.
      apply in_app_or in Hin. destruct Hin as [Hin|[Hin|[]]]; [contradiction | lia].
Qed.

Lemma handle_kept_or_removed (a : EventApprover.t) (r : request) (db : DB) :
  WF db -> EventApprover.status a <> EventApprover.PENDING ->
  kept_or_removed a db -> kept_or_removed a (handle r db).
Proof.
  intros Hwf Hdec Hk.
  destruct r as [user now vd|user now rd eid|pk|pk now vd]; simpl.
  - rewrite create_fst. now apply kept_or_removed_create_rows.
  - destruct (post_cases user now rd eid db Hwf)
      as [[_ ->]|[[a0 [_ [_ ->]]]|[[a0 [_ [_ [_ ->]]]]|[a0 [e [Hrow [Hpend [Hev ->]]]]]]]]; simpl;
      try assumption.
    destruct (approver_row_Some _ _ _ _ Hrow) as [Hin0 _].
    destruct (after_decision_approvers db a0 (decided_row a0 now rd) eid
                (Event.status e) Hwf Hin0 (decided_row_id a0 now rd))
      as [l1 [l2 [E1 [E2 _]]]].
    unfold kept_or_removed in *. rewrite E2.
    change (approver_seq (after_decision db (decided_row a0 now rd) eid
                                         (Event.status e)))
      with (approver_seq db).
    rewrite E1 in Hk. destruct Hk as [Hin|[Hle Hnot]].
    + left. apply in_app_or in Hin. apply in_or_app.
      destruct Hin as [Hin|[Hin|Hin]]; [now left | | right; now right].
      subst a0. contradiction.
    + right. split; [assumption|].
      rewrite map_app in *. simpl in *. now rewrite decided_row_id.
  - destruct (delete_cases pk db Hwf)
      as [[_ ->]|[[e [_ [_ ->]]]|[e [_ [_ ->]]]]]; simpl; try assumption.
    unfold kept_or_removed in *. simpl.
    destruct Hk as [Hin|[Hle Hnot]].
    + destruct (EventApprover.event a =? pk) eqn:E.
      * right. split; [now apply (wf_approver_seq _ Hwf)|].
        intros Hid. apply in_map_iff in Hid. destruct Hid as [b [Hb Hbin]].
        apply filter_In in Hbin. destruct Hbin as [Hbin Hbe].
        assert (b = a) as ->.
        { apply (NoDup_key_inj _ _ EventApprover.id (event_approvers db));
            try assumption. apply (wf_approver_pk _ Hwf). }
        rewrite E in Hbe. discriminate.
      * left. apply filter_In. split; [assumption|]. now rewrite E.
    + right. split; [assumption|]. intros Hid. apply Hnot.
      apply in_map_iff in Hid. destruct Hid as [b [Hb Hbin]].
      apply filter_In in Hbin. rewrite <- Hb. apply in_map. tauto.
  - destruct (update_tables pk now vd db) as [Ha [Hs _]].
    unfold kept_or_removed in *. now rewrite Ha, Hs.
Qed.

(** X8.  On a consistent database an approver row that is APPROVED or
    REJECTED is final: after any requests it is in the table exactly as
    it was, or its key is in the table no more (its event was removed). *)
Theorem X8_decided_rows_are_final
        (db : DB) (a : EventApprover.t) (rs : list request)
        (Hwf : well_formed db = true)
        (Hin : In a (event_approvers db))
        (Hdec : EventApprover.status a <> EventApprover.PENDING) :
  In a (event_approvers (run rs db))
  \/ ~ In (EventApprover.id a) (map EventApprover.id (event_approvers (run rs db))).
Proof.
  apply well_formed_WF in Hwf.
  assert (kept_or_removed a (run rs db)) as [H|[_ H]]; [|now left|now right].
  assert (kept_or_removed a db) as Hk by now left.
  clear Hin. revert db Hwf Hk.
  induction rs as [|r rs IH]; intros db Hwf Hk; [assumption|].
  simpl. apply IH; [now apply handle_WF | now apply handle_kept_or_removed].
Qed.

(* ================================================================== *)
(** ** The status of an event and the statuses of its approvers *)

Lemma is_empty_middle {A} (l1 l2 : list A) (x : A) :
  EventSerializer.is_empty (l1 ++ x :: l2) = false.
Proof. now destruct l1. Qed.

(** One PENDING answer becomes APPROVED or REJECTED: the recomputed
    status fits the new statuses. *)
Lemma status_fits_after_decision
      (old : Event.Status) (s1 s2 : list EventApprover.Status)
      (s : EventApprover.Status) :
  s = EventApprover.APPROVED \/ s = EventApprover.REJECTED ->
  status_fits old (s1 ++ EventApprover.PENDING :: s2) = true ->
  status_fits (new_status (s1 ++ s :: s2) old) (s1 ++ s :: s2) = true.
Proof.
  intros Hs. unfold status_fits, new_status.
  rewrite !existsb_app, !forallb_app, !is_empty_middle. simpl.
  destruct Hs as [-> | ->]; simpl;
    destruct (existsb is_rejected s1), (existsb is_rejected s2),
      (forallb is_approved s1), (forallb is_approved s2), old;
    simpl; rewrite ?existsb_app, ?forallb_app, ?is_empty_middle; simpl;
    intros H; try discriminate H; try reflexivity;
    repeat match goal with
           | |- context [existsb is_rejected ?l] =>
               destruct (existsb is_rejected l); simpl
           | |- context [forallb is_approved ?l] =>
               destruct (forallb is_approved l); simpl
           end; try reflexivity; try discriminate.
Qed.

Lemma event_fits_same_rows (db db' : DB) (e : Event.t) :
  approvers_of (Event.id e) db' = approvers_of (Event.id e) db ->
  event_fits db' e = event_fits db e.
Proof. unfold event_fits. now intros ->. Qed.

Lemma forallb_same {A} (f g : A -> bool) (l : list A) :
  (forall x, In x l -> f x = g x) -> forallb f l = forallb g l.
Proof.
  intros H. induction l as [|x l IH]; simpl; [reflexivity|].
  rewrite H by now left. rewrite IH; [reflexivity|].
  intros y Hy. apply H. now right.
Qed.

Lemma post_Fits (user now : Z) rd (eid : Z) (db : DB) :
  Fits db -> Fits (fst (ApproveEventView.post user now rd eid db)).
Proof.
  intros [Hwf Hfit].
  destruct (post_cases user now rd eid db Hwf)
    as [[_ ->]|[[a [_ [_ ->]]]|[[a [_ [_ [_ ->]]]]|[a [e [Hrow [Hpend [Hev ->]]]]]]]]; simpl;
    try (split; assumption).
  destruct (approver_row_Some _ _ _ _ Hrow) as [Hin [Hae Hau]].
  pose proof (decided_row_id a now rd) as Hid'.
  pose proof (decided_row_key a now rd) as Hk.
  assert (EventApprover.status (decided_row a now rd) = EventApprover.APPROVED
          \/ EventApprover.status (decided_row a now rd) = EventApprover.REJECTED)
    as Hst'.
  { rewrite decided_row_status. destruct (ApproveEventView.is_approve _); auto. }
  revert Hid' Hk Hst'. generalize (decided_row a now rd). intros a' Hid' Hk Hst'.
  split; [now apply (after_decision_WF db a)|].
  destruct (after_decision_approvers db a a' eid (Event.status e) Hwf Hin Hid')
    as [l1 [l2 [E1 [E2 _]]]].
  destruct (lookup_event_Some _ _ _ Hev) as [Hine Hide].
  remember (after_decision db a' eid (Event.status e)) as db' eqn:Edb'.
  assert (EventApprover.event a' = eid) as Hae'.
  { unfold approver_key in Hk. inversion Hk. congruence. }
  assert (map EventApprover.status (approvers_of eid db)
          = map EventApprover.status
                (filter (fun r => EventApprover.event r =? eid) l1)
            ++ EventApprover.PENDING
            :: map EventApprover.status
                   (filter (fun r => EventApprover.event r =? eid) l2)) as Hold.
  { unfold approvers_of. rewrite E1, filter_app. simpl.
    rewrite Hae, Z.eqb_refl, map_app. simpl. now rewrite Hpend. }
  assert (map EventApprover.status (approvers_of eid db')
          = map EventApprover.status
                (filter (fun r => EventApprover.event r =? eid) l1)
            ++ EventApprover.status a'
            :: map EventApprover.status
                   (filter (fun r => EventApprover.event r =? eid) l2)) as Hnew.
  { unfold approvers_of. rewrite E2, filter_app. simpl.
    rewrite Hae', Z.eqb_refl, map_app. reflexivity. }
  apply forallb_forall. intros e' He'.
  assert (exists e0, In e0 (events db) /\
                     e' = (if Event.id e0 =? eid
                           then Event.with_status e0
                                  (new_status
                                     (map EventApprover.status (approvers_of eid db'))
                                     (Event.status e))
                           else e0)) as [e0 [Hin0 He0]].
  { rewrite Edb' in He'. unfold after_decision in He'. simpl in He'.
    apply in_map_iff in He'. destruct He' as [e0 [He0 Hin0]].
    exists e0. split; [assumption|]. rewrite Edb'. now symmetry. }
  rewrite forallb_forall in Hfit. specialize (Hfit e0 Hin0).
  destruct (Event.id e0 =? eid) eqn:Eid.
  - apply Z.eqb_eq in Eid.
    assert (e0 = e) as ->.
    { apply (NoDup_key_inj _ _ Event.id (events db)); try assumption.
      - apply (wf_event_pk _ Hwf).
      - congruence. }
    subst e'. unfold event_fits in *. simpl. rewrite Hide in *.
    rewrite Hnew. rewrite Hold in Hfit.
    now apply status_fits_after_decision.
  - subst e'. apply Z.eqb_neq in Eid.
    rewrite (event_fits_same_rows db db' e0); [assumption|].
    rewrite Edb'. apply (after_decision_approvers_other db a); try assumption.
    congruence.
Qed.

Lemma delete_Fits (pk : Z) (db : DB) :
  Fits db -> Fits (fst (EventDetailView.delete pk db)).
Proof.
  intros [Hwf Hfit].
  destruct (delete_cases pk db Hwf)
    as [[_ ->]|[[e [Hev [Hconf ->]]]|[e [Hev [Hother ->]]]]]; simpl.
  - now split.
  - split; [now apply soft_deleted_WF|].
    unfold soft_deleted. simpl. rewrite forallb_forall in *.
    intros e' He'. apply in_map_iff in He'. destruct He' as [e0 [<- Hin0]].
    specialize (Hfit e0 Hin0). unfold event_fits in *. simpl.
    destruct (Event.id e0 =? pk) eqn:Eid; [|exact Hfit].
    apply Z.eqb_eq in Eid.
    destruct (lookup_event_Some _ _ _ Hev) as [Hine Hide].
    assert (e0 = e) as ->.
    { apply (NoDup_key_inj _ _ Event.id (events db)); try assumption.
      - apply (wf_event_pk _ Hwf).
      - congruence. }
    simpl. rewrite Hconf in Hfit. simpl in Hfit. unfold approvers_of in *.
    simpl. rewrite Hfit. apply orb_true_r.
  - split; [now apply hard_deleted_WF|].
    simpl. rewrite forallb_forall in *.
    intros e0 He0. apply filter_In in He0. destruct He0 as [Hin0 Hne].
    apply negb_true_iff, Z.eqb_neq in Hne.
    rewrite (event_fits_same_rows db (hard_deleted db pk) e0).
    + now apply Hfit.
    + now apply hard_deleted_approvers_other.
Qed.

Lemma participant_create_Fits (eid u : Z) :
  preserves (Fits_creating eid) (ORM.EventParticipant_create eid u).
Proof.
  intros db [[Hwf Hfit] [Hst Hrows]].
  destruct (participant_create_WF eid u db
              (conj Hwf (status_of_In_ids eid db Event.PENDING Hst)))
    as [Hwf' _].
  revert Hwf'. unfold ORM.EventParticipant_create.
  destruct (negb _);
    [simpl; intros _; exact (conj (conj Hwf Hfit) (conj Hst Hrows))|].
  destruct (existsb _ _);
    [simpl; intros _; exact (conj (conj Hwf Hfit) (conj Hst Hrows))|].
  simpl. intros Hwf'. exact (conj (conj Hwf' Hfit) (conj Hst Hrows)).
Qed.

Lemma approver_create_Fits (eid u : Z) :
  preserves (Fits_creating eid) (ORM.EventApprover_create eid u).
Proof.
  intros db [[Hwf Hfit] [Hst Hrows]].
  destruct (approver_create_WF eid u db
              (conj Hwf (status_of_In_ids eid db Event.PENDING Hst)))
    as [Hwf' _].
  revert Hwf'. unfold ORM.EventApprover_create.
  destruct (negb _);
    [simpl; intros _; exact (conj (conj Hwf Hfit) (conj Hst Hrows))|].
  destruct (existsb _ _);
    [simpl; intros _; exact (conj (conj Hwf Hfit) (conj Hst Hrows))|].
  simpl. intros Hwf'.
  set (row := EventApprover.mk (approver_seq db + 1) eid u EventApprover.PENDING
                               None EmptyString) in *.
  split; [split; [exact Hwf'|] | split; [exact Hst|]].
  - simpl. rewrite forallb_forall in *. intros e He.
    specialize (Hfit e He). unfold event_fits, approvers_of in *. simpl.
    rewrite filter_app. simpl.
    destruct (eid =? Event.id e) eqn:Eid.
    + apply Z.eqb_eq in Eid.
      pose proof (status_of_In db e Hwf He) as Hs.
      rewrite <- Eid, Hst in Hs. injection Hs as Hs.
      rewrite <- Hs. simpl.
      rewrite map_app. cbn [map].
      rewrite existsb_app, forallb_app, is_empty_middle.
      unfold row. cbn [EventApprover.status existsb forallb is_rejected is_approved
                       EventApprover.status_eqb].
      rewrite <- Eid.
      assert (existsb is_rejected
                (map EventApprover.status
                     (filter (fun a => EventApprover.event a =? eid)
                             (event_approvers db))) = false) as ->;
        [|destruct (forallb _ _); reflexivity].
      destruct (existsb _ _) eqn:E; [|reflexivity].
      apply existsb_exists in E. destruct E as [s [Hs' Hrej]].
      apply in_map_iff in Hs'. destruct Hs' as [a [Has Ha]].
      specialize (Hrows a Ha). simpl in Hrows. rewrite Has in Hrows.
      destruct s; discriminate.
    + rewrite app_nil_r. exact Hfit.
  - unfold approvers_of. simpl. rewrite filter_app, forallb_app. simpl.
    rewrite Z.eqb_refl. simpl. rewrite andb_true_r. exact Hrows.
Qed.

Lemma with_event_Fits (db : DB) (ev : Event.t) :
  Fits db -> Event.id ev = event_seq db + 1 -> Event.status ev = Event.PENDING ->
  Fits_creating (Event.id ev) (with_event db ev).
Proof.
  intros [Hwf Hfit] Hid Hpend.
  destruct (with_event_WF db ev Hwf Hid) as [Hwf' _].
  destruct (no_rows_beyond_seq db (Event.id ev) Hwf ltac:(lia)) as [_ Hnone].
  split; [split; [exact Hwf'|] | split].
  - simpl. rewrite forallb_app. simpl.
    rewrite (forallb_same (event_fits (with_event db ev)) (event_fits db)).
    + rewrite Hfit. unfold event_fits. simpl.
      change (approvers_of (Event.id ev) (with_event db ev))
        with (approvers_of (Event.id ev) db).
      rewrite Hnone, Hpend. reflexivity.
    + intros e _. reflexivity.
  - unfold status_of, lookup_event. simpl.
    rewrite (lookup_new_event db ev Hwf Hid). simpl. now f_equal.
  - change (approvers_of (Event.id ev) (with_event db ev))
      with (approvers_of (Event.id ev) db).
    now rewrite Hnone.
Qed.

Lemma create_Fits (user now : Z) vd (db : DB) :
  EventSerializer.status vd = None ->
  Fits db -> Fits (fst (EventSerializer.create user now vd db)).
Proof.
  intros Hnone Hfit. rewrite create_fst.
  assert (Event.status (new_event user now vd db) = Event.PENDING) as Hpend
      by (unfold new_event; simpl; now rewrite Hnone).
  pose proof (with_event_Fits db (new_event user now vd db) Hfit eq_refl Hpend)
    as H0.
  change (Event.id (new_event user now vd db)) with (event_seq db + 1) in H0.
  apply (preserves_create_rows (Fits_creating (event_seq db + 1))
                               (event_seq db + 1)
                               _ _
                               (participant_create_Fits (event_seq db + 1))
                               (approver_create_Fits (event_seq db + 1))
                               _ H0).
Qed.

Lemma run_Fits (rs : list request) (us : list Z) :
  forallb status_untouched rs = true -> Fits (run rs (empty_db us)).
Proof.
  assert (forall db, forallb status_untouched rs = true ->
                     Fits db -> Fits (run rs db)) as H.
  { induction rs as [|r rs IH]; intros db Hrs Hfit; [assumption|].
    simpl in *. apply andb_true_iff in Hrs. destruct Hrs as [Hr Hrs].
    apply IH; [assumption|].
    destruct r as [user now vd|user now rd eid|pk|pk now vd]; simpl.
    - apply create_Fits; [|assumption].
      revert Hr. simpl. now destruct (EventSerializer.status vd).
    - now apply post_Fits.
    - now apply delete_Fits.
    - discriminate. }
  intros Hrs. apply H; [assumption|].
  split; [|reflexivity]. apply well_formed_WF. reflexivity.
Qed.

(** X9.  Start from empty tables and let creations that carry no
    status, decisions and deletions run.  Then the status of every event
    goes with the statuses of its approver rows: a CONFIRMED event has
    approver rows and all are APPROVED; a PENDING event has no REJECTED
    row and, if it has rows, not all are APPROVED; a CANCELLED event has
    a REJECTED row or was confirmed before. *)
Theorem X9_event_status_goes_with_approver_statuses
        (rs : list request) (us : list Z) (pk : Z) (e : Event.t)
        (Hrs : forallb status_untouched rs = true)
        (Hev : lookup_event pk (run rs (empty_db us)) = Some e) :
  let sts := map EventApprover.status (approvers_of pk (run rs (empty_db us))) in
  (Event.status e = Event.CONFIRMED ->
   sts <> [] /\ forallb is_approved sts = true)
  /\ (Event.status e = Event.PENDING ->
      existsb is_rejected sts = false
      /\ (sts = [] \/ forallb is_approved sts = false))
  /\ (Event.status e = Event.CANCELLED ->
      existsb is_rejected sts = true
      \/ (sts <> [] /\ forallb is_approved sts = true))
  /\ Event.status e <> Event.DELETED.
Proof.
  intros sts. destruct (run_Fits rs us Hrs) as [_ Hfit].
  destruct (lookup_event_Some _ _ _ Hev) as [Hin Hid].
  rewrite forallb_forall in Hfit. specialize (Hfit e Hin).
  unfold event_fits in Hfit. rewrite Hid in Hfit. fold sts in Hfit.
  unfold status_fits in Hfit.
  destruct (Event.status e); try discriminate Hfit;
    (split; [|split; [|split]]);
    try (intros Hc; discriminate Hc); try discriminate; intros _.
  - apply andb_true_iff in Hfit. destruct Hfit as [H1 H2].
    apply negb_true_iff in H1. split; [assumption|].
    apply orb_true_iff in H2. destruct H2 as [H2|H2].
    + left. now destruct sts.
    + right. now apply negb_true_iff in H2.
  - apply andb_true_iff in Hfit. destruct Hfit as [H1 H2].
    split; [|assumption]. intros Hnil. now rewrite Hnil in H1.
  - apply orb_true_iff in Hfit. destruct Hfit as [H|H]; [now left|].
    right. apply andb_true_iff in H. destruct H as [H1 H2].
    split; [|assumption]. intros Hnil. now rewrite Hnil in H1.
Qed.

(** X10.  In the same runs an event without approver rows, as every
    event of a single participant is, is PENDING as long as its row
    exists: no decision or deletion confirms or cancels it. *)
Theorem X10_event_without_approvers_stays_pending
        (rs : list request) (us : list Z) (pk : Z)
        (Hrs : forallb status_untouched rs = true)
        (Hnone : approvers_of pk (run rs (empty_db us)) = []) :
  status_of pk (run rs (empty_db us)) = Some Event.PENDING
  \/ status_of pk (run rs (empty_db us)) = None.
Proof.
  destruct (run_Fits rs us Hrs) as [_ Hfit].
  unfold status_of.
  destruct (lookup_event pk (run rs (empty_db us))) as [e|] eqn:Hev;
    [|now right].
  left. simpl. f_equal.
  destruct (lookup_event_Some _ _ _ Hev) as [Hin Hid].
  rewrite forallb_forall in Hfit. specialize (Hfit e Hin).
  unfold event_fits in Hfit. rewrite Hid, Hnone in Hfit. simpl in Hfit.
  destruct (Event.status e); simpl in Hfit; try discriminate. reflexivity.
Qed.

(* ================================================================== *)
(** ** More on deletions and on keys *)

Lemma soft_deleted_lookup (db : DB) (pk pk' : Z) :
  lookup_event pk' (soft_deleted db pk)
  = option_map (fun r => if Event.id r =? pk
                         then Event.with_status r Event.CANCELLED else r)
               (lookup_event pk' db).
Proof.
  unfold lookup_event, soft_deleted. simpl. apply find_map_stable.
  intros r. now destruct (Event.id r =? pk).
Qed.

Lemma hard_deleted_lookup_same (db : DB) (pk : Z) :
  lookup_event pk (hard_deleted db pk) = None.
Proof.
  unfold lookup_event, hard_deleted. simpl. rewrite find_filter_head.
  now rewrite (filter_negb_eq_none Event.id).
Qed.

(** X11.  On a consistent database, deleting an event that does not
    exist raises the 404 and changes nothing; deleting an existing event
    twice always removes its row, whether the first deletion was the
    soft one or not, and a third deletion finds nothing. *)
Theorem X11_two_deletions_remove_the_event
        (db : DB) (pk : Z) (Hwf : well_formed db = true) :
  (lookup_event pk db = None ->
   EventDetailView.delete pk db = (db, inl Http404))
  /\ (forall e,
         lookup_event pk db = Some e ->
         let db2 := run [DeleteEvent pk; DeleteEvent pk] db in
         lookup_event pk db2 = None
         /\ EventDetailView.delete pk db2 = (db2, inl Http404)).
Proof.
  apply well_formed_WF in Hwf.
  assert (forall d, WF d -> lookup_event pk d = None ->
                    EventDetailView.delete pk d = (d, inl Http404)) as Hmissing.
  { intros d Hd Hnone.
    destruct (delete_cases pk d Hd)
      as [[_ E]|[[e [Hev _]]|[e [Hev _]]]]; [assumption | congruence | congruence]. }
  split; [now apply Hmissing|].
  intros e Hev db2. subst db2. simpl.
  destruct (delete_cases pk db Hwf)
    as [[Hnone _]|[[e1 [_ [Hconf ->]]]|[e1 [_ [Hother ->]]]]]; [congruence | |].
  - simpl.
    pose proof (soft_deleted_WF db pk Hwf) as Hwf1.
    assert (lookup_event pk (soft_deleted db pk)
            = Some (Event.with_status e Event.CANCELLED)) as Hev1.
    { rewrite soft_deleted_lookup, Hev. simpl.
      destruct (lookup_event_Some _ _ _ Hev) as [_ ->]. now rewrite Z.eqb_refl. }
    destruct (delete_cases pk (soft_deleted db pk) Hwf1)
      as [[Hnone _]|[[e2 [He2 [Hconf2 _]]]|[e2 [_ [_ ->]]]]].
    + congruence.
    + rewrite Hev1 in He2. injection He2 as <-. discriminate Hconf2.
    + simpl. split; [apply hard_deleted_lookup_same|].
      apply Hmissing; [now apply hard_deleted_WF | apply hard_deleted_lookup_same].
  - simpl.
    pose proof (hard_deleted_WF db pk Hwf) as Hwf1.
    rewrite (Hmissing _ Hwf1 (hard_deleted_lookup_same db pk)). simpl.
    split; [apply hard_deleted_lookup_same|].
    apply Hmissing; [assumption | apply hard_deleted_lookup_same].
Qed.

(** X12.  On a consistent database the deletion of event [pk] leaves
    every other event, with its participant and approver rows, as it is,
    leaves the users as they are, and keeps every notification that does
    not point to [pk]. *)
Theorem X12_delete_leaves_other_events_alone
        (db : DB) (pk pk' : Z)
        (Hwf : well_formed db = true) (Hne : pk' <> pk) :
  let db' := fst (EventDetailView.delete pk db) in
  lookup_event pk' db' = lookup_event pk' db
  /\ participants_of pk' db' = participants_of pk' db
  /\ approvers_of pk' db' = approvers_of pk' db
  /\ users db' = users db
  /\ (forall n, Notification.event n <> Some pk ->
                (In n (notifications db') <-> In n (notifications db))).
Proof.
  apply well_formed_WF in Hwf. intros db'. subst db'.
  destruct (delete_cases pk db Hwf)
    as [[_ ->]|[[e [_ [_ ->]]]|[e [_ [_ ->]]]]]; simpl.
  - repeat split; auto.
  - split; [|repeat split; auto].
    rewrite soft_deleted_lookup.
    destruct (lookup_event pk' db) as [e0|] eqn:He0; [|reflexivity]. simpl.
    destruct (lookup_event_Some _ _ _ He0) as [_ ->].
    apply Z.eqb_neq in Hne. now rewrite Hne.
  - split; [|split; [|split; [|split]]].
    + unfold lookup_event, hard_deleted. simpl.
      now apply (find_filter_other Event.id).
    + unfold participants_of, hard_deleted. simpl.
      now apply (filter_filter_other EventParticipant.event).
    + now apply hard_deleted_approvers_other.
    + reflexivity.
    + intros n Hn. rewrite filter_In. split; [tauto|].
      intros Hin. split; [assumption|].
      destruct (Notification.event n) as [ev|]; [|reflexivity].
      apply negb_true_iff, Z.eqb_neq. congruence.
Qed.

Lemma handle_gone (r : request) (pk : Z) (db : DB) :
  WF db -> gone pk db -> gone pk (handle r db).
Proof.
  intros Hwf [Hnone Hle].
  destruct r as [user now vd|user now rd eid|pk2|pk2 now vd]; simpl.
  - destruct (create_events user now vd db) as [Hev [_ [_ Hseq]]].
    unfold gone, lookup_event in *. rewrite Hev, Hseq, find_app, Hnone. simpl.
    assert ((event_seq db + 1 =? pk) = false) as -> by (apply Z.eqb_neq; lia).
    split; [reflexivity | lia].
  - destruct (post_cases user now rd eid db Hwf)
      as [[_ ->]|[[a [_ [_ ->]]]|[[a [_ [_ [_ ->]]]]|[a [e [Hrow [_ [_ ->]]]]]]]]; simpl;
      try (split; assumption).
    destruct (approver_row_Some _ _ _ _ Hrow) as [Hin _].
    split; [|assumption].
    unfold lookup_event, after_decision in *. simpl.
    rewrite find_map_stable by (intros r; now destruct (Event.id r =? eid)).
    now rewrite Hnone.
  - destruct (delete_cases pk2 db Hwf)
      as [[_ ->]|[[e [_ [_ ->]]]|[e [_ [_ ->]]]]]; simpl.
    + now split.
    + split; [|assumption]. now rewrite soft_deleted_lookup, Hnone.
    + split; [|assumption].
      unfold lookup_event, hard_deleted in *. simpl. now apply find_filter_None.
  - destruct (update_tables pk2 now vd db) as [_ [_ [_ Hseq]]].
    split; [|now rewrite Hseq].
    unfold EventUpdate.update, bind, EventDetailView.get_object, ORM.Event_get,
      get_unique, raise, ret.
    destruct (filter _ (events db)) as [|e [|e2 l]]; simpl; try assumption.
    unfold lookup_event in *. simpl.
    rewrite find_map_stable; [now rewrite Hnone|].
    intros r. destruct (Event.id r =? Event.id e) eqn:E; [|reflexivity].
    apply Z.eqb_eq in E. simpl. now rewrite E.
Qed.

(** X13.  On a consistent database a key that was handed out and whose
    event row is gone is never used again: after any requests no event
    is found under it. *)
Theorem X13_event_keys_are_not_reused
        (db : DB) (pk : Z) (rs : list request)
        (Hwf : well_formed db = true)
        (Hused : pk <= event_seq db)
        (Hnone : lookup_event pk db = None) :
  lookup_event pk (run rs db) = None.
Proof.
  apply well_formed_WF in Hwf.
  assert (gone pk (run rs db)) as [H _]; [|exact H].
  assert (gone pk db) as Hg by now split.
  clear Hused Hnone. revert db Hwf Hg.
  induction rs as [|r rs IH]; intros db Hwf Hg; [assumption|].
  simpl. apply IH; [now apply handle_WF | now apply handle_gone].
Qed.

(* ================================================================== *)
(** ** The approval requests of a user *)

Lemma approval_requests_In (user : Z) (db : DB) (e : Event.t) :
  In e (MyApprovalRequestsView.get_queryset user db) <->
  In e (events db)
  /\ exists a, In a (event_approvers db)
               /\ EventApprover.event a = Event.id e
               /\ EventApprover.approver a = user
               /\ EventApprover.status a = EventApprover.PENDING.
Proof.
  unfold MyApprovalRequestsView.get_queryset. rewrite in_flat_map. split.
  - intros [e0 [He0 Hin]]. apply in_map_iff in Hin.
    destruct Hin as [a [<- Ha]]. apply filter_In in Ha.
    destruct Ha as [Ha Hp]. apply andb_true_iff in Hp. destruct Hp as [Hp H3].
    apply andb_true_iff in Hp. destruct Hp as [H1 H2].
    apply Z.eqb_eq in H1. apply Z.eqb_eq in H2.
    apply approver_status_eqb_eq in H3.
    split; [assumption|]. exists a. auto.
  - intros [He [a [Ha [H1 [H2 H3]]]]]. exists e. split; [assumption|].
    apply in_map_iff. exists a. split; [reflexivity|].
    apply filter_In. split; [assumption|].
    rewrite H1, H2, H3, !Z.eqb_refl. reflexivity.
Qed.

Lemma approval_requests_ids (user eid : Z) (db : DB) :
  WF db ->
  (In eid (map Event.id (MyApprovalRequestsView.get_queryset user db)) <->
   exists a, approver_row eid user db = Some a
             /\ EventApprover.status a = EventApprover.PENDING).
Proof.
  intros Hwf. rewrite in_map_iff. split.
  - intros [e [Hid He]]. apply approval_requests_In in He.
    destruct He as [_ [a [Ha [H1 [H2 H3]]]]].
    exists a. split; [|assumption].
    rewrite <- Hid, <- H1, <- H2. now apply approver_row_In.
  - intros [a [Hrow Hpend]].
    destruct (approver_row_Some _ _ _ _ Hrow) as [Ha [H1 H2]].
    destruct (approver_event_exists _ _ Hwf Ha) as [e He].
    destruct (lookup_event_Some _ _ _ He) as [Hin Hid].
    exists e. split; [congruence|].
    apply approval_requests_In. split; [assumption|].
    exists a. repeat split; try assumption. congruence.
Qed.

Lemma filter_at_most_one {A K} (key : A -> K) (p : A -> bool) (l : list A) :
  NoDup (map key l) ->
  (forall x y, p x = true -> p y = true -> key x = key y) ->
  filter p l = [] \/ exists a, filter p l = [a].
Proof.
  intros Hnd Hsame. destruct (filter p l) as [|x rest] eqn:E; [now left|].
  right. exists x. rewrite <- E.
  assert (In x (filter p l)) as Hx by (rewrite E; now left).
  apply filter_In in Hx. destruct Hx as [Hin Hp].
  apply (filter_unique _ _ key); try assumption.
  intros y _ Hy. now apply Hsame.
Qed.

Lemma approval_requests_NoDup (user : Z) (db : DB) :
  WF db -> NoDup (map Event.id (MyApprovalRequestsView.get_queryset user db)).
Proof.
  intros Hwf. unfold MyApprovalRequestsView.get_queryset.
  pose proof (wf_event_pk _ Hwf) as Hnd.
  induction (events db) as [|e l IH]; simpl; [constructor|].
  inversion Hnd as [|? ? Hnot Hnd']; subst.
  rewrite map_app.
  destruct (filter_at_most_one approver_key
              (fun a => (EventApprover.event a =? Event.id e)
                        && (EventApprover.approver a =? user)
                        && is_pending (EventApprover.status a))
              (event_approvers db) (wf_approver_key _ Hwf)) as [->|[a ->]].
  - intros x y Hx Hy.
    apply andb_true_iff in Hx. destruct Hx as [Hx _].
    apply andb_true_iff in Hx. destruct Hx as [X1 X2].
    apply andb_true_iff in Hy. destruct Hy as [Hy _].
    apply andb_true_iff in Hy. destruct Hy as [Y1 Y2].
    apply Z.eqb_eq in X1. apply Z.eqb_eq in X2.
    apply Z.eqb_eq in Y1. apply Z.eqb_eq in Y2.
    unfold approver_key. congruence.
  - simpl. now apply IH.
  - simpl. constructor; [|now apply IH].
    intros Hin. apply Hnot. apply in_map_iff in Hin.
    destruct Hin as [e' [Hid He']]. apply in_flat_map in He'.
    destruct He' as [e0 [He0 Hin0]]. apply in_map_iff in Hin0.
    destruct Hin0 as [b [<- _]]. rewrite <- Hid. now apply in_map.
Qed.

(** X14.  On a consistent database a decision of a user on an event is
    recorded (answer 200) exactly when the event is among the approval
    requests of that user and the body can be saved (it approves, or its
    reason is not [null]); the list names no event twice; and once a
    decision of the user has been answered, whatever the answer was, the
    event is not among their requests. *)
Theorem X14_approval_requests_are_the_open_decisions
        (db : DB) (user now eid : Z) (rd : ApproveEventView.request_data)
        (Hwf : well_formed db = true) :
  ((exists s, snd (ApproveEventView.post user now rd eid db)
              = inr (mkResponse 200 (ApproverStatus s)))
   <-> In eid (map Event.id (MyApprovalRequestsView.get_queryset user db))
       /\ saves rd = true)
  /\ NoDup (map Event.id (MyApprovalRequestsView.get_queryset user db))
  /\ (forall resp : Response,
         snd (ApproveEventView.post user now rd eid db) = inr resp ->
         ~ In eid (map Event.id
                     (MyApprovalRequestsView.get_queryset
                        user (fst (ApproveEventView.post user now rd eid db))))).
Proof.
  apply well_formed_WF in Hwf.
  split; [|split; [now apply approval_requests_NoDup|]].
  - rewrite (approval_requests_ids user eid db Hwf).
    destruct (post_cases user now rd eid db Hwf)
      as [[Hrow E]|[[a [Hrow [Hst E]]]|[[a [Hrow [Hpend [Hsaves E]]]]
                                       |[a [e [Hrow [Hpend [Hev E]]]]]]]].
    + rewrite E. simpl.
      split; [intros [s Hs]; discriminate | intros [[a [Ha _]] _]; congruence].
    + rewrite E. simpl. split; [intros [s Hs]; discriminate|].
      intros [[a0 [Ha0 Hp]] _]. rewrite Hrow in Ha0. injection Ha0 as <-.
      contradiction.
    + rewrite E. simpl.
      split; [intros [s Hs]; discriminate|]. intros [_ Hs]. congruence.
    + split; [|intros _; rewrite E; eexists; reflexivity]. intros _.
      split; [exists a; now split|].
      destruct (saves rd) eqn:Hsaves; [reflexivity|]. exfalso.
      rewrite (post_not_saved user now rd eid db a Hwf Hrow Hpend Hsaves) in E.
      discriminate.
  - intros resp Hresp.
    pose proof (post_WF user now rd eid db Hwf) as Hwf'.
    rewrite (approval_requests_ids user eid _ Hwf').
    intros [a' [Hrow' Hpend']].
    destruct (post_cases user now rd eid db Hwf)
      as [[Hrow E]|[[a [Hrow [Hst E]]]|[[a [Hrow [Hpend [Hsaves E]]]]
                                       |[a [e [Hrow [Hpend [Hev E]]]]]]]];
      rewrite E in Hrow'; simpl in Hrow'.
    + congruence.
    + rewrite Hrow in Hrow'. injection Hrow' as <-. contradiction.
    + rewrite E in Hresp. discriminate.
    + destruct (approver_row_Some _ _ _ _ Hrow) as [Hin [He Hu]].
      destruct (after_decision_approvers db a (decided_row a now rd) eid
                  (Event.status e) Hwf Hin (decided_row_id a now rd))
        as [l1 [l2 [_ [E2 _]]]].
      rewrite E in Hwf'. simpl in Hwf'.
      assert (approver_row eid user
                (after_decision db (decided_row a now rd) eid (Event.status e))
              = Some (decided_row a now rd)) as Hfound.
      { pose proof (decided_row_key a now rd) as Hk.
        unfold approver_key in Hk. inversion Hk as [[Hk1 Hk2]].
        rewrite <- He at 1. rewrite <- Hu. rewrite <- Hk1, <- Hk2.
        apply approver_row_In; [assumption|].
        rewrite E2. apply in_or_app. right. now left. }
      rewrite Hfound in Hrow'. injection Hrow' as <-.
      now apply (decided_row_not_pending a now rd).
Qed.

(** X15.  On a consistent database, after a creation that succeeded the
    new event is among the approval requests of exactly the approvers it
    stored: the approver ids of the request when the event has more than
    one participant, nobody otherwise. *)
Theorem X15_created_event_is_requested_from_its_approvers
        (db db' : DB) (user now u : Z) (vd : EventSerializer.validated_data)
        (ev : Event.t)
        (Hwf : well_formed db = true)
        (Hcreate : EventSerializer.create user now vd db = (db', inr ev)) :
  In (Event.id ev) (map Event.id (MyApprovalRequestsView.get_queryset u db'))
  <-> In u (if 1 <? Z.of_nat (List.length
                                (add_creator user
                                             (EventSerializer.participant_ids vd)))
            then match EventSerializer.approver_ids vd with
                 | Some l => l
                 | None => []
                 end
            else []).
Proof.
  apply well_formed_WF in Hwf.
  destruct (create_stored user now vd db db' ev Hwf Hcreate) as [_ [_ [Hmap Hpr]]].
  destruct (created_event_stored db db' user now vd ev Hwf Hcreate) as [Hl _].
  destruct (lookup_event_Some _ _ _ Hl) as [Hin _].
  rewrite <- Hmap, in_map_iff, in_map_iff. split.
  - intros [e [Hid He]]. apply approval_requests_In in He.
    destruct He as [_ [a [Ha [H1 [H2 _]]]]].
    exists a. split; [assumption|]. apply approvers_of_In. split; congruence.
  - intros [a [Hu Ha]]. exists ev. split; [reflexivity|].
    apply approval_requests_In. split; [assumption|].
    rewrite Forall_forall in Hpr. destruct (Hpr a Ha) as [H1 [H2 _]].
    apply approvers_of_In in Ha. destruct Ha as [Ha _].
    exists a. auto.
Qed.

(* ================================================================== *)
(** ** Notifications *)

Lemma mark_read_id (pk : Z) (n : Notification.t) :
  Notification.id (mark_read pk n) = Notification.id n.
Proof. unfold mark_read. now destruct (Notification.id n =? pk). Qed.

Lemma mark_read_recipient (pk : Z) (n : Notification.t) :
  Notification.recipient (mark_read pk n) = Notification.recipient n.
Proof. unfold mark_read. now destruct (Notification.id n =? pk). Qed.

Lemma mark_read_twice (pk : Z) (n : Notification.t) :
  mark_read pk (mark_read pk n) = mark_read pk n.
Proof.
  unfold mark_read. destruct (Notification.id n =? pk) eqn:E; simpl.
  - now rewrite E.
  - now rewrite E.
Qed.

(** The two outcomes of marking a notification as read. *)
Lemma mark_read_cases (user pk : Z) (db : DB) :
  notifications_keyed db = true ->
  ((forall n, In n (notifications db) ->
              ~ (Notification.id n = pk /\ Notification.recipient n = user))
   /\ MarkNotificationReadView.post user pk db
      = (db, inr (mkResponse 404 NoContent)))
  \/ (exists n, In n (notifications db) /\ Notification.id n = pk
                /\ Notification.recipient n = user
                /\ MarkNotificationReadView.post user pk db
                   = (mkDB (users db) (events db) (event_participants db)
                           (event_approvers db)
                           (map (mark_read pk) (notifications db))
                           (event_seq db) (participant_seq db) (approver_seq db),
                      inr (mkResponse 204 NoContent))).
Proof.
  intros Hkeyed. apply distinct_NoDup in Hkeyed.
  unfold MarkNotificationReadView.post.
  destruct (filter_at_most_one Notification.id
              (fun n => (Notification.id n =? pk)
                        && (Notification.recipient n =? user))
              (notifications db) Hkeyed) as [E|[n E]].
  - intros x y Hx Hy.
    apply andb_true_iff in Hx. destruct Hx as [Hx _].
    apply andb_true_iff in Hy. destruct Hy as [Hy _].
    apply Z.eqb_eq in Hx. apply Z.eqb_eq in Hy. congruence.
  - left. rewrite E. simpl. split; [|reflexivity].
    intros n Hn [H1 H2].
    pose proof (proj1 (filter_nil_iff _ _ _) E n Hn) as Hf. simpl in Hf.
    rewrite H1, H2, !Z.eqb_refl in Hf. discriminate.
  - right. rewrite E. simpl.
    assert (In n (filter (fun n0 => (Notification.id n0 =? pk)
                                    && (Notification.recipient n0 =? user))
                         (notifications db))) as Hn by (rewrite E; now left).
    apply filter_In in Hn. destruct Hn as [Hin Hp].
    apply andb_true_iff in Hp. destruct Hp as [H1 H2].
    apply Z.eqb_eq in H1. apply Z.eqb_eq in H2.
    exists n. repeat split; try assumption.
    unfold bind, ORM.Notification_save_is_read, ret. simpl.
    rewrite H1. reflexivity.
Qed.

(** X16.  With distinct notification keys, marking notification [pk]
    as read answers 404 and changes nothing exactly when no notification
    has this key and the caller as recipient; otherwise it answers 204,
    sets the read flag of that one notification and changes no other
    column, row or table. *)
Theorem X16_mark_read_sets_one_flag_or_answers_404
        (db : DB) (user pk : Z)
        (Hkeyed : notifications_keyed db = true) :
  let r := MarkNotificationReadView.post user pk db in
  (snd r = inr (mkResponse 404 NoContent) <->
   forall n, In n (notifications db) ->
             ~ (Notification.id n = pk /\ Notification.recipient n = user))
  /\ (snd r = inr (mkResponse 404 NoContent) -> fst r = db)
  /\ (snd r = inr (mkResponse 404 NoContent)
      \/ snd r = inr (mkResponse 204 NoContent))
  /\ notifications (fst r)
     = map (fun n => if (Notification.id n =? pk)
                        && (Notification.recipient n =? user)
                     then Notification.with_is_read n true else n)
           (notifications db)
  /\ (users (fst r), events (fst r), event_participants (fst r),
      event_approvers (fst r))
     = (users db, events db, event_participants db, event_approvers db).
Proof.
  intros r. subst r.
  destruct (mark_read_cases user pk db Hkeyed)
    as [[Hnone ->]|[n [Hin [Hid [Hrec ->]]]]]; simpl.
  - split; [split; [intros _; assumption | reflexivity]|].
    split; [reflexivity|]. split; [now left|]. split; [|reflexivity].
    symmetry. rewrite <- (map_id (notifications db)) at 2.
    apply map_ext_in. intros m Hm.
    destruct ((Notification.id m =? pk) && (Notification.recipient m =? user))
      eqn:E; [|reflexivity].
    apply andb_true_iff in E. destruct E as [H1 H2].
    apply Z.eqb_eq in H1. apply Z.eqb_eq in H2.
    exfalso. now apply (Hnone m Hm).
  - split; [split; [discriminate|]|].
    { intros Hnone. exfalso. now apply (Hnone n Hin). }
    split; [discriminate|]. split; [now right|]. split; [|reflexivity].
    apply map_ext_in. intros m Hm. unfold mark_read.
    destruct (Notification.id m =? pk) eqn:E; [|reflexivity].
    apply Z.eqb_eq in E.
    assert (m = n) as ->.
    { apply distinct_NoDup in Hkeyed.
      apply (NoDup_key_inj _ _ Notification.id (notifications db)); try assumption.
      congruence. }
    now rewrite Hrec, Z.eqb_refl.
Qed.

Lemma filter_map_stable {A} (p : A -> bool) (g : A -> A) (l : list A) :
  (forall x, In x l -> p (g x) = p x) ->
  filter p (map g l) = map g (filter p l).
Proof.
  intros H. induction l as [|x l IH]; simpl; [reflexivity|].
  rewrite H by now left.
  rewrite IH by (intros y Hy; apply H; now right).
  now destruct (p x).
Qed.

(** X17.  With distinct notification keys, after a user marks
    notification [pk] as read their own list is the list it was, same
    rows in the same order, with the read flag set on [pk]; the list of
    every other user is exactly the list it was. *)
Theorem X17_mark_read_changes_the_own_list_only
        (db : DB) (user pk other : Z)
        (Hkeyed : notifications_keyed db = true)
        (Hother : other <> user) :
  let db' := fst (MarkNotificationReadView.post user pk db) in
  MyNotificationsView.get_queryset user db'
  = map (mark_read pk) (MyNotificationsView.get_queryset user db)
  /\ MyNotificationsView.get_queryset other db'
     = MyNotificationsView.get_queryset other db.
Proof.
  intros db'. subst db'. unfold MyNotificationsView.get_queryset.
  destruct (mark_read_cases user pk db Hkeyed)
    as [[Hnone ->]|[n [Hin [Hid [Hrec ->]]]]]; simpl.
  - split; [|reflexivity].
    rewrite <- (map_id (filter _ (notifications db))) at 1.
    apply map_ext_in. intros m Hm. apply filter_In in Hm.
    destruct Hm as [Hm Hr]. apply Z.eqb_eq in Hr.
    unfold mark_read. destruct (Notification.id m =? pk) eqn:E; [|reflexivity].
    apply Z.eqb_eq in E. exfalso. now apply (Hnone m Hm).
  - split.
    + apply filter_map_stable. intros x _. now rewrite mark_read_recipient.
    + rewrite filter_map_stable
        by (intros x _; now rewrite mark_read_recipient).
      rewrite <- (map_id (filter _ (notifications db))) at 2.
      apply map_ext_in. intros m Hm. apply filter_In in Hm.
      destruct Hm as [Hm Hr]. apply Z.eqb_eq in Hr.
      unfold mark_read. destruct (Notification.id m =? pk) eqn:E; [|reflexivity].
      apply Z.eqb_eq in E. exfalso.
      assert (m = n) as ->.
      { apply distinct_NoDup in Hkeyed.
        apply (NoDup_key_inj _ _ Notification.id (notifications db));
          try assumption. congruence. }
      congruence.
Qed.

(** X18.  With distinct notification keys, marking the same notification
    as read a second time changes nothing and answers as the first
    time. *)
Theorem X18_mark_read_is_idempotent
        (db : DB) (user pk : Z)
        (Hkeyed : notifications_keyed db = true) :
  let r := MarkNotificationReadView.post user pk db in
  MarkNotificationReadView.post user pk (fst r) = (fst r, snd r).
Proof.
  intros r. subst r.
  destruct (mark_read_cases user pk db Hkeyed)
    as [[Hnone E]|[n [Hin [Hid [Hrec E]]]]]; rewrite E; simpl.
  - exact E.
  - set (db1 := mkDB (users db) (events db) (event_participants db)
                     (event_approvers db)
                     (map (mark_read pk) (notifications db))
                     (event_seq db) (participant_seq db) (approver_seq db)).
    assert (notifications_keyed db1 = true) as Hkeyed1.
    { unfold notifications_keyed, db1. simpl.
      rewrite map_map.
      rewrite (map_ext _ Notification.id (mark_read_id pk)). exact Hkeyed. }
    destruct (mark_read_cases user pk db1 Hkeyed1)
      as [[Hnone1 _]|[n1 [_ [_ [_ E1]]]]].
    + exfalso. apply (Hnone1 (mark_read pk n)).
      * unfold db1. simpl. now apply in_map.
      * now rewrite mark_read_id, mark_read_recipient.
    + rewrite E1. unfold db1. simpl. rewrite map_map.
      rewrite (map_ext _ (mark_read pk) (mark_read_twice pk)). reflexivity.
Qed.

(* ================================================================== *)
(** ** The events of a family *)

Lemma family_get (families : list Z) (family_id : Z) :
  distinct families = true ->
  filter (fun f => f =? family_id) families
  = if mem family_id families then [family_id] else [].
Proof.
  intros Hd. apply distinct_NoDup in Hd.
  destruct (mem family_id families) eqn:E.
  - apply mem_In in E.
    apply (filter_unique _ _ (fun f : Z => f)); try assumption.
    + now rewrite map_id.
    + apply Z.eqb_refl.
    + intros y _ Hy. now apply Z.eqb_eq in Hy.
  - apply mem_false in E. apply filter_nil_iff. intros y Hy.
    apply Z.eqb_neq. intros ->. contradiction.
Qed.

(** X19.  With distinct family keys: when the family of the URL does
    not exist the creation raises DoesNotExist and writes nothing; when
    it exists the creation runs with the family of the URL in place of
    the family of the body, and afterwards, whether it succeeded or
    raised, the list of that family has the new event at its end and the
    list of every other family is the list it was. *)
Theorem X19_event_is_created_in_the_family_of_the_url
        (db : DB) (families : list Z) (family_id user now : Z)
        (vd : EventSerializer.validated_data)
        (Hkeyed : distinct families = true) :
  let r := FamilyEventsListCreateView.perform_create families family_id
             user now vd db in
  (mem family_id families = false -> r = (db, inl DoesNotExist))
  /\ (mem family_id families = true ->
      r = EventSerializer.create
            user now (FamilyEventsListCreateView.with_family vd family_id) db
      /\ forall f,
          FamilyEventsListCreateView.get_queryset f (fst r)
          = FamilyEventsListCreateView.get_queryset f db
            ++ (if f =? family_id
                then [new_event user now
                        (FamilyEventsListCreateView.with_family vd family_id) db]
                else [])).
Proof.
  intros r. subst r.
  unfold FamilyEventsListCreateView.perform_create, bind.
  rewrite (family_get families family_id Hkeyed).
  split; intros Hmem; rewrite Hmem; simpl; [reflexivity|].
  split; [reflexivity|]. intros f.
  destruct (create_events user now
              (FamilyEventsListCreateView.with_family vd family_id) db)
    as [Hev _].
  unfold FamilyEventsListCreateView.get_queryset.
  rewrite Hev, filter_app. simpl. rewrite (Z.eqb_sym family_id f).
  now destruct (f =? family_id).
Qed.

(* ================================================================== *)
(** ** Comments *)

Lemma comments_keyed_facts (t : CommentTable) :
  comments_keyed t = true ->
  NoDup (map Comment.id (comments t))
  /\ forall c, In c (comments t) -> Comment.id c <= comment_seq t.
Proof.
  unfold comments_keyed. rewrite andb_true_iff, distinct_NoDup, forallb_forall.
  intros [H1 H2]. split; [assumption|].
  intros c Hc. apply Z.leb_le. now apply H2.
Qed.

Lemma comment_get (t : CommentTable) (c : Comment.t) :
  comments_keyed t = true -> In c (comments t) ->
  CommentDeleteView.get_object (Comment.id c) t = inr c.
Proof.
  intros Hk Hin. destruct (comments_keyed_facts t Hk) as [Hnd _].
  unfold CommentDeleteView.get_object.
  rewrite (filter_unique _ _ Comment.id _ (comments t) c); try assumption.
  - reflexivity.
  - apply Z.eqb_refl.
  - intros y _ Hy. now apply Z.eqb_eq in Hy.
Qed.

Lemma comment_get_missing (t : CommentTable) (pk : Z) :
  (forall c, In c (comments t) -> Comment.id c <> pk) ->
  CommentDeleteView.get_object pk t = inl Http404.
Proof.
  intros H. unfold CommentDeleteView.get_object.
  assert (filter (fun c => Comment.id c =? pk) (comments t) = []) as ->;
    [|reflexivity].
  apply filter_nil_iff. intros c Hc. apply Z.eqb_neq. now apply H.
Qed.

(** X20.  With distinct comment keys and a consistent database: a
    comment that does not exist gives the 404; the author of a comment
    deletes it, whatever the event is; another user deletes it exactly
    when they are the creator of the event of the comment, and gets 403
    with the table unchanged otherwise, also when the event has no
    creator.  A deletion removes this comment and no other. *)
Theorem X20_comment_deleted_by_author_or_event_creator
        (db : DB) (t : CommentTable) (user : Z) (c : Comment.t) (e : Event.t)
        (Hwf : well_formed db = true)
        (Hkeyed : comments_keyed t = true)
        (Hc : In c (comments t))
        (Hev : lookup_event (Comment.event c) db = Some e) :
  let removed :=
    mkComments (filter (fun r => negb (Comment.id r =? Comment.id c)) (comments t))
               (comment_seq t) in
  CommentDeleteView.delete user (Comment.id c) db t
  = (if (user =? Comment.author c)
        || match Event.creator e with
           | Some u => user =? u
           | None => false
           end
     then (removed, inr (mkResponse 204 NoContent))
     else (t, inr (mkResponse 403 NoContent)))
  /\ ~ In c (comments removed)
  /\ (forall c', In c' (comments t) -> c' <> c -> In c' (comments removed))
  /\ (forall pk, (forall c', In c' (comments t) -> Comment.id c' <> pk) ->
                 CommentDeleteView.delete user pk db t = (t, inl Http404)).
Proof.
  apply well_formed_WF in Hwf. intros removed.
  destruct (comments_keyed_facts t Hkeyed) as [Hnd _].
  assert (CommentDeleteView.super_delete (Comment.id c) t
          = (removed, inr (mkResponse 204 NoContent))) as Hsuper.
  { unfold CommentDeleteView.super_delete.
    now rewrite (comment_get t c Hkeyed Hc). }
  split; [|split; [|split]].
  - unfold CommentDeleteView.delete. rewrite (comment_get t c Hkeyed Hc).
    destruct (user =? Comment.author c); simpl; [exact Hsuper|].
    unfold ORM.Event_get. rewrite (get_event_unique _ _ _ Hwf Hev). simpl.
    unfold CommentDeleteView.is_not_creator.
    destruct (Event.creator e) as [u|]; [|reflexivity].
    destruct (user =? u); simpl; [exact Hsuper | reflexivity].
  - simpl. intros Hin. apply filter_In in Hin. destruct Hin as [_ Hin].
    now rewrite Z.eqb_refl in Hin.
  - simpl. intros c' Hc' Hne. apply filter_In. split; [assumption|].
    apply negb_true_iff, Z.eqb_neq. intros Hid. apply Hne.
    now apply (NoDup_key_inj _ _ Comment.id (comments t)).
  - intros pk Hmissing. unfold CommentDeleteView.delete.
    now rewrite (comment_get_missing t pk Hmissing).
Qed.

(** X21.  With distinct comment keys handed out by the sequence: a
    comment on an event that does not exist raises IntegrityError and
    writes nothing; on an existing event it gets the next key, the
    caller as author, and is the last comment of the list of that event;
    the lists of the other events do not change; and when its author
    deletes it the table holds the comments it held before. *)
Theorem X21_comment_is_listed_then_deleted
        (db : DB) (t : CommentTable) (user now event_id : Z) (content : string)
        (Hkeyed : comments_keyed t = true) :
  let r := EventCommentsListCreateView.perform_create
             user now event_id content db t in
  (mem event_id (map Event.id (events db)) = false ->
   r = (t, inl IntegrityError))
  /\ (mem event_id (map Event.id (events db)) = true ->
      let c := Comment.mk (comment_seq t + 1) event_id user content now in
      snd r = inr c
      /\ comments_keyed (fst r) = true
      /\ (forall ev,
             EventCommentsListCreateView.get_queryset ev (fst r)
             = EventCommentsListCreateView.get_queryset ev t
               ++ (if ev =? event_id then [c] else []))
      /\ comments (fst (CommentDeleteView.delete user (Comment.id c) db (fst r)))
         = comments t).
Proof.
  intros r. subst r. unfold EventCommentsListCreateView.perform_create.
  destruct (comments_keyed_facts t Hkeyed) as [Hnd Hseq].
  split; intros Hmem; rewrite Hmem; simpl; [reflexivity|].
  set (c := Comment.mk (comment_seq t + 1) event_id user content now).
  set (t' := mkComments (comments t ++ [c]) (comment_seq t + 1)).
  assert (~ In (comment_seq t + 1) (map Comment.id (comments t))) as Hfresh.
  { intros Hin. apply in_map_iff in Hin. destruct Hin as [x [Hx Hin]].
    pose proof (Hseq x Hin). lia. }
  assert (comments_keyed t' = true) as Hkeyed'.
  { unfold comments_keyed, t'. simpl.
    apply andb_true_iff. split.
    - apply distinct_NoDup. rewrite map_app. simpl. now apply NoDup_snoc.
    - apply forallb_forall. intros x Hx. apply Z.leb_le.
      apply in_app_or in Hx. destruct Hx as [Hx|[<-|[]]].
      + pose proof (Hseq x Hx). lia.
      + simpl. lia. }
  split; [reflexivity|]. split; [exact Hkeyed'|]. split.
  - intros ev. unfold EventCommentsListCreateView.get_queryset, t'. simpl.
    rewrite filter_app. simpl. rewrite (Z.eqb_sym event_id ev).
    now destruct (ev =? event_id).
  - unfold CommentDeleteView.delete.
    assert (In c (comments t')) as Hc
        by (unfold t'; simpl; apply in_or_app; right; now left).
    pose proof (comment_get t' c Hkeyed' Hc) as Hget.
    change (Comment.id c) with (comment_seq t + 1) in *.
    rewrite Hget. change (Comment.author c) with user.
    rewrite Z.eqb_refl. simpl.
    unfold CommentDeleteView.super_delete. rewrite Hget. simpl.
    rewrite filter_app. simpl. rewrite Z.eqb_refl. simpl. rewrite app_nil_r.
    apply forallb_filter_id. apply forallb_forall. intros x Hx.
    apply negb_true_iff, Z.eqb_neq. intros Hid. apply Hfresh.
    rewrite <- Hid. now apply in_map.
Qed.

(* ================================================================== *)
(** ** The further properties on the scenarios *)

(** X1: user 2 named twice: IntegrityError; dinner: no exception. *)
Lemma X1_repeated_participant_is_an_integrity_error :
  well_formed family_db = true
  /\ raised (EventSerializer.create 1 100 repeated_request family_db)
     = Some IntegrityError
  /\ raised (EventSerializer.create 1 100 dinner_request family_db) = None.
Proof.
  split; [reflexivity|]. split.
  - exact (X1_create_raises_what_the_ids_tell family_db 1 100 repeated_request
             eq_refl).
  - exact (X1_create_raises_what_the_ids_tell family_db 1 100 dinner_request
             eq_refl).
Defined.

(** X2: the dinner has participants 2, 3 and the creator 1. *)
Lemma X2_dinner_participants :
  well_formed family_db = true
  /\ EventSerializer.create 1 100 dinner_request family_db
     = (dinner_db, inr (new_event 1 100 dinner_request family_db))
  /\ map EventParticipant.user (participants_of 1 dinner_db) = [2; 3; 1].
Proof.
  split; [reflexivity|]. split; [reflexivity|].
  exact (proj1 (X2_created_event_has_its_participants
                  family_db dinner_db 1 100 dinner_request
                  (new_event 1 100 dinner_request family_db) eq_refl eq_refl)).
Defined.

(** X3: the dinner has approvers 4 and 5; the solo event that names
    approver 4 has none. *)
Lemma X3_dinner_and_solo_approvers :
  well_formed family_db = true
  /\ map EventApprover.approver (approvers_of 1 dinner_db) = [4; 5]
  /\ snd (EventSerializer.create 1 100 solo_request_with_approver family_db)
     = inr (new_event 1 100 solo_request_with_approver family_db)
  /\ map EventApprover.approver
         (approvers_of 1
            (fst (EventSerializer.create 1 100 solo_request_with_approver
                                         family_db)))
     = [].
Proof.
  split; [reflexivity|]. split; [|split; [reflexivity|]].
  - exact (proj1 (X3_created_event_has_pending_approvers
                    family_db dinner_db 1 100 dinner_request
                    (new_event 1 100 dinner_request family_db) eq_refl eq_refl)).
  - exact (proj1 (X3_created_event_has_pending_approvers
                    family_db
                    (fst (EventSerializer.create 1 100 solo_request_with_approver
                                                 family_db))
                    1 100 solo_request_with_approver
                    (new_event 1 100 solo_request_with_approver family_db)
                    eq_refl eq_refl)).
Defined.

(** X4: a second creation on the lunch database leaves event 1 alone. *)
Lemma X4_lunch_untouched_by_next_creation :
  1 <> event_seq lunch_db + 1
  /\ lookup_event 1 (fst (EventSerializer.create 1 200 dinner_request lunch_db))
     = lookup_event 1 lunch_db
  /\ approvers_of 1 (fst (EventSerializer.create 1 200 dinner_request lunch_db))
     = approvers_of 1 lunch_db.
Proof.
  assert (1 <> event_seq lunch_db + 1) as Hne by (vm_compute; discriminate).
  split; [exact Hne|].
  destruct (X4_create_leaves_other_events_alone lunch_db 1 200 1 dinner_request
              Hne) as [_ [H1 [_ [H2 _]]]].
  split; assumption.
Defined.

(** X5: approver 4 answers on the dinner; the row of approver 5 and the
    participants stay. *)
Lemma X5_dinner_other_approver_untouched :
  well_formed dinner_db = true
  /\ approver_row 1 5 (fst (ApproveEventView.post 4 200 approve 1 dinner_db))
     = approver_row 1 5 dinner_db
  /\ event_participants (fst (ApproveEventView.post 4 200 approve 1 dinner_db))
     = event_participants dinner_db.
Proof.
  split; [reflexivity|].
  destruct (X5_decide_touches_one_row_and_one_status dinner_db 4 200 1 approve
              eq_refl) as [_ [Hp [_ [_ [Hrows _]]]]].
  split; [|exact Hp]. apply Hrows. discriminate.
Defined.

(** X6: approver 4 approves the dinner and sends a reason with it. *)
Lemma X6_dinner_approval_drops_reason :
  well_formed dinner_db = true
  /\ approver_row 1 4 dinner_db
     = Some (EventApprover.mk 1 1 4 EventApprover.PENDING None EmptyString)
  /\ approver_row 1 4
       (fst (ApproveEventView.post 4 200
               (ApproveEventView.mk_request (Some "approve"%string)
                                            (Some (ApproveEventView.JText "fine by me")))
               1 dinner_db))
     = Some (EventApprover.mk 1 1 4 EventApprover.APPROVED (Some 200) EmptyString).
Proof.
  split; [reflexivity|]. split; [reflexivity|].
  exact (proj2 (X6_approve_records_time_and_drops_reason
                  dinner_db 4 200 1 (Some (ApproveEventView.JText "fine by me"))
                  (EventApprover.mk 1 1 4 EventApprover.PENDING None EmptyString)
                  eq_refl eq_refl eq_refl)).
Defined.

(** X8: the approved row of approver 4 survives a rejection by 5 and is
    gone with the event. *)
Lemma X8_dinner_approved_row_is_final :
  let db := fst (ApproveEventView.post 4 200 approve 1 dinner_db) in
  let a := EventApprover.mk 1 1 4 EventApprover.APPROVED (Some 200) EmptyString in
  well_formed db = true
  /\ In a (event_approvers db)
  /\ (In a (event_approvers
              (run [Decide 5 300 reject_conflict 1; DeleteEvent 1] db))
      \/ ~ In 1 (map EventApprover.id
                     (event_approvers
                        (run [Decide 5 300 reject_conflict 1; DeleteEvent 1] db)))).
Proof.
  cbv zeta. split; [reflexivity|].
  assert (In (EventApprover.mk 1 1 4 EventApprover.APPROVED (Some 200) EmptyString)
             (event_approvers
                (fst (ApproveEventView.post 4 200 approve 1 dinner_db)))) as Hin
      by (vm_compute; now left).
  split; [exact Hin|].
  apply (X8_decided_rows_are_final
           (fst (ApproveEventView.post 4 200 approve 1 dinner_db))
           (EventApprover.mk 1 1 4 EventApprover.APPROVED (Some 200) EmptyString)
           [Decide 5 300 reject_conflict 1; DeleteEvent 1] eq_refl Hin).
  discriminate.
Defined.

(** X9: the dinner after both approvals is CONFIRMED with two APPROVED
    rows. *)
Lemma X9_confirmed_dinner_has_approved_rows :
  let rs := [CreateEvent 1 100 dinner_request; Decide 4 200 approve 1;
             Decide 5 300 approve 1] in
  forallb status_untouched rs = true
  /\ status_of 1 (run rs (empty_db [1; 2; 3; 4; 5])) = Some Event.CONFIRMED
  /\ forallb is_approved
             (map EventApprover.status
                  (approvers_of 1 (run rs (empty_db [1; 2; 3; 4; 5]))))
     = true.
Proof.
  cbv zeta. split; [reflexivity|]. split; [reflexivity|].
  destruct (X9_event_status_goes_with_approver_statuses
              [CreateEvent 1 100 dinner_request; Decide 4 200 approve 1;
               Decide 5 300 approve 1]
              [1; 2; 3; 4; 5] 1
              (Event.with_status (new_event 1 100 dinner_request family_db)
                                 Event.CONFIRMED)
              eq_refl eq_refl) as [H _].
  exact (proj2 (H eq_refl)).
Defined.

(** X10: the solo event is PENDING, also after somebody tries to decide
    on it. *)
Lemma X10_solo_event_is_pending :
  let rs := [CreateEvent 1 100 solo_request; Decide 1 200 approve 1] in
  forallb status_untouched rs = true
  /\ approvers_of 1 (run rs (empty_db [1; 2; 3; 4; 5])) = []
  /\ (status_of 1 (run rs (empty_db [1; 2; 3; 4; 5])) = Some Event.PENDING
      \/ status_of 1 (run rs (empty_db [1; 2; 3; 4; 5])) = None).
Proof.
  cbv zeta. split; [reflexivity|]. split; [reflexivity|].
  exact (X10_event_without_approvers_stays_pending
           [CreateEvent 1 100 solo_request; Decide 1 200 approve 1]
           [1; 2; 3; 4; 5] 1 eq_refl eq_refl).
Defined.

(** X11: the confirmed lunch needs two deletions. *)
Lemma X11_confirmed_lunch_deleted_twice :
  let db := run [Decide 4 200 approve 1] lunch_db in
  well_formed db = true
  /\ status_of 1 (run [DeleteEvent 1] db) = Some Event.CANCELLED
  /\ lookup_event 1 (run [DeleteEvent 1; DeleteEvent 1] db) = None.
Proof.
  cbv zeta. split; [reflexivity|]. split; [reflexivity|].
  destruct (X11_two_deletions_remove_the_event
              (run [Decide 4 200 approve 1] lunch_db) 1 eq_refl) as [_ H].
  exact (proj1 (H (Event.with_status (new_event 1 100 lunch_request family_db)
                                     Event.CONFIRMED)
                  eq_refl)).
Defined.

(** X12: with the lunch (1) and a dinner (2) stored, deleting the
    dinner leaves the lunch and its rows. *)
Lemma X12_lunch_survives_dinner_deletion :
  let db := fst (EventSerializer.create 1 200 dinner_request lunch_db) in
  well_formed db = true
  /\ 1 <> 2
  /\ lookup_event 1 (fst (EventDetailView.delete 2 db)) = lookup_event 1 db
  /\ approvers_of 1 (fst (EventDetailView.delete 2 db)) = approvers_of 1 db.
Proof.
  cbv zeta. split; [reflexivity|].
  assert (1 <> 2) as Hne by discriminate.
  split; [exact Hne|].
  destruct (X12_delete_leaves_other_events_alone
              (fst (EventSerializer.create 1 200 dinner_request lunch_db))
              2 1 eq_refl Hne) as [H1 [_ [H2 _]]].
  split; assumption.
Defined.

(** X13: the lunch is deleted; the next event gets key 2, not 1. *)
Lemma X13_deleted_lunch_key_is_not_reused :
  let db := run [DeleteEvent 1] lunch_db in
  well_formed db = true
  /\ 1 <= event_seq db
  /\ lookup_event 1 db = None
  /\ lookup_event 1 (run [CreateEvent 1 300 dinner_request] db) = None.
Proof.
  cbv zeta. split; [reflexivity|].
  assert (1 <= event_seq (run [DeleteEvent 1] lunch_db)) as Hle
      by (vm_compute; discriminate).
  split; [exact Hle|]. split; [reflexivity|].
  exact (X13_event_keys_are_not_reused
           (run [DeleteEvent 1] lunch_db) 1 [CreateEvent 1 300 dinner_request]
           eq_refl Hle eq_refl).
Defined.

(** X14: the dinner is requested from approver 4 until they answer. *)
Lemma X14_dinner_requested_from_approver :
  well_formed dinner_db = true
  /\ In 1 (map Event.id (MyApprovalRequestsView.get_queryset 4 dinner_db))
  /\ ~ In 1 (map Event.id
                 (MyApprovalRequestsView.get_queryset
                    4 (fst (ApproveEventView.post 4 200 approve 1 dinner_db)))).
Proof.
  split; [reflexivity|].
  destruct (X14_approval_requests_are_the_open_decisions dinner_db 4 200 1 approve
              eq_refl) as [H1 [_ H3]].
  split; [|exact (H3 _ eq_refl)].
  apply (proj1 H1). exists EventApprover.APPROVED. reflexivity.
Defined.

(** X15: the dinner is requested from 5 and not from participant 2. *)
Lemma X15_dinner_requested_from_five_not_two :
  well_formed family_db = true
  /\ In 1 (map Event.id (MyApprovalRequestsView.get_queryset 5 dinner_db))
  /\ ~ In 1 (map Event.id (MyApprovalRequestsView.get_queryset 2 dinner_db)).
Proof.
  split; [reflexivity|]. split.
  - apply (X15_created_event_is_requested_from_its_approvers
             family_db dinner_db 1 100 5 dinner_request
             (new_event 1 100 dinner_request family_db) eq_refl eq_refl).
    vm_compute. right. now left.
  - intros H.
    apply (X15_created_event_is_requested_from_its_approvers
             family_db dinner_db 1 100 2 dinner_request
             (new_event 1 100 dinner_request family_db) eq_refl eq_refl) in H.
    vm_compute in H. destruct H as [H|[H|[]]]; discriminate H.
Defined.

(** X16: user 4 marks notification 1; user 4 cannot mark notification 2
    of user 2. *)
Lemma X16_inbox_mark_read :
  notifications_keyed inbox_db = true
  /\ map Notification.is_read
         (notifications (fst (MarkNotificationReadView.post 4 1 inbox_db)))
     = [true; false; true]
  /\ MarkNotificationReadView.post 4 2 inbox_db
     = (inbox_db, inr (mkResponse 404 NoContent)).
Proof.
  split; [reflexivity|]. split.
  - destruct (X16_mark_read_sets_one_flag_or_answers_404 inbox_db 4 1 eq_refl)
      as [_ [_ [_ [H _]]]].
    rewrite H. reflexivity.
  - destruct (X16_mark_read_sets_one_flag_or_answers_404 inbox_db 4 2 eq_refl)
      as [H1 [H2 _]].
    assert (snd (MarkNotificationReadView.post 4 2 inbox_db)
            = inr (mkResponse 404 NoContent)) as Hs by reflexivity.
    rewrite <- (H2 Hs) at 2. rewrite <- Hs.
    now destruct (MarkNotificationReadView.post 4 2 inbox_db).
Defined.

(** X17: after user 4 marks notification 1 the list of user 2 is the
    same. *)
Lemma X17_inbox_of_user_two_unchanged :
  notifications_keyed inbox_db = true
  /\ 2 <> 4
  /\ MyNotificationsView.get_queryset
       2 (fst (MarkNotificationReadView.post 4 1 inbox_db))
     = MyNotificationsView.get_queryset 2 inbox_db.
Proof.
  split; [reflexivity|].
  assert (2 <> 4) as Hne by discriminate.
  split; [exact Hne|].
  exact (proj2 (X17_mark_read_changes_the_own_list_only inbox_db 4 1 2
                  eq_refl Hne)).
Defined.

(** X18: marking notification 1 twice. *)
Lemma X18_inbox_mark_read_twice :
  notifications_keyed inbox_db = true
  /\ fst (MarkNotificationReadView.post
            4 1 (fst (MarkNotificationReadView.post 4 1 inbox_db)))
     = fst (MarkNotificationReadView.post 4 1 inbox_db).
Proof.
  split; [reflexivity|].
  now rewrite (X18_mark_read_is_idempotent inbox_db 4 1 eq_refl).
Defined.

(** X19: the body says family 7, the URL family 8: the event is listed
    under 8. *)
Lemma X19_event_listed_under_url_family :
  distinct [7; 8] = true
  /\ map Event.id
         (FamilyEventsListCreateView.get_queryset
            8 (fst (FamilyEventsListCreateView.perform_create
                      [7; 8] 8 1 100 solo_request family_db)))
     = [1]
  /\ FamilyEventsListCreateView.perform_create [7; 8] 9 1 100 solo_request family_db
     = (family_db, inl DoesNotExist).
Proof.
  split; [reflexivity|].
  destruct (X19_event_is_created_in_the_family_of_the_url
              family_db [7; 8] 8 1 100 solo_request eq_refl) as [_ H].
  destruct (H eq_refl) as [_ Hlist].
  split.
  - rewrite (Hlist 8). reflexivity.
  - exact (proj1 (X19_event_is_created_in_the_family_of_the_url
                    family_db [7; 8] 9 1 100 solo_request eq_refl) eq_refl).
Defined.

(** X20: the comment of user 2 on the lunch: the creator 1 may delete
    it, user 3 may not. *)
Lemma X20_lunch_comment_permissions :
  well_formed lunch_db = true
  /\ comments_keyed lunch_comments = true
  /\ snd (CommentDeleteView.delete 1 1 lunch_db lunch_comments)
     = inr (mkResponse 204 NoContent)
  /\ CommentDeleteView.delete 3 1 lunch_db lunch_comments
     = (lunch_comments, inr (mkResponse 403 NoContent)).
Proof.
  split; [reflexivity|]. split; [reflexivity|].
  assert (In (Comment.mk 1 1 2 "see you there" 110) (comments lunch_comments))
    as Hin by (simpl; now left).
  split.
  - exact (f_equal snd
             (proj1 (X20_comment_deleted_by_author_or_event_creator
                       lunch_db lunch_comments 1
                       (Comment.mk 1 1 2 "see you there" 110)
                       (new_event 1 100 lunch_request family_db)
                       eq_refl eq_refl Hin eq_refl))).
  - exact (proj1 (X20_comment_deleted_by_author_or_event_creator
                    lunch_db lunch_comments 3
                    (Comment.mk 1 1 2 "see you there" 110)
                    (new_event 1 100 lunch_request family_db)
                    eq_refl eq_refl Hin eq_refl)).
Defined.

(** X21: user 4 comments on the lunch and deletes the comment again. *)
Lemma X21_lunch_comment_round_trip :
  comments_keyed lunch_comments = true
  /\ comments
       (fst (CommentDeleteView.delete
               4 3 lunch_db
               (fst (EventCommentsListCreateView.perform_create
                       4 130 1 "running late" lunch_db lunch_comments))))
     = comments lunch_comments.
Proof.
  split; [reflexivity|].
  destruct (X21_comment_is_listed_then_deleted
              lunch_db lunch_comments 4 130 1 "running late" eq_refl) as [_ H].
  destruct (H eq_refl) as [_ [_ [_ Hback]]]. exact Hback.
Defined.
